(** * APIcast operator: the reconciliation logic of [APIcastLogicReconciler]

    A shallow embedding of [pkg/controller/apicast/apicast_logic_reconciler.go]
    together with the Kubernetes object shapes it reads and writes, and the
    properties of the reconcile pass proved over it.

    Conventions.
    - A Go struct is a record; a Go package is a module.
    - [*T] is [option T] when the pointer is only tested against nil and
      dereferenced.  [appsv1.DeploymentSpec.Replicas] is a [*int32] that the
      reconciler compares with [!=]; it keeps its address ([Int32Ptr]).
    - A map or slice compared with [reflect.DeepEqual] is [option (gmap ..)] /
      [option (list ..)]: DeepEqual tells a nil map or slice ([None]) from an
      empty one ([Some ∅], [Some []]).
    - A method of the reconciler is a computation in the monad [M]: it threads
      the world (object store, journal of client calls, allocator, the
      in-memory custom resource) and may panic. *)

From stdpp Require Import base strings gmap list sorting pretty.
From Stdlib Require Import ZArith Eqdep_dec.

Local Open Scope string_scope.
Local Open Scope Z_scope.
Local Open Scope list_scope.

(** ** Object shapes *)

Module types.
(** [k8s.io/apimachinery/pkg/types.NamespacedName] *)
Record NamespacedName := { Name : string; Namespace : string }.
End types.

Module metav1.
Record OwnerReference := {
  APIVersion : string;
  Kind : string;
  Name : string;
  UID : string;
  Controller : option bool
}.

Record ObjectMeta := {
  om_Name : string;
  om_Namespace : string;
  om_UID : string;
  ResourceVersion : string;
  OwnerReferences : list OwnerReference
}.

Definition SetOwnerReferences (refs : list OwnerReference) (m : ObjectMeta) : ObjectMeta :=
  {| om_Name := om_Name m; om_Namespace := om_Namespace m; om_UID := om_UID m;
     ResourceVersion := ResourceVersion m; OwnerReferences := refs |}.
End metav1.

Module v1.
Record LocalObjectReference := { lor_Name : string }.

Record SecretKeySelector := { sks_Name : string; sks_Key : string }.

Record EnvVar := {
  ev_Name : string;
  ev_Value : string;
  ev_ValueFrom : option SecretKeySelector
}.

Record VolumeMount := { vm_Name : string; vm_MountPath : string; vm_ReadOnly : bool }.

Record Volume := { vol_Name : string; vol_SecretName : string }.

Record Container := {
  c_Name : string;
  Image : string;
  Env : list EnvVar;
  VolumeMounts : option (list VolumeMount)
}.

Record PodSpec := {
  ServiceAccountName : string;
  Containers : list Container;
  Volumes : option (list Volume)
}.

Record PodTemplateSpec := {
  Annotations : option (gmap string string);
  tmpl_Labels : gmap string string;
  tmpl_Spec : PodSpec
}.

(** [Data] is [map[string][]byte]; a byte string is kept as a [string]. *)
Record Secret := { sec_Meta : metav1.ObjectMeta; Data : gmap string string }.

Record ServicePort := { sp_Name : string; sp_Port : Z }.

Record Service := {
  svc_Meta : metav1.ObjectMeta;
  svc_Ports : list ServicePort;
  svc_Selector : gmap string string
}.
End v1.

(** A [*int32]: the address it holds and the value stored there. *)
Record Int32Ptr := { addr : positive; pointee : Z }.

Module appsv1.
Record DeploymentSpec := {
  Replicas : option Int32Ptr;
  Template : v1.PodTemplateSpec
}.

Record Deployment := { dep_Meta : metav1.ObjectMeta; dep_Spec : DeploymentSpec }.
End appsv1.

Module extensions.
Record IngressTLS := { Hosts : list string; SecretName : string }.

Record IngressBackend := { ServiceName : string; ServicePort : string }.

Record IngressRule := { Host : string; rule_Backend : IngressBackend }.

Record IngressSpec := {
  TLS : option (list IngressTLS);
  Rules : list IngressRule
}.

Record Ingress := { ing_Meta : metav1.ObjectMeta; ing_Spec : IngressSpec }.
End extensions.

(** The custom resource, [pkg/apis/apps/v1alpha1]; the fields are those
    [APIcastSpec.DeepCopyInto] copies, with the types it allocates. *)
Module appsv1alpha1.
Record APIcastExposedHost := {
  Host : string;
  TLS : option (list extensions.IngressTLS)
}.

Record APIcastSpec := {
  Replicas : option Z;
  AdminPortalCredentialsRef : option v1.LocalObjectReference;
  EmbeddedConfigurationSecretRef : option v1.LocalObjectReference;
  ServiceAccount : option string;
  Image : option string;
  ExposedHost : option APIcastExposedHost;
  DeploymentEnvironment : option string;
  DNSResolverAddress : option string;
  EnabledServices : option (list string);
  ConfigurationLoadMode : option Z;
  LogLevel : option string;
  PathRoutingEnabled : option bool;
  ResponseCodesIncluded : option bool;
  CacheConfigurationSeconds : option Z;
  ManagementAPIScope : option string;
  OpenSSLPeerVerificationEnabled : option bool
}.

Record APIcast := { cr_Meta : metav1.ObjectMeta; Spec : APIcastSpec }.

Definition Name (a : APIcast) : string := metav1.om_Name (cr_Meta a).
Definition Namespace (a : APIcast) : string := metav1.om_Namespace (cr_Meta a).
Definition UID (a : APIcast) : string := metav1.om_UID (cr_Meta a).
End appsv1alpha1.

(** [pkg/apicast.APIcast], the in-memory description of the gateway; the
    fields are those of the struct literal in [internalAPIcast]. *)
Module apicast.
Record ExposedHost := {
  Host : string;
  TLS : option (list extensions.IngressTLS)
}.

Record APIcast := {
  DeploymentName : string;
  ServiceName : string;
  Replicas : Z;
  AppLabel : string;
  AdditionalAnnotations : gmap string string;
  ServiceAccountName : string;
  Image : string;
  exposedHost : ExposedHost;
  Namespace : string;
  OwnerReference : option metav1.OwnerReference;
  AdminPortalCredentialsSecretName : option string;
  DeploymentEnvironment : option string;
  DNSResolverAddress : option string;
  EnabledServices : option (list string);
  ConfigurationLoadMode : option Z;
  LogLevel : option string;
  PathRoutingEnabled : option bool;
  ResponseCodesIncluded : option bool;
  CacheConfigurationSeconds : option Z;
  ManagementAPIScope : option string;
  OpenSSLPeerVerificationEnabled : option bool;
  GatewayConfigurationSecretName : option string
}.
End apicast.

(** Decidable equality: Go's [==] on strings and [reflect.DeepEqual]. *)
#[global] Instance OwnerReference_eq_dec : EqDecision metav1.OwnerReference.
Proof. solve_decision. Defined.
#[global] Instance ObjectMeta_eq_dec : EqDecision metav1.ObjectMeta.
Proof. solve_decision. Defined.
#[global] Instance SecretKeySelector_eq_dec : EqDecision v1.SecretKeySelector.
Proof. solve_decision. Defined.
#[global] Instance EnvVar_eq_dec : EqDecision v1.EnvVar.
Proof. solve_decision. Defined.
#[global] Instance VolumeMount_eq_dec : EqDecision v1.VolumeMount.
Proof. solve_decision. Defined.
#[global] Instance Volume_eq_dec : EqDecision v1.Volume.
Proof. solve_decision. Defined.
#[global] Instance IngressTLS_eq_dec : EqDecision extensions.IngressTLS.
Proof. solve_decision. Defined.
#[global] Instance Int32Ptr_eq_dec : EqDecision Int32Ptr.
Proof. solve_decision. Defined.

(** ** Errors, panics and results *)

(** [metav1.StatusReason] of an error returned by the API client. *)
Inductive StatusReason := NotFound | AlreadyExists | Conflict | Unknown.

(** An [error] value: a status error of the client, or a message built by
    [fmt.Errorf] (also what [url.Parse] and [SetControllerReference] return). *)
Inductive error :=
| StatusError (reason : StatusReason) (msg : string)
| Errorf (msg : string).

#[global] Instance StatusReason_eq_dec : EqDecision StatusReason.
Proof. solve_decision. Defined.
#[global] Instance error_eq_dec : EqDecision error.
Proof. solve_decision. Defined.

(** [errors.IsNotFound] *)
Definition IsNotFound (err : error) : bool :=
  match err with
  | StatusError NotFound _ => true
  | _ => false
  end.

(** The errors of the secret resolver, under the names the design gives them. *)
Definition ReferenceIncomplete (field : string) : error :=
  Errorf ("Field 'Name' not specified for " +:+ field +:+ " Secret Reference").
Definition KeyMissing (key secret : string) : error :=
  Errorf ("Required key '" +:+ key +:+ "' not found in secret '" +:+ secret +:+ "'").
Definition CredentialMissing (key : string) : error :=
  Errorf ("Access Token required in " +:+ key +:+ " URL").

(** A run-time panic of the Go program. *)
Inductive panic := NilDereference | IndexOutOfRange.

(** [reconcile.Result] *)
Record Result := { Requeue : bool }.

(** [net/url]: the part of a parsed URL the reconciler looks at. *)
Record Userinfo := { username : string; password : option string }.
Record URL := { User : option Userinfo }.

(** [Userinfo.Username] (pointer receiver) accepts a nil receiver. *)
Definition Username (u : option Userinfo) : string :=
  match u with
  | None => ""
  | Some u => username u
  end.

(** ** The client interface *)

Inductive Kind := KDeployment | KService | KIngress | KSecret | KAPIcast.

Definition obj (k : Kind) : Type :=
  match k with
  | KDeployment => appsv1.Deployment
  | KService => v1.Service
  | KIngress => extensions.Ingress
  | KSecret => v1.Secret
  | KAPIcast => appsv1alpha1.APIcast
  end.

(** One call on [client.Client], as the journal of a pass records it. *)
Inductive Call :=
| CallGet (k : Kind) (key : types.NamespacedName)
| CallCreate (k : Kind) (o : obj k)
| CallUpdate (k : Kind) (o : obj k).

Definition isWrite (c : Call) : bool :=
  match c with
  | CallGet _ _ => false
  | _ => true
  end.

(** [client.Client] over a store of type [St]: [Get] reads, [Create] and
    [Update] return the new store and the error, if any. *)
Class Client (St : Type) := {
  client_Get : St → ∀ k : Kind, types.NamespacedName → error + obj k;
  client_Create : St → ∀ k : Kind, obj k → St * option error;
  client_Update : St → ∀ k : Kind, obj k → St * option error
}.

(** Library code the reconciler calls: controller-runtime's
    [controllerutil.SetControllerReference] (on the object's metadata) and
    [net/url.Parse]. *)
Class Libraries := {
  SetControllerReference :
    appsv1alpha1.APIcast → metav1.ObjectMeta → metav1.ObjectMeta * option error;
  url_Parse : string → error + URL
}.

(** What the reconciler uses of packages of this repository whose files are
    not among the sources: [pkg/apicast] (constants, the default image and the
    three object builders of [apicast.APIcast]) and the group/kind constants of
    [pkg/apis/apps].  [Deployment] receives the address at which the replica
    count it points to lives. *)
Class ApicastPkg := {
  AdminPortalURLAttributeName : string;
  EmbeddedConfigurationSecretKey : string;
  GetDefaultImageVersion : string;
  SchemeGroupVersion : string;
  APIcastKind : string;
  Deployment : positive → apicast.APIcast → appsv1.Deployment;
  Service : apicast.APIcast → v1.Service;
  Ingress : apicast.APIcast → extensions.Ingress
}.

(** Modelled from the spec: [k8sutils.SecretStringDataFromData], whose file is
    not among the sources; the resolver looks the required key up in "the
    secret payload": the payload with every value read as a string. *)
Definition SecretStringDataFromData (s : v1.Secret) : gmap string string := v1.Data s.

(** [int32(x)] for an [int64] x: the low 32 bits, read as signed. *)
Definition int32 (x : Z) : Z := (x + 2 ^ 31) `mod` 2 ^ 32 - 2 ^ 31.

(** [p != q] on two [*int32]: nil against nil, else the addresses. *)
Definition ptr_ne (p q : option Int32Ptr) : bool :=
  match p, q with
  | None, None => false
  | Some p, Some q => negb (Pos.eqb (addr p) (addr q))
  | _, _ => true
  end.

(** ** Environment-variable merge *)

(** Modelled from the spec: the lookup by name of [ReconcileEnvVar]
    ("merge-by-name"): the index of the first variable called [name]. *)
Fixpoint findEnvVar (name : string) (vars : list v1.EnvVar) : option nat :=
  match vars with
  | [] => None
  | v :: rest =>
      if decide (v1.ev_Name v = name) then Some 0%nat
      else S <$> findEnvVar name rest
  end.

(** Modelled from the spec: one step of [ReconcileEnvVar], "variables present
    in desired but missing/different in existing are upserted": the desired
    variable is appended when no variable has its name and written over the
    one that has when they differ. *)
Definition upsertEnvVar (existing : list v1.EnvVar) (desiredEnvVar : v1.EnvVar)
  : list v1.EnvVar * bool :=
  match findEnvVar (v1.ev_Name desiredEnvVar) existing with
  | None => (existing ++ [desiredEnvVar], true)
  | Some idx =>
      if decide (existing !! idx = Some desiredEnvVar) then (existing, false)
      else (<[idx := desiredEnvVar]> existing, true)
  end.

(** Modelled from the spec: [ReconcileEnvVar], which [reconcileDeployment]
    calls and whose file is not among the sources.  "Environment-variable
    reconciliation is a keyed merge: variables present in desired but
    missing/different in existing are upserted; variables present in existing
    but absent from desired are left untouched."  The Go function updates
    [*existing] in place and returns whether it changed it; here it returns
    the new list and that flag. *)
Fixpoint ReconcileEnvVar (existing desired : list v1.EnvVar) : list v1.EnvVar * bool :=
  match desired with
  | [] => (existing, false)
  | desiredEnvVar :: rest =>
      let '(existing1, updated1) := upsertEnvVar existing desiredEnvVar in
      let '(existing2, updated2) := ReconcileEnvVar existing1 rest in
      (existing2, updated1 || updated2)
  end.

(** ** Field updates on the nested objects *)

Definition setReplicas (p : option Int32Ptr) (d : appsv1.Deployment) : appsv1.Deployment :=
  {| appsv1.dep_Meta := appsv1.dep_Meta d;
     appsv1.dep_Spec := {| appsv1.Replicas := p;
                           appsv1.Template := appsv1.Template (appsv1.dep_Spec d) |} |}.

Definition setTemplate (t : v1.PodTemplateSpec) (d : appsv1.Deployment) : appsv1.Deployment :=
  {| appsv1.dep_Meta := appsv1.dep_Meta d;
     appsv1.dep_Spec := {| appsv1.Replicas := appsv1.Replicas (appsv1.dep_Spec d);
                           appsv1.Template := t |} |}.

Definition podSpec (d : appsv1.Deployment) : v1.PodSpec :=
  v1.tmpl_Spec (appsv1.Template (appsv1.dep_Spec d)).

Definition setPodSpec (s : v1.PodSpec) (d : appsv1.Deployment) : appsv1.Deployment :=
  setTemplate {| v1.Annotations := v1.Annotations (appsv1.Template (appsv1.dep_Spec d));
                 v1.tmpl_Labels := v1.tmpl_Labels (appsv1.Template (appsv1.dep_Spec d));
                 v1.tmpl_Spec := s |} d.

Definition setAnnotations (a : option (gmap string string)) (d : appsv1.Deployment)
  : appsv1.Deployment :=
  setTemplate {| v1.Annotations := a;
                 v1.tmpl_Labels := v1.tmpl_Labels (appsv1.Template (appsv1.dep_Spec d));
                 v1.tmpl_Spec := podSpec d |} d.

Definition setServiceAccountName (n : string) (d : appsv1.Deployment) : appsv1.Deployment :=
  setPodSpec {| v1.ServiceAccountName := n;
                v1.Containers := v1.Containers (podSpec d);
                v1.Volumes := v1.Volumes (podSpec d) |} d.

Definition setVolumes (v : option (list v1.Volume)) (d : appsv1.Deployment) : appsv1.Deployment :=
  setPodSpec {| v1.ServiceAccountName := v1.ServiceAccountName (podSpec d);
                v1.Containers := v1.Containers (podSpec d);
                v1.Volumes := v |} d.

(** [Containers[0] = c]; the callers have indexed [Containers[0]] before. *)
Definition setContainer0 (c : v1.Container) (d : appsv1.Deployment) : appsv1.Deployment :=
  setPodSpec {| v1.ServiceAccountName := v1.ServiceAccountName (podSpec d);
                v1.Containers := <[0%nat := c]> (v1.Containers (podSpec d));
                v1.Volumes := v1.Volumes (podSpec d) |} d.

Definition setImage (i : string) (c : v1.Container) : v1.Container :=
  {| v1.c_Name := v1.c_Name c; v1.Image := i; v1.Env := v1.Env c;
     v1.VolumeMounts := v1.VolumeMounts c |}.

Definition setEnv (e : list v1.EnvVar) (c : v1.Container) : v1.Container :=
  {| v1.c_Name := v1.c_Name c; v1.Image := v1.Image c; v1.Env := e;
     v1.VolumeMounts := v1.VolumeMounts c |}.

Definition setVolumeMounts (m : option (list v1.VolumeMount)) (c : v1.Container)
  : v1.Container :=
  {| v1.c_Name := v1.c_Name c; v1.Image := v1.Image c; v1.Env := v1.Env c;
     v1.VolumeMounts := m |}.

Definition setRules (r : list extensions.IngressRule) (i : extensions.Ingress)
  : extensions.Ingress :=
  {| extensions.ing_Meta := extensions.ing_Meta i;
     extensions.ing_Spec := {| extensions.TLS := extensions.TLS (extensions.ing_Spec i);
                               extensions.Rules := r |} |}.

Definition setTLS (t : option (list extensions.IngressTLS)) (i : extensions.Ingress)
  : extensions.Ingress :=
  {| extensions.ing_Meta := extensions.ing_Meta i;
     extensions.ing_Spec := {| extensions.TLS := t;
                               extensions.Rules := extensions.Rules (extensions.ing_Spec i) |} |}.

Definition setSecretMeta (m : metav1.ObjectMeta) (s : v1.Secret) : v1.Secret :=
  {| v1.sec_Meta := m; v1.Data := v1.Data s |}.

Definition setSpecReplicas (n : option Z) (a : appsv1alpha1.APIcast) : appsv1alpha1.APIcast :=
  let s := appsv1alpha1.Spec a in
  {| appsv1alpha1.cr_Meta := appsv1alpha1.cr_Meta a;
     appsv1alpha1.Spec :=
       {| appsv1alpha1.Replicas := n;
          appsv1alpha1.AdminPortalCredentialsRef := appsv1alpha1.AdminPortalCredentialsRef s;
          appsv1alpha1.EmbeddedConfigurationSecretRef :=
            appsv1alpha1.EmbeddedConfigurationSecretRef s;
          appsv1alpha1.ServiceAccount := appsv1alpha1.ServiceAccount s;
          appsv1alpha1.Image := appsv1alpha1.Image s;
          appsv1alpha1.ExposedHost := appsv1alpha1.ExposedHost s;
          appsv1alpha1.DeploymentEnvironment := appsv1alpha1.DeploymentEnvironment s;
          appsv1alpha1.DNSResolverAddress := appsv1alpha1.DNSResolverAddress s;
          appsv1alpha1.EnabledServices := appsv1alpha1.EnabledServices s;
          appsv1alpha1.ConfigurationLoadMode := appsv1alpha1.ConfigurationLoadMode s;
          appsv1alpha1.LogLevel := appsv1alpha1.LogLevel s;
          appsv1alpha1.PathRoutingEnabled := appsv1alpha1.PathRoutingEnabled s;
          appsv1alpha1.ResponseCodesIncluded := appsv1alpha1.ResponseCodesIncluded s;
          appsv1alpha1.CacheConfigurationSeconds := appsv1alpha1.CacheConfigurationSeconds s;
          appsv1alpha1.ManagementAPIScope := appsv1alpha1.ManagementAPIScope s;
          appsv1alpha1.OpenSSLPeerVerificationEnabled :=
            appsv1alpha1.OpenSSLPeerVerificationEnabled s |} |}.

(** [GetName] / [GetNamespace] of each kind of object. *)
Definition objMeta (k : Kind) : obj k → metav1.ObjectMeta :=
  match k with
  | KDeployment => appsv1.dep_Meta
  | KService => v1.svc_Meta
  | KIngress => extensions.ing_Meta
  | KSecret => v1.sec_Meta
  | KAPIcast => appsv1alpha1.cr_Meta
  end.

(** [apicastUserProvidedSecrets] *)
Record apicastUserProvidedSecrets := {
  adminPortalCredentialsSecret : option v1.Secret;
  gatewayEmbeddedConfigSecret : option v1.Secret
}.

Definition AdmPortalSecretResverAnnotation : string :=
  "apicast.apps.3scale.net/admin-portal-secret-resource-version".
Definition GatewayConfigurationSecretResverAnnotation : string :=
  "apicast.apps.3scale.net/gateway-configuration-secret-resource-version".

(** ** The reconciler *)

Section Reconciler.
Context {St : Type} `{!Client St} `{!Libraries} `{!ApicastPkg}.

(** What a pass runs against: the object store behind the client, the
    journal of the client calls made so far (oldest first), the next free
    address, and the custom resource [r.APIcastCR] points to. *)
Record World := {
  store : St;
  calls : list Call;
  heapNext : positive;
  APIcastCR : appsv1alpha1.APIcast
}.

Inductive Res (A : Type) :=
| Normal (a : A) (w : World)
| Panicked (p : panic) (w : World).
Arguments Normal {A} a w.
Arguments Panicked {A} p w.

Definition M (A : Type) : Type := World → Res A.

#[local] Instance M_ret : MRet M := λ A a w, Normal a w.
#[local] Instance M_bind : MBind M := λ A B f m w,
  match m w with
  | Normal a w' => f a w'
  | Panicked p w' => Panicked p w'
  end.

(** The world a computation ends in, and what it answers. *)
Definition worldOf {A} (r : Res A) : World :=
  match r with
  | Normal _ w => w
  | Panicked _ w => w
  end.

Definition answerOf {A} (r : Res A) : option A :=
  match r with
  | Normal a _ => Some a
  | Panicked _ _ => None
  end.

Definition outcomeOf {A} (r : Res A) : A + panic :=
  match r with
  | Normal a _ => inl a
  | Panicked p _ => inr p
  end.

(** The computation answers and leaves the custom resource as it was. *)
Definition runs {A} (m : M A) (w : World) : Prop :=
  ∃ a w', m w = Normal a w' ∧ APIcastCR w' = APIcastCR w.

Definition getCR : M appsv1alpha1.APIcast := λ w, Normal (APIcastCR w) w.

Definition setCR (cr : appsv1alpha1.APIcast) : M unit := λ w,
  Normal () {| store := store w; calls := calls w; heapNext := heapNext w; APIcastCR := cr |}.

Definition gopanic {A} (p : panic) : M A := λ w, Panicked p w.

(** [*p] *)
Definition deref {A} (p : option A) : M A :=
  match p with
  | Some a => mret a
  | None => gopanic NilDereference
  end.

(** [s[0]] *)
Definition index0 {A} (s : list A) : M A :=
  match s with
  | a :: _ => mret a
  | [] => gopanic IndexOutOfRange
  end.

(** A fresh address. *)
Definition alloc : M positive := λ w,
  Normal (heapNext w)
    {| store := store w; calls := calls w; heapNext := Pos.succ (heapNext w);
       APIcastCR := APIcastCR w |}.

Definition journal (c : Call) : M unit := λ w,
  Normal () {| store := store w; calls := calls w ++ [c]; heapNext := heapNext w;
               APIcastCR := APIcastCR w |}.

(** The client decodes what it read into the caller's zero-valued struct:
    the replica pointer of a deployment it returns is newly allocated. *)
Definition decode (k : Kind) : obj k → M (obj k) :=
  match k as k0 return obj k0 → M (obj k0) with
  | KDeployment => λ d,
      match appsv1.Replicas (appsv1.dep_Spec d) with
      | None => mret d
      | Some p =>
          a ← alloc;
          mret (setReplicas (Some {| addr := a; pointee := pointee p |}) d)
      end
  | _ => λ o, mret o
  end.

(** [r.Client().Get(context.TODO(), key, &obj)] *)
Definition clientGet (k : Kind) (key : types.NamespacedName) : M (error + obj k) :=
  _ ← journal (CallGet k key);
  w ← (λ w, Normal w w);
  match client_Get (store w) k key with
  | inl err => mret (inl err)
  | inr o => o' ← decode k o; mret (inr o')
  end.

Definition putStore (st : St) : M unit := λ w,
  Normal () {| store := st; calls := calls w; heapNext := heapNext w;
               APIcastCR := APIcastCR w |}.

(** [r.Client().Create(context.TODO(), &obj)].  [Create] and [Update] also
    refresh the object they are given from the server's answer; no caller reads
    it afterwards. *)
Definition clientCreate (k : Kind) (o : obj k) : M (option error) :=
  _ ← journal (CallCreate k o);
  w ← (λ w, Normal w w);
  let '(st, err) := client_Create (store w) k o in
  _ ← putStore st;
  mret err.

(** [r.Client().Update(context.TODO(), &obj)] *)
Definition clientUpdate (k : Kind) (o : obj k) : M (option error) :=
  _ ← journal (CallUpdate k o);
  w ← (λ w, Normal w w);
  let '(st, err) := client_Update (store w) k o in
  _ ← putStore st;
  mret err.

Definition namespacedName (k : Kind) (object : obj k) : types.NamespacedName :=
  {| types.Name := metav1.om_Name (objMeta k object);
     types.Namespace := metav1.om_Namespace (objMeta k object) |}.

Definition applyInitialization : M bool :=
  let defaultAPIcastReplicas := 1 in
  cr ← getCR;
  match appsv1alpha1.Replicas (appsv1alpha1.Spec cr) with
  | None =>
      _ ← setCR (setSpecReplicas (Some defaultAPIcastReplicas) cr);
      mret true
  | Some _ => mret false
  end.

Definition initialize : M (bool * option error) :=
  appliedSomeInitialization ← applyInitialization;
  if appliedSomeInitialization : bool then
    cr ← getCR;
    err ← clientUpdate KAPIcast cr;
    match err with
    | Some err => mret (false, Some err)
    | None => mret (true, None)
    end
  else mret (false, None).

Definition getAdminPortalCredentialsSecret : M (option v1.Secret * option error) :=
  cr ← getCR;
  let adminPortalSecretReference :=
    appsv1alpha1.AdminPortalCredentialsRef (appsv1alpha1.Spec cr) in
  let adminPortalNamespace := appsv1alpha1.Namespace cr in
  ref ← deref adminPortalSecretReference;
  if decide (v1.lor_Name ref = "") then
    mret (None, Some (Errorf
      "Field 'Name' not specified for AdminPortalCredentialsRef Secret Reference"))
  else
    let adminPortalCredentialsNamespacedName :=
      {| types.Name := v1.lor_Name ref; types.Namespace := adminPortalNamespace |} in
    r ← clientGet KSecret adminPortalCredentialsNamespacedName;
    match r with
    | inl err => mret (None, Some err)
    | inr adminPortalCredentialsSecret =>
        let secretStringData := SecretStringDataFromData adminPortalCredentialsSecret in
        match secretStringData !! AdminPortalURLAttributeName with
        | None =>
            mret (None, Some (Errorf
              ("Required key '" +:+ AdminPortalURLAttributeName +:+ "' not found in secret '"
               +:+ metav1.om_Name (v1.sec_Meta adminPortalCredentialsSecret) +:+ "'")))
        | Some adminPortalURL =>
            match url_Parse adminPortalURL with
            | inl err => mret (None, Some err)
            | inr parsedURL =>
                let accessToken := Username (User parsedURL) in
                if decide (accessToken = "") then
                  mret (None, Some (Errorf
                    ("Access Token required in " +:+ AdminPortalURLAttributeName +:+ " URL")))
                else mret (Some adminPortalCredentialsSecret, None)
            end
        end
    end.

Definition getGatewayEmbeddedConfigSecret : M (option v1.Secret * option error) :=
  cr ← getCR;
  let gatewayConfigSecretReference :=
    appsv1alpha1.EmbeddedConfigurationSecretRef (appsv1alpha1.Spec cr) in
  let gatewayConfigSecretNamespace := appsv1alpha1.Namespace cr in
  ref ← deref gatewayConfigSecretReference;
  if decide (v1.lor_Name ref = "") then
    mret (None, Some (Errorf
      "Field 'Name' not specified for EmbeddedConfigurationSecretRef Secret Reference"))
  else
    let gatewayConfigSecretNamespacedName :=
      {| types.Name := v1.lor_Name ref; types.Namespace := gatewayConfigSecretNamespace |} in
    r ← clientGet KSecret gatewayConfigSecretNamespacedName;
    match r with
    | inl err => mret (None, Some err)
    | inr gatewayConfigSecret =>
        let secretStringData := SecretStringDataFromData gatewayConfigSecret in
        match secretStringData !! EmbeddedConfigurationSecretKey with
        | None =>
            mret (None, Some (Errorf
              ("Required key '" +:+ EmbeddedConfigurationSecretKey +:+ "' not found in secret '"
               +:+ metav1.om_Name (v1.sec_Meta gatewayConfigSecret) +:+ "'")))
        | Some _ => mret (Some gatewayConfigSecret, None)
        end
    end.

(** [setOwnerReference], on the secrets it is called with (a [v1.Secret] is
    a [runtime.Object], so the type assertion holds); the error is logged
    and returned. *)
Definition setOwnerReference (o : v1.Secret) : M (v1.Secret * option error) :=
  cr ← getCR;
  let '(m, err) := SetControllerReference cr (v1.sec_Meta o) in
  mret (setSecretMeta m o, err).

Definition ensureOwnerReference (o : v1.Secret) : M (v1.Secret * bool * option error) :=
  let changed := false in
  let originalSize := length (metav1.OwnerReferences (v1.sec_Meta o)) in
  '(o, err) ← setOwnerReference o;
  match err with
  | Some err => mret (o, false, Some err)
  | None =>
      let newSize := length (metav1.OwnerReferences (v1.sec_Meta o)) in
      let changed := if decide (originalSize ≠ newSize) then true else changed in
      mret (o, changed, None)
  end.

Definition reconcileAdminPortalCredentials : M (option v1.Secret * bool * option error) :=
  cr ← getCR;
  match appsv1alpha1.AdminPortalCredentialsRef (appsv1alpha1.Spec cr) with
  | None => mret (None, false, None)
  | Some _ =>
      '(adminPortalCredentialsSecret, err) ← getAdminPortalCredentialsSecret;
      match err with
      | Some err => mret (None, false, Some err)
      | None =>
          secret ← deref adminPortalCredentialsSecret;
          '(secret, changed, err) ← ensureOwnerReference secret;
          match err with
          | Some err => mret (None, changed, Some err)
          | None =>
              if changed : bool then
                err ← clientUpdate KSecret secret;
                match err with
                | Some err => mret (None, changed, Some err)
                | None => mret (Some secret, changed, None)
                end
              else mret (Some secret, changed, None)
          end
      end
  end.

Definition reconcileGatewayEmbbededConfig : M (option v1.Secret * bool * option error) :=
  cr ← getCR;
  match appsv1alpha1.EmbeddedConfigurationSecretRef (appsv1alpha1.Spec cr) with
  | None => mret (None, false, None)
  | Some _ =>
      '(gatewayEmbeddedConfigSecret, err) ← getGatewayEmbeddedConfigSecret;
      match err with
      | Some err => mret (None, false, Some err)
      | None =>
          secret ← deref gatewayEmbeddedConfigSecret;
          '(secret, changed, err) ← ensureOwnerReference secret;
          match err with
          | Some err => mret (None, changed, Some err)
          | None =>
              if changed : bool then
                err ← clientUpdate KSecret secret;
                match err with
                | Some err => mret (None, changed, Some err)
                | None => mret (Some secret, changed, None)
                end
              else mret (Some secret, changed, None)
          end
      end
  end.

Definition UserProvidedSecretResourceVersionAnnotations
    (userProvidedSecrets : apicastUserProvidedSecrets) : gmap string string :=
  let annotations : gmap string string := ∅ in
  let annotations :=
    match adminPortalCredentialsSecret userProvidedSecrets with
    | Some s =>
        <[AdmPortalSecretResverAnnotation := metav1.ResourceVersion (v1.sec_Meta s)]> annotations
    | None => annotations
    end in
  let annotations :=
    match gatewayEmbeddedConfigSecret userProvidedSecrets with
    | Some s =>
        <[GatewayConfigurationSecretResverAnnotation :=
            metav1.ResourceVersion (v1.sec_Meta s)]> annotations
    | None => annotations
    end in
  annotations.

(** [asOwner] returns an owner reference set as the tenant CR. *)
Definition asOwner (a : appsv1alpha1.APIcast) : metav1.OwnerReference :=
  let trueVar := true in
  {| metav1.APIVersion := SchemeGroupVersion;
     metav1.Kind := APIcastKind;
     metav1.Name := appsv1alpha1.Name a;
     metav1.UID := appsv1alpha1.UID a;
     metav1.Controller := Some trueVar |}.

Definition internalAPIcast (userProvidedSecrets : apicastUserProvidedSecrets)
  : M (apicast.APIcast * option error) :=
  let err : option error := None in
  cr ← getCR;
  let spec := appsv1alpha1.Spec cr in
  let apicastFullName := "apicast-" +:+ appsv1alpha1.Name cr in
  let apicastExposedHost :=
    match appsv1alpha1.ExposedHost spec with
    | Some h => {| apicast.Host := appsv1alpha1.Host h; apicast.TLS := appsv1alpha1.TLS h |}
    | None => {| apicast.Host := ""; apicast.TLS := None |}
    end in
  let apicastOwnerRef := asOwner cr in
  let deploymentEnvironment :=
    match appsv1alpha1.DeploymentEnvironment spec with
    | Some res => Some res
    | None => None
    end in
  let deploymentAnnotations := UserProvidedSecretResourceVersionAnnotations userProvidedSecrets in
  let adminPortalSecretName :=
    match adminPortalCredentialsSecret userProvidedSecrets with
    | Some s => Some (metav1.om_Name (v1.sec_Meta s))
    | None => None
    end in
  let gatewayConfigurationSecretName :=
    match gatewayEmbeddedConfigSecret userProvidedSecrets with
    | Some s => Some (metav1.om_Name (v1.sec_Meta s))
    | None => None
    end in
  let image :=
    match appsv1alpha1.Image spec with
    | Some i => i
    | None => GetDefaultImageVersion
    end in
  let serviceAccount :=
    match appsv1alpha1.ServiceAccount spec with
    | Some sa => sa
    | None => "default"
    end in
  replicas ← deref (appsv1alpha1.Replicas spec);
  let apicastResult :=
    {| apicast.DeploymentName := apicastFullName;
       apicast.ServiceName := apicastFullName;
       apicast.Replicas := int32 replicas;
       apicast.AppLabel := "apicast";
       apicast.AdditionalAnnotations := deploymentAnnotations;
       apicast.ServiceAccountName := serviceAccount;
       apicast.Image := image;
       apicast.exposedHost := apicastExposedHost;
       apicast.Namespace := appsv1alpha1.Namespace cr;
       apicast.OwnerReference := Some apicastOwnerRef;
       apicast.AdminPortalCredentialsSecretName := adminPortalSecretName;
       apicast.DeploymentEnvironment := deploymentEnvironment;
       apicast.DNSResolverAddress := appsv1alpha1.DNSResolverAddress spec;
       apicast.EnabledServices := appsv1alpha1.EnabledServices spec;
       apicast.ConfigurationLoadMode := appsv1alpha1.ConfigurationLoadMode spec;
       apicast.LogLevel := appsv1alpha1.LogLevel spec;
       apicast.PathRoutingEnabled := appsv1alpha1.PathRoutingEnabled spec;
       apicast.ResponseCodesIncluded := appsv1alpha1.ResponseCodesIncluded spec;
       apicast.CacheConfigurationSeconds := appsv1alpha1.CacheConfigurationSeconds spec;
       apicast.ManagementAPIScope := appsv1alpha1.ManagementAPIScope spec;
       apicast.OpenSSLPeerVerificationEnabled :=
         appsv1alpha1.OpenSSLPeerVerificationEnabled spec;
       apicast.GatewayConfigurationSecretName := gatewayConfigurationSecretName |} in
  mret (apicastResult, err).

(** [APIcastFromCRContents] returns an [apicast.APIcast] instance without
    executing [Reconcile]: the user provided secrets are got, not
    reconciled. *)
Definition APIcastFromCRContents : M (option apicast.APIcast * option error) :=
  cr ← getCR;
  '(gatewayEmbeddedConfigSecret, err) ←
    match appsv1alpha1.EmbeddedConfigurationSecretRef (appsv1alpha1.Spec cr) with
    | Some _ => getGatewayEmbeddedConfigSecret
    | None => mret (None, None)
    end;
  match err with
  | Some err => mret (None, Some err)
  | None =>
      '(adminPortalCredentialsSecret, err) ←
        match appsv1alpha1.AdminPortalCredentialsRef (appsv1alpha1.Spec cr) with
        | Some _ => getAdminPortalCredentialsSecret
        | None => mret (None, None)
        end;
      match err with
      | Some err => mret (None, Some err)
      | None =>
          let userProvidedSecrets :=
            {| adminPortalCredentialsSecret := adminPortalCredentialsSecret;
               gatewayEmbeddedConfigSecret := gatewayEmbeddedConfigSecret |} in
          '(apicast, err) ← internalAPIcast userProvidedSecrets;
          match err with
          | Some err => mret (None, Some err)
          | None => mret (Some apicast, None)
          end
      end
  end.

Definition reconcileDeployment (desiredDeployment : appsv1.Deployment) : M (option error) :=
  r ← clientGet KDeployment (namespacedName KDeployment desiredDeployment);
  match r with
  | inl err =>
      if IsNotFound err then clientCreate KDeployment desiredDeployment
      else mret (Some err)
  | inr existingDeployment =>
      let changed := false in
      let '(existingDeployment, changed) :=
        if ptr_ne (appsv1.Replicas (appsv1.dep_Spec existingDeployment))
                  (appsv1.Replicas (appsv1.dep_Spec desiredDeployment))
        then (setReplicas (appsv1.Replicas (appsv1.dep_Spec desiredDeployment))
                existingDeployment, true)
        else (existingDeployment, changed) in
      existing0 ← index0 (v1.Containers (podSpec existingDeployment));
      desired0 ← index0 (v1.Containers (podSpec desiredDeployment));
      let '(existingDeployment, changed) :=
        if decide (v1.Image existing0 ≠ v1.Image desired0)
        then (setContainer0 (setImage (v1.Image desired0) existing0) existingDeployment, true)
        else (existingDeployment, changed) in
      let '(existingDeployment, changed) :=
        if decide (v1.ServiceAccountName (podSpec existingDeployment)
                   ≠ v1.ServiceAccountName (podSpec desiredDeployment))
        then (setServiceAccountName (v1.ServiceAccountName (podSpec desiredDeployment))
                existingDeployment, true)
        else (existingDeployment, changed) in
      existing0 ← index0 (v1.Containers (podSpec existingDeployment));
      desired0 ← index0 (v1.Containers (podSpec desiredDeployment));
      let '(env, updatedTmp) := ReconcileEnvVar (v1.Env existing0) (v1.Env desired0) in
      let existingDeployment := setContainer0 (setEnv env existing0) existingDeployment in
      let changed := changed || updatedTmp in
      let '(existingDeployment, changed) :=
        if decide (v1.Annotations (appsv1.Template (appsv1.dep_Spec existingDeployment))
                   ≠ v1.Annotations (appsv1.Template (appsv1.dep_Spec desiredDeployment)))
        then (setAnnotations
                (v1.Annotations (appsv1.Template (appsv1.dep_Spec desiredDeployment)))
                existingDeployment, true)
        else (existingDeployment, changed) in
      let '(existingDeployment, changed) :=
        if decide (v1.Volumes (podSpec existingDeployment)
                   ≠ v1.Volumes (podSpec desiredDeployment))
        then (setVolumes (v1.Volumes (podSpec desiredDeployment)) existingDeployment, true)
        else (existingDeployment, changed) in
      existing0 ← index0 (v1.Containers (podSpec existingDeployment));
      desired0 ← index0 (v1.Containers (podSpec desiredDeployment));
      let '(existingDeployment, changed) :=
        if decide (v1.VolumeMounts existing0 ≠ v1.VolumeMounts desired0)
        then (setContainer0 (setVolumeMounts (v1.VolumeMounts desired0) existing0)
                existingDeployment, true)
        else (existingDeployment, changed) in
      if changed then clientUpdate KDeployment existingDeployment
      else mret None
  end.

Definition reconcileService (desiredService : v1.Service) : M (option error) :=
  r ← clientGet KService (namespacedName KService desiredService);
  match r with
  | inl err =>
      if IsNotFound err then clientCreate KService desiredService
      else mret (Some err)
  | inr existingService => mret None
  end.

(** The [range] loop of [reconcileIngress] over the existing rules, from
    index [idx] on: the index of the last rule of the exposed host. *)
Fixpoint rangeRules (rules : list extensions.IngressRule) (idx exposedHostIdx : Z) : M Z :=
  match rules with
  | [] => mret exposedHostIdx
  | rule :: rest =>
      cr ← getCR;
      exposedHost ← deref (appsv1alpha1.ExposedHost (appsv1alpha1.Spec cr));
      let exposedHostIdx :=
        if decide (extensions.Host rule = appsv1alpha1.Host exposedHost) then idx
        else exposedHostIdx in
      rangeRules rest (idx + 1) exposedHostIdx
  end.

Definition reconcileIngress (desiredIngress : extensions.Ingress) : M (option error) :=
  r ← clientGet KIngress (namespacedName KIngress desiredIngress);
  match r with
  | inl err =>
      if IsNotFound err then clientCreate KIngress desiredIngress
      else mret (Some err)
  | inr existingIngress =>
      exposedHostIdx ← rangeRules (extensions.Rules (extensions.ing_Spec existingIngress)) 0 (-1);
      let update := false in
      let '(existingIngress, update) :=
        if decide (exposedHostIdx = -1)
        then (setRules (extensions.Rules (extensions.ing_Spec desiredIngress)) existingIngress,
              true)
        else (existingIngress, update) in
      let '(existingIngress, update) :=
        if decide (extensions.TLS (extensions.ing_Spec existingIngress)
                   ≠ extensions.TLS (extensions.ing_Spec desiredIngress))
        then (setTLS (extensions.TLS (extensions.ing_Spec desiredIngress)) existingIngress,
              true)
        else (existingIngress, update) in
      if update then
        err ← clientUpdate KIngress existingIngress;
        match err with
        | Some err => mret (Some err)
        | None => mret None
        end
      else mret None
  end.

Definition Reconcile : M (Result * option error) :=
  '(appliedInitialization, err) ← initialize;
  match err with
  | Some err => mret ({| Requeue := false |}, Some err)
  | None =>
  if appliedInitialization : bool then mret ({| Requeue := true |}, None) else
  '(adminPortalCredentialsSecret, changed, err) ← reconcileAdminPortalCredentials;
  match err with
  | Some err => mret ({| Requeue := false |}, Some err)
  | None =>
  if changed : bool then mret ({| Requeue := true |}, None) else
  '(gatewayEmbeddedConfigSecret, changed, err) ← reconcileGatewayEmbbededConfig;
  match err with
  | Some err => mret ({| Requeue := false |}, Some err)
  | None =>
  if changed : bool then mret ({| Requeue := true |}, None) else
  let userProvidedSecrets :=
    {| adminPortalCredentialsSecret := adminPortalCredentialsSecret;
       gatewayEmbeddedConfigSecret := gatewayEmbeddedConfigSecret |} in
  '(desiredAPIcast, err) ← internalAPIcast userProvidedSecrets;
  match err with
  | Some err => mret ({| Requeue := false |}, Some err)
  | None =>
  (* [desiredAPIcast] is a variable of the pass; the builders are called on it *)
  desiredAPIcastAddr ← alloc;
  err ← reconcileDeployment (Deployment desiredAPIcastAddr desiredAPIcast);
  match err with
  | Some err => mret ({| Requeue := false |}, Some err)
  | None =>
  err ← reconcileService (Service desiredAPIcast);
  match err with
  | Some err => mret ({| Requeue := false |}, Some err)
  | None =>
  cr ← getCR;
  match appsv1alpha1.ExposedHost (appsv1alpha1.Spec cr) with
  | Some _ =>
      err ← reconcileIngress (Ingress desiredAPIcast);
      match err with
      | Some err => mret ({| Requeue := false |}, Some err)
      | None => mret ({| Requeue := false |}, None)
      end
  | None => mret ({| Requeue := false |}, None)
  end
  end end end end end end.

End Reconciler.

Arguments Normal {St A} a w.
Arguments Panicked {St A} p w.
#[global] Existing Instance M_ret.
#[global] Existing Instance M_bind.

(** ** An in-memory cluster

    A store, library stand-ins and object builders to run the reconciler on
    concrete clusters. *)

(** The objects of each kind under (namespace, name). *)
Record MemStore := {
  deployments : gmap (string * string) appsv1.Deployment;
  services : gmap (string * string) v1.Service;
  ingresses : gmap (string * string) extensions.Ingress;
  secrets : gmap (string * string) v1.Secret;
  apicasts : gmap (string * string) appsv1alpha1.APIcast
}.

Definition emptyStore : MemStore :=
  {| deployments := ∅; services := ∅; ingresses := ∅; secrets := ∅; apicasts := ∅ |}.

Definition memKey (n : types.NamespacedName) : string * string :=
  (types.Namespace n, types.Name n).

Definition objKey (k : Kind) (o : obj k) : string * string :=
  (metav1.om_Namespace (objMeta k o), metav1.om_Name (objMeta k o)).

Definition memLookup (st : MemStore) (k : Kind) : string * string → option (obj k) :=
  match k as k0 return string * string → option (obj k0) with
  | KDeployment => λ key, deployments st !! key
  | KService => λ key, services st !! key
  | KIngress => λ key, ingresses st !! key
  | KSecret => λ key, secrets st !! key
  | KAPIcast => λ key, apicasts st !! key
  end.

Definition memInsert (st : MemStore) (k : Kind) : string * string → obj k → MemStore :=
  match k as k0 return string * string → obj k0 → MemStore with
  | KDeployment => λ key o,
      {| deployments := <[key := o]> (deployments st); services := services st;
         ingresses := ingresses st; secrets := secrets st; apicasts := apicasts st |}
  | KService => λ key o,
      {| deployments := deployments st; services := <[key := o]> (services st);
         ingresses := ingresses st; secrets := secrets st; apicasts := apicasts st |}
  | KIngress => λ key o,
      {| deployments := deployments st; services := services st;
         ingresses := <[key := o]> (ingresses st); secrets := secrets st;
         apicasts := apicasts st |}
  | KSecret => λ key o,
      {| deployments := deployments st; services := services st;
         ingresses := ingresses st; secrets := <[key := o]> (secrets st);
         apicasts := apicasts st |}
  | KAPIcast => λ key o,
      {| deployments := deployments st; services := services st;
         ingresses := ingresses st; secrets := secrets st;
         apicasts := <[key := o]> (apicasts st) |}
  end.

Definition memGet (st : MemStore) (k : Kind) (key : types.NamespacedName) : error + obj k :=
  match memLookup st k (memKey key) with
  | Some o => inr o
  | None => inl (StatusError NotFound (types.Name key))
  end.

Definition memCreate (st : MemStore) (k : Kind) (o : obj k) : MemStore * option error :=
  match memLookup st k (objKey k o) with
  | Some _ => (st, Some (StatusError AlreadyExists (metav1.om_Name (objMeta k o))))
  | None => (memInsert st k (objKey k o) o, None)
  end.

Definition memUpdate (st : MemStore) (k : Kind) (o : obj k) : MemStore * option error :=
  match memLookup st k (objKey k o) with
  | Some _ => (memInsert st k (objKey k o) o, None)
  | None => (st, Some (StatusError NotFound (metav1.om_Name (objMeta k o))))
  end.

Definition memClient : Client MemStore :=
  {| client_Get := memGet; client_Create := memCreate; client_Update := memUpdate |}.

(** A client whose every write is refused with a conflict. *)
Definition conflictClient : Client MemStore :=
  {| client_Get := memGet;
     client_Create := λ st k o, (st, Some (StatusError Conflict (metav1.om_Name (objMeta k o))));
     client_Update := λ st k o, (st, Some (StatusError Conflict (metav1.om_Name (objMeta k o)))) |}.

(** A stand-in for [controllerutil.SetControllerReference]: the owner's
    controller reference replaces the reference to the same owner or is
    appended; an object controlled by another owner is refused. *)
Definition controllerRef (owner : appsv1alpha1.APIcast) : metav1.OwnerReference :=
  {| metav1.APIVersion := "apps.3scale.net/v1alpha1";
     metav1.Kind := "APIcast";
     metav1.Name := appsv1alpha1.Name owner;
     metav1.UID := appsv1alpha1.UID owner;
     metav1.Controller := Some true |}.

Definition referSameObject (a b : metav1.OwnerReference) : bool :=
  bool_decide (metav1.APIVersion a = metav1.APIVersion b)
  && bool_decide (metav1.Kind a = metav1.Kind b)
  && bool_decide (metav1.Name a = metav1.Name b).

Definition memSetControllerReference (owner : appsv1alpha1.APIcast) (m : metav1.ObjectMeta)
  : metav1.ObjectMeta * option error :=
  let ref := controllerRef owner in
  let existingRefs := metav1.OwnerReferences m in
  if existsb (λ r, negb (referSameObject ref r)
                   && bool_decide (metav1.Controller r = Some true)) existingRefs
  then (m, Some (Errorf "Object is already owned by another controller"))
  else if existsb (referSameObject ref) existingRefs
  then (metav1.SetOwnerReferences
          (map (λ r, if referSameObject ref r then ref else r) existingRefs) m, None)
  else (metav1.SetOwnerReferences (existingRefs ++ [ref]) m, None).

(** A stand-in for [url.Parse]: the user information is what stands between
    the scheme separator and the at sign. *)
Definition memURLParse (s : string) : error + URL :=
  match String.index 0 "://" s with
  | None => inl (Errorf "parse: missing protocol scheme")
  | Some i =>
      let rest := String.substring (i + 3) (String.length s - (i + 3)) s in
      match String.index 0 "@" rest with
      | None => inr {| User := None |}
      | Some j =>
          let userinfo := String.substring 0 j rest in
          match String.index 0 ":" userinfo with
          | None => inr {| User := Some {| username := userinfo; password := None |} |}
          | Some c =>
              inr {| User := Some
                {| username := String.substring 0 c userinfo;
                   password := Some (String.substring (c + 1)
                                       (String.length userinfo - (c + 1)) userinfo) |} |}
          end
      end
  end%nat.

Definition memLibraries : Libraries :=
  {| SetControllerReference := memSetControllerReference; url_Parse := memURLParse |}.

(** ** The object builders of [pkg/apicast] *)

(** Modelled from the spec: how the builders of [pkg/apicast] write a flag
    into the gateway's environment. *)
Definition boolString (b : bool) : string := if b then "true" else "false".

(** Modelled from the spec: an environment variable with a literal value. *)
Definition envVarFromValue (name value : string) : v1.EnvVar :=
  {| v1.ev_Name := name; v1.ev_Value := value; v1.ev_ValueFrom := None |}.

(** Modelled from the spec: an environment variable read from a key of a
    secret. *)
Definition envVarFromSecret (name secret key : string) : v1.EnvVar :=
  {| v1.ev_Name := name; v1.ev_Value := "";
     v1.ev_ValueFrom := Some {| v1.sks_Name := secret; v1.sks_Key := key |} |}.

(** Modelled from the spec: an optional field gives one variable, or none
    ("omitted entirely when unset"). *)
Definition optEnv {A} (o : option A) (f : A → v1.EnvVar) : list v1.EnvVar :=
  match o with
  | Some a => [f a]
  | None => []
  end.

(** Modelled from the spec: the enabled service IDs as one value. *)
Fixpoint joinComma (l : list string) : string :=
  match l with
  | [] => ""
  | [s] => s
  | s :: rest => s +:+ "," +:+ joinComma rest
  end.

(** Modelled from the spec: the name of the volume that holds the embedded
    configuration. *)
Definition gatewayConfigVolume : string := "gateway-configuration-volume".

(** Modelled from the spec: the environment [apicast.APIcast.Deployment]
    gives the gateway container; [pkg/apicast] is not among the sources.
    "Optional tuning fields map one-to-one onto environment variables or
    container arguments consumed by the managed workload, omitted entirely
    when unset."  The names are the gateway's own settings. *)
Definition deploymentEnv (portalKey : string) (a : apicast.APIcast) : list v1.EnvVar :=
  optEnv (apicast.AdminPortalCredentialsSecretName a)
    (λ s, envVarFromSecret "THREESCALE_PORTAL_ENDPOINT" s portalKey)
  ++ optEnv (apicast.GatewayConfigurationSecretName a)
    (λ _, envVarFromValue "THREESCALE_CONFIG_FILE" "/tmp/gateway-configuration-volume/config.json")
  ++ optEnv (apicast.DeploymentEnvironment a) (envVarFromValue "THREESCALE_DEPLOYMENT_ENV")
  ++ optEnv (apicast.DNSResolverAddress a) (envVarFromValue "RESOLVER")
  ++ optEnv (apicast.EnabledServices a)
    (λ l, envVarFromValue "APICAST_SERVICES_LIST" (joinComma l))
  ++ optEnv (apicast.ConfigurationLoadMode a)
    (λ n, envVarFromValue "APICAST_CONFIGURATION_LOADER" (pretty n))
  ++ optEnv (apicast.LogLevel a) (envVarFromValue "APICAST_LOG_LEVEL")
  ++ optEnv (apicast.PathRoutingEnabled a)
    (λ b, envVarFromValue "APICAST_PATH_ROUTING" (boolString b))
  ++ optEnv (apicast.ResponseCodesIncluded a)
    (λ b, envVarFromValue "APICAST_RESPONSE_CODES" (boolString b))
  ++ optEnv (apicast.CacheConfigurationSeconds a)
    (λ n, envVarFromValue "APICAST_CONFIGURATION_CACHE" (pretty n))
  ++ optEnv (apicast.ManagementAPIScope a) (envVarFromValue "APICAST_MANAGEMENT_API")
  ++ optEnv (apicast.OpenSSLPeerVerificationEnabled a)
    (λ b, envVarFromValue "OPENSSL_VERIFY" (boolString b)).

(** Modelled from the spec: the metadata of a built object, "owner reference
    is always set to the parent GatewayResource as a controlling reference". *)
Definition builtMeta (name : string) (a : apicast.APIcast) : metav1.ObjectMeta :=
  {| metav1.om_Name := name;
     metav1.om_Namespace := apicast.Namespace a;
     metav1.om_UID := "";
     metav1.ResourceVersion := "";
     metav1.OwnerReferences :=
       match apicast.OwnerReference a with
       | Some r => [r]
       | None => []
       end |}.

(** Modelled from the spec: [apicast.APIcast.Deployment].  The deployment is
    named after the gateway, owned by the custom resource, asks for the
    gateway's replica count through a pointer at [replicasAddr], and its pod
    template carries the secrets' resource versions as annotations; the
    embedded configuration is mounted from its secret. *)
Definition memDeployment (portalKey : string) (replicasAddr : positive) (a : apicast.APIcast)
  : appsv1.Deployment :=
  {| appsv1.dep_Meta := builtMeta (apicast.DeploymentName a) a;
     appsv1.dep_Spec :=
       {| appsv1.Replicas := Some {| addr := replicasAddr; pointee := apicast.Replicas a |};
          appsv1.Template :=
            {| v1.Annotations := Some (apicast.AdditionalAnnotations a);
               v1.tmpl_Labels := {[ "deployment" := apicast.DeploymentName a ]};
               v1.tmpl_Spec :=
                 {| v1.ServiceAccountName := apicast.ServiceAccountName a;
                    v1.Containers :=
                      [ {| v1.c_Name := apicast.DeploymentName a;
                           v1.Image := apicast.Image a;
                           v1.Env := deploymentEnv portalKey a;
                           v1.VolumeMounts :=
                             match apicast.GatewayConfigurationSecretName a with
                             | Some _ =>
                                 Some [ {| v1.vm_Name := gatewayConfigVolume;
                                           v1.vm_MountPath := "/tmp/gateway-configuration-volume";
                                           v1.vm_ReadOnly := true |} ]
                             | None => None
                             end |} ];
                    v1.Volumes :=
                      match apicast.GatewayConfigurationSecretName a with
                      | Some s =>
                          Some [ {| v1.vol_Name := gatewayConfigVolume;
                                    v1.vol_SecretName := s |} ]
                      | None => None
                      end |} |} |} |}.

(** Modelled from the spec: [apicast.APIcast.Service], the network service in
    front of the gateway pods, named after the gateway. *)
Definition memService (a : apicast.APIcast) : v1.Service :=
  {| v1.svc_Meta := builtMeta (apicast.ServiceName a) a;
     v1.svc_Ports := [ {| v1.sp_Name := "proxy"; v1.sp_Port := 8080 |};
                       {| v1.sp_Name := "management"; v1.sp_Port := 8090 |} ];
     v1.svc_Selector := {[ "deployment" := apicast.DeploymentName a ]} |}.

(** Modelled from the spec: [apicast.APIcast.Ingress], one rule for the
    exposed host, routed to the service, with the host's TLS entries. *)
Definition memIngress (a : apicast.APIcast) : extensions.Ingress :=
  {| extensions.ing_Meta := builtMeta (apicast.DeploymentName a) a;
     extensions.ing_Spec :=
       {| extensions.TLS := apicast.TLS (apicast.exposedHost a);
          extensions.Rules :=
            [ {| extensions.Host := apicast.Host (apicast.exposedHost a);
                 extensions.rule_Backend :=
                   {| extensions.ServiceName := apicast.ServiceName a;
                      extensions.ServicePort := "proxy" |} |} ] |} |}.

(** Modelled from the spec: the constants of [pkg/apicast] and
    [pkg/apis/apps]; the default image is the one the operator's own
    deployment manifest names. *)
Definition memApicastPkg : ApicastPkg :=
  {| AdminPortalURLAttributeName := "AdminPortalURL";
     EmbeddedConfigurationSecretKey := "config.json";
     GetDefaultImageVersion := "quay.io/3scale/apicast:nightly";
     SchemeGroupVersion := "apps.3scale.net/v1alpha1";
     APIcastKind := "APIcast";
     Deployment := memDeployment "AdminPortalURL";
     Service := memService;
     Ingress := memIngress |}.

(** ** Sample clusters *)

Definition sampleSpec : appsv1alpha1.APIcastSpec :=
  {| appsv1alpha1.Replicas := Some 1;
     appsv1alpha1.AdminPortalCredentialsRef := None;
     appsv1alpha1.EmbeddedConfigurationSecretRef := None;
     appsv1alpha1.ServiceAccount := None;
     appsv1alpha1.Image := None;
     appsv1alpha1.ExposedHost := None;
     appsv1alpha1.DeploymentEnvironment := None;
     appsv1alpha1.DNSResolverAddress := None;
     appsv1alpha1.EnabledServices := None;
     appsv1alpha1.ConfigurationLoadMode := None;
     appsv1alpha1.LogLevel := Some "info";
     appsv1alpha1.PathRoutingEnabled := None;
     appsv1alpha1.ResponseCodesIncluded := None;
     appsv1alpha1.CacheConfigurationSeconds := None;
     appsv1alpha1.ManagementAPIScope := None;
     appsv1alpha1.OpenSSLPeerVerificationEnabled := None |}.

Definition sampleMeta (name : string) : metav1.ObjectMeta :=
  {| metav1.om_Name := name; metav1.om_Namespace := "prod"; metav1.om_UID := "uid-" +:+ name;
     metav1.ResourceVersion := "1"; metav1.OwnerReferences := [] |}.

Definition sampleCR : appsv1alpha1.APIcast :=
  {| appsv1alpha1.cr_Meta := sampleMeta "gw"; appsv1alpha1.Spec := sampleSpec |}.

Definition withAdminRef (n : string) (a : appsv1alpha1.APIcast) : appsv1alpha1.APIcast :=
  let s := appsv1alpha1.Spec a in
  {| appsv1alpha1.cr_Meta := appsv1alpha1.cr_Meta a;
     appsv1alpha1.Spec :=
       {| appsv1alpha1.Replicas := appsv1alpha1.Replicas s;
          appsv1alpha1.AdminPortalCredentialsRef := Some {| v1.lor_Name := n |};
          appsv1alpha1.EmbeddedConfigurationSecretRef :=
            appsv1alpha1.EmbeddedConfigurationSecretRef s;
          appsv1alpha1.ServiceAccount := appsv1alpha1.ServiceAccount s;
          appsv1alpha1.Image := appsv1alpha1.Image s;
          appsv1alpha1.ExposedHost := appsv1alpha1.ExposedHost s;
          appsv1alpha1.DeploymentEnvironment := appsv1alpha1.DeploymentEnvironment s;
          appsv1alpha1.DNSResolverAddress := appsv1alpha1.DNSResolverAddress s;
          appsv1alpha1.EnabledServices := appsv1alpha1.EnabledServices s;
          appsv1alpha1.ConfigurationLoadMode := appsv1alpha1.ConfigurationLoadMode s;
          appsv1alpha1.LogLevel := appsv1alpha1.LogLevel s;
          appsv1alpha1.PathRoutingEnabled := appsv1alpha1.PathRoutingEnabled s;
          appsv1alpha1.ResponseCodesIncluded := appsv1alpha1.ResponseCodesIncluded s;
          appsv1alpha1.CacheConfigurationSeconds := appsv1alpha1.CacheConfigurationSeconds s;
          appsv1alpha1.ManagementAPIScope := appsv1alpha1.ManagementAPIScope s;
          appsv1alpha1.OpenSSLPeerVerificationEnabled :=
            appsv1alpha1.OpenSSLPeerVerificationEnabled s |} |}.

Definition withConfigRef (n : string) (a : appsv1alpha1.APIcast) : appsv1alpha1.APIcast :=
  let s := appsv1alpha1.Spec a in
  {| appsv1alpha1.cr_Meta := appsv1alpha1.cr_Meta a;
     appsv1alpha1.Spec :=
       {| appsv1alpha1.Replicas := appsv1alpha1.Replicas s;
          appsv1alpha1.AdminPortalCredentialsRef := appsv1alpha1.AdminPortalCredentialsRef s;
          appsv1alpha1.EmbeddedConfigurationSecretRef := Some {| v1.lor_Name := n |};
          appsv1alpha1.ServiceAccount := appsv1alpha1.ServiceAccount s;
          appsv1alpha1.Image := appsv1alpha1.Image s;
          appsv1alpha1.ExposedHost := appsv1alpha1.ExposedHost s;
          appsv1alpha1.DeploymentEnvironment := appsv1alpha1.DeploymentEnvironment s;
          appsv1alpha1.DNSResolverAddress := appsv1alpha1.DNSResolverAddress s;
          appsv1alpha1.EnabledServices := appsv1alpha1.EnabledServices s;
          appsv1alpha1.ConfigurationLoadMode := appsv1alpha1.ConfigurationLoadMode s;
          appsv1alpha1.LogLevel := appsv1alpha1.LogLevel s;
          appsv1alpha1.PathRoutingEnabled := appsv1alpha1.PathRoutingEnabled s;
          appsv1alpha1.ResponseCodesIncluded := appsv1alpha1.ResponseCodesIncluded s;
          appsv1alpha1.CacheConfigurationSeconds := appsv1alpha1.CacheConfigurationSeconds s;
          appsv1alpha1.ManagementAPIScope := appsv1alpha1.ManagementAPIScope s;
          appsv1alpha1.OpenSSLPeerVerificationEnabled :=
            appsv1alpha1.OpenSSLPeerVerificationEnabled s |} |}.

Definition withExposedHost (h : string) (a : appsv1alpha1.APIcast) : appsv1alpha1.APIcast :=
  let s := appsv1alpha1.Spec a in
  {| appsv1alpha1.cr_Meta := appsv1alpha1.cr_Meta a;
     appsv1alpha1.Spec :=
       {| appsv1alpha1.Replicas := appsv1alpha1.Replicas s;
          appsv1alpha1.AdminPortalCredentialsRef := appsv1alpha1.AdminPortalCredentialsRef s;
          appsv1alpha1.EmbeddedConfigurationSecretRef :=
            appsv1alpha1.EmbeddedConfigurationSecretRef s;
          appsv1alpha1.ServiceAccount := appsv1alpha1.ServiceAccount s;
          appsv1alpha1.Image := appsv1alpha1.Image s;
          appsv1alpha1.ExposedHost :=
            Some {| appsv1alpha1.Host := h; appsv1alpha1.TLS := None |};
          appsv1alpha1.DeploymentEnvironment := appsv1alpha1.DeploymentEnvironment s;
          appsv1alpha1.DNSResolverAddress := appsv1alpha1.DNSResolverAddress s;
          appsv1alpha1.EnabledServices := appsv1alpha1.EnabledServices s;
          appsv1alpha1.ConfigurationLoadMode := appsv1alpha1.ConfigurationLoadMode s;
          appsv1alpha1.LogLevel := appsv1alpha1.LogLevel s;
          appsv1alpha1.PathRoutingEnabled := appsv1alpha1.PathRoutingEnabled s;
          appsv1alpha1.ResponseCodesIncluded := appsv1alpha1.ResponseCodesIncluded s;
          appsv1alpha1.CacheConfigurationSeconds := appsv1alpha1.CacheConfigurationSeconds s;
          appsv1alpha1.ManagementAPIScope := appsv1alpha1.ManagementAPIScope s;
          appsv1alpha1.OpenSSLPeerVerificationEnabled :=
            appsv1alpha1.OpenSSLPeerVerificationEnabled s |} |}.

Definition sampleSecret (name : string) (data : gmap string string) : v1.Secret :=
  {| v1.sec_Meta := sampleMeta name; v1.Data := data |}.

Definition portalSecret : v1.Secret :=
  sampleSecret "portal" {[ "AdminPortalURL" := "https://token@admin.example.com" ]}.

Definition configSecret : v1.Secret :=
  sampleSecret "config" {[ "config.json" := "{}" ]}.

Definition storeWith (l : list v1.Secret) (a : appsv1alpha1.APIcast) : MemStore :=
  foldr (λ s st, memInsert st KSecret (objKey KSecret s) s)
        (memInsert emptyStore KAPIcast (objKey KAPIcast a) a) l.

(** A world at the start of a pass on [a], with the secrets [l] in the store. *)
Definition startWorld (l : list v1.Secret) (a : appsv1alpha1.APIcast) : @World MemStore :=
  {| store := storeWith l a; calls := []; heapNext := 1%positive; APIcastCR := a |}.

(** The journal a computation adds to the one it starts from. *)
Definition newCalls {St A} (run : @M St A) (w : World) : list Call :=
  drop (length (calls w)) (calls (worldOf (run w))).

(** The world the scheduler hands the next pass: what the pass left, with the
    custom resource read again from the store when it is there. *)
Definition nextPass (w : @World MemStore) : @World MemStore :=
  {| store := store w; calls := calls w; heapNext := heapNext w;
     APIcastCR := default (APIcastCR w)
                    (apicasts (store w) !! objKey KAPIcast (APIcastCR w)) |}.

(** ** What the drivers compare and write *)

(** The first variable called [name]. *)
Definition lookupEnv (name : string) (vars : list v1.EnvVar) : option v1.EnvVar :=
  idx ← findEnvVar name vars; vars !! idx.

(** Some desired variable is missing from the existing list or differs from
    the existing variable of its name. *)
Definition envNeedsUpsert (existing desired : list v1.EnvVar) : Prop :=
  Exists (λ v, lookupEnv (v1.ev_Name v) existing ≠ Some v) desired.

(** The differences the deployment driver looks for, between the deployment
    it got (first container [e0]) and the desired one (first container [d0]). *)
Definition deploymentDiffers (existing desired : appsv1.Deployment) (e0 d0 : v1.Container)
  : Prop :=
  ptr_ne (appsv1.Replicas (appsv1.dep_Spec existing))
         (appsv1.Replicas (appsv1.dep_Spec desired)) = true
  ∨ v1.Image e0 ≠ v1.Image d0
  ∨ v1.ServiceAccountName (podSpec existing) ≠ v1.ServiceAccountName (podSpec desired)
  ∨ envNeedsUpsert (v1.Env e0) (v1.Env d0)
  ∨ v1.Annotations (appsv1.Template (appsv1.dep_Spec existing))
    ≠ v1.Annotations (appsv1.Template (appsv1.dep_Spec desired))
  ∨ v1.Volumes (podSpec existing) ≠ v1.Volumes (podSpec desired)
  ∨ v1.VolumeMounts e0 ≠ v1.VolumeMounts d0.

(** The deployment the driver sends when it updates: the one it got, with the
    allow-listed fields taken from the desired one and the environment merged. *)
Definition mergedDeployment (existing desired : appsv1.Deployment) (e0 d0 : v1.Container)
    (erest : list v1.Container) : appsv1.Deployment :=
  {| appsv1.dep_Meta := appsv1.dep_Meta existing;
     appsv1.dep_Spec :=
       {| appsv1.Replicas :=
            if ptr_ne (appsv1.Replicas (appsv1.dep_Spec existing))
                      (appsv1.Replicas (appsv1.dep_Spec desired))
            then appsv1.Replicas (appsv1.dep_Spec desired)
            else appsv1.Replicas (appsv1.dep_Spec existing);
          appsv1.Template :=
            {| v1.Annotations := v1.Annotations (appsv1.Template (appsv1.dep_Spec desired));
               v1.tmpl_Labels := v1.tmpl_Labels (appsv1.Template (appsv1.dep_Spec existing));
               v1.tmpl_Spec :=
                 {| v1.ServiceAccountName := v1.ServiceAccountName (podSpec desired);
                    v1.Containers :=
                      {| v1.c_Name := v1.c_Name e0;
                         v1.Image := v1.Image d0;
                         v1.Env := (ReconcileEnvVar (v1.Env e0) (v1.Env d0)).1;
                         v1.VolumeMounts := v1.VolumeMounts d0 |} :: erest;
                    v1.Volumes := v1.Volumes (podSpec desired) |} |} |} |}.

(** Some existing rule is for [host]. *)
Definition hasRuleFor (host : string) (i : extensions.Ingress) : Prop :=
  Exists (λ r, extensions.Host r = host) (extensions.Rules (extensions.ing_Spec i)).

#[global] Instance envNeedsUpsert_dec existing desired : Decision (envNeedsUpsert existing desired).
Proof. unfold envNeedsUpsert. apply _. Defined.
#[global] Instance deploymentDiffers_dec existing desired e0 d0 :
  Decision (deploymentDiffers existing desired e0 d0).
Proof. unfold deploymentDiffers. apply _. Defined.
#[global] Instance hasRuleFor_dec host i : Decision (hasRuleFor host i).
Proof. unfold hasRuleFor. apply _. Defined.

(** ** Sample worlds *)

(** A resource whose replica count is not set. *)
Definition unsetCR : appsv1alpha1.APIcast := setSpecReplicas None sampleCR.

Definition envA1 : v1.EnvVar := envVarFromValue "A" "1".
Definition envB2 : v1.EnvVar := envVarFromValue "B" "2".

(** A deployment with one container and no replica pointer. *)
Definition plainDeployment (env : list v1.EnvVar) : appsv1.Deployment :=
  {| appsv1.dep_Meta := sampleMeta "apicast-gw";
     appsv1.dep_Spec :=
       {| appsv1.Replicas := None;
          appsv1.Template :=
            {| v1.Annotations := None;
               v1.tmpl_Labels := ∅;
               v1.tmpl_Spec :=
                 {| v1.ServiceAccountName := "default";
                    v1.Containers :=
                      [ {| v1.c_Name := "apicast-gw";
                           v1.Image := "quay.io/3scale/apicast:nightly";
                           v1.Env := env;
                           v1.VolumeMounts := None |} ];
                    v1.Volumes := None |} |} |} |}.

(** The start of a pass on [sampleCR] with [d] as the deployment in the store. *)
Definition deploymentWorld (d : appsv1.Deployment) : @World MemStore :=
  {| store := memInsert (storeWith [] sampleCR) KDeployment (objKey KDeployment d) d;
     calls := []; heapNext := 1%positive; APIcastCR := sampleCR |}.

Definition sampleService : v1.Service :=
  {| v1.svc_Meta := sampleMeta "apicast-gw";
     v1.svc_Ports := [ {| v1.sp_Name := "proxy"; v1.sp_Port := 8080 |} ];
     v1.svc_Selector := ∅ |}.

Definition otherService : v1.Service :=
  {| v1.svc_Meta := sampleMeta "apicast-gw";
     v1.svc_Ports := [ {| v1.sp_Name := "proxy"; v1.sp_Port := 9090 |} ];
     v1.svc_Selector := ∅ |}.

Definition serviceWorld : @World MemStore :=
  {| store := memInsert (storeWith [] sampleCR) KService (objKey KService otherService)
                otherService;
     calls := []; heapNext := 1%positive; APIcastCR := sampleCR |}.

Definition ruleFor (host : string) : extensions.IngressRule :=
  {| extensions.Host := host;
     extensions.rule_Backend :=
       {| extensions.ServiceName := "apicast-gw"; extensions.ServicePort := "proxy" |} |}.

Definition ingressWith (rules : list extensions.IngressRule) : extensions.Ingress :=
  {| extensions.ing_Meta := sampleMeta "apicast-gw";
     extensions.ing_Spec := {| extensions.TLS := None; extensions.Rules := rules |} |}.

(** The start of a pass on a resource exposed at [host], with [i] as the
    ingress in the store. *)
Definition ingressWorld (host : string) (i : extensions.Ingress) : @World MemStore :=
  {| store := memInsert (storeWith [] (withExposedHost host sampleCR)) KIngress
                (objKey KIngress i) i;
     calls := []; heapNext := 1%positive;
     APIcastCR := withExposedHost host sampleCR |}.

(** A first pass on an empty cluster for a gateway exposed at a host, and the
    world the second pass starts from. *)
Definition freshWorld : @World MemStore :=
  startWorld [] (withExposedHost "gw.example.com" sampleCR).

(** Passes whose user secret is in the store without an owner. *)
Definition portalWorld : @World MemStore :=
  startWorld [portalSecret] (withAdminRef "portal" sampleCR).
Definition configWorld : @World MemStore :=
  startWorld [configSecret] (withConfigRef "config" sampleCR).

(** A pass on a resource whose admin-portal reference has no name. *)
Definition namelessWorld : @World MemStore := startWorld [] (withAdminRef "" sampleCR).

(** The same, with the replica count not set either. *)
Definition namelessUnsetWorld : @World MemStore := startWorld [] (withAdminRef "" unsetCR).

(** The second and third pass after a first pass on an empty cluster. *)
Definition memReconcile : @M MemStore (Result * option error) :=
  @Reconcile MemStore memClient memLibraries memApicastPkg.
Definition secondPass : @World MemStore := nextPass (worldOf (memReconcile freshWorld)).
Definition thirdPass : @World MemStore := nextPass (worldOf (memReconcile secondPass)).

(** A deployment without the address of its replica pointer. *)
Definition valuesOf (d : appsv1.Deployment)
  : metav1.ObjectMeta * option Z * v1.PodTemplateSpec :=
  (appsv1.dep_Meta d, pointee <$> appsv1.Replicas (appsv1.dep_Spec d),
   appsv1.Template (appsv1.dep_Spec d)).

Definition gwKey : string * string := ("prod", "apicast-gw").

Definition getGw (k : Kind) : Call :=
  CallGet k {| types.Name := "apicast-gw"; types.Namespace := "prod" |}.

Definition noSecrets : apicastUserProvidedSecrets :=
  {| adminPortalCredentialsSecret := None; gatewayEmbeddedConfigSecret := None |}.

Definition oldHostWorld : @World MemStore :=
  ingressWorld "new.example.com" (ingressWith [ruleFor "old.example.com"]).

(** ** The calls of a pass, by kind and by stage *)

#[global] Instance Kind_eq_dec : EqDecision Kind.
Proof. solve_decision. Defined.

(** The kind of object a call is about. *)
Definition kindOf (c : Call) : Kind :=
  match c with
  | CallGet k _ | CallCreate k _ | CallUpdate k _ => k
  end.

(** The place of a kind in the order of the stages of [Reconcile]. *)
Definition stageRank (k : Kind) : nat :=
  match k with
  | KAPIcast => 0
  | KSecret => 1
  | KDeployment => 2
  | KService => 3
  | KIngress => 4
  end%nat.

(** The calls the reconciler has code for: it gets secrets, deployments,
    services and ingresses; it creates deployments, services and ingresses; it
    updates the resource, secrets, deployments and ingresses. *)
Definition allowedCall (c : Call) : bool :=
  match c with
  | CallGet k _ => bool_decide (k ≠ KAPIcast)
  | CallCreate k _ => bool_decide (k ∈ [KDeployment; KService; KIngress])
  | CallUpdate k _ => bool_decide (k ≠ KService)
  end.

(** The writes among calls, and the kinds of the objects read. *)
Definition writesOf (l : list Call) : list Call := filter (λ c, isWrite c = true) l.
Definition kindsRead (l : list Call) : list Kind :=
  kindOf <$> filter (λ c, isWrite c = false) l.

(** An update of the resource or of a secret. *)
Definition ownerWrite (c : Call) : bool :=
  match c with
  | CallUpdate KAPIcast _ | CallUpdate KSecret _ => true
  | _ => false
  end.

(** The resource version of a resolved secret, if there is one. *)
Definition resourceVersionOf (s : option v1.Secret) : option string :=
  (λ s, metav1.ResourceVersion (v1.sec_Meta s)) <$> s.

(** What a getter that is given a reference leaves behind: it answers, changes
    neither store, resource nor allocator, makes at most the get of the
    referenced secret, and answers a secret or an error, never both or none. *)
Definition readsReference {St : Type} (get : @M St (option v1.Secret * option error))
    (ref : v1.LocalObjectReference) (w : @World St) : Prop :=
  ∃ r w', get w = Normal r w'
          ∧ store w' = store w ∧ APIcastCR w' = APIcastCR w ∧ heapNext w' = heapNext w
          ∧ (calls w' = calls w
             ∨ calls w' = calls w ++
                 [CallGet KSecret {| types.Name := v1.lor_Name ref;
                                     types.Namespace := appsv1alpha1.Namespace (APIcastCR w) |}])
          ∧ (r.1 = None ↔ r.2 ≠ None)
          ∧ (r.2 = None →
             calls w' = calls w ++
               [CallGet KSecret {| types.Name := v1.lor_Name ref;
                                   types.Namespace := appsv1alpha1.Namespace (APIcastCR w) |}]).

(** How [Reconcile] goes on after a secret stage that reported [changed] and
    [err]: it returns the error, or asks for a re-queue, or continues ([None]). *)
Definition stageStop (changed : bool) (err : option error) : option (Result * option error) :=
  match err with
  | Some e => Some ({| Requeue := false |}, Some e)
  | None => if changed then Some ({| Requeue := true |}, None) else None
  end.

(** The calls of a secret stage, with how the pass goes on after it: at most
    the get of the secret when the pass continues or fails there; the get and
    the update of the secret when the owner reference was sent. *)
Definition secretStageJournal (l : list Call) (stop : option (Result * option error)) : Prop :=
  ((l = [] ∨ ∃ key, l = [CallGet KSecret key])
   ∧ (stop = None ∨ ∃ e, stop = Some ({| Requeue := false |}, Some e)))
  ∨ (∃ key s, l = [CallGet KSecret key; CallUpdate KSecret s]
     ∧ (stop = Some ({| Requeue := true |}, None)
        ∨ ∃ e, stop = Some ({| Requeue := false |}, Some e))).

(** The calls of the driver of kind [k]: the get, then at most one write, a
    creation or (never for a service) an update. *)
Definition driverJournal (k : Kind) (l : list Call) : Prop :=
  ∃ key, l = [CallGet k key]
         ∨ (∃ o, l = [CallGet k key; CallCreate k o])
         ∨ (k ≠ KService ∧ ∃ o, l = [CallGet k key; CallUpdate k o]).

(** A driver that did not answer "no error": it failed or it panicked. *)
Definition driverFailed (answer : option (Result * option error)) : Prop :=
  answer = None ∨ ∃ e, answer = Some ({| Requeue := false |}, Some e).

(** The journals a pass can leave, by the stage it ends in, with its answer
    ([None] for a panic); [exposed] tells whether the resource has an exposed
    host. *)
Inductive passJournal (exposed : bool) : option (Result * option error) → list Call → Prop :=
| EndsInInitialization cr answer :
    answer = ({| Requeue := true |}, None) ∨ (∃ e, answer = ({| Requeue := false |}, Some e)) →
    passJournal exposed (Some answer) [CallUpdate KAPIcast cr]
| EndsInAdminSecret la answer :
    secretStageJournal la (Some answer) →
    passJournal exposed (Some answer) la
| EndsInConfigSecret la lc answer :
    secretStageJournal la None → secretStageJournal lc (Some answer) →
    passJournal exposed (Some answer) (la ++ lc)
| EndsInDeployment la lc ld answer :
    secretStageJournal la None → secretStageJournal lc None →
    driverJournal KDeployment ld → driverFailed answer →
    passJournal exposed answer (la ++ lc ++ ld)
| EndsInService la lc ld ls e :
    secretStageJournal la None → secretStageJournal lc None →
    driverJournal KDeployment ld → driverJournal KService ls →
    passJournal exposed (Some ({| Requeue := false |}, Some e)) (la ++ lc ++ ld ++ ls)
| EndsWithoutIngress la lc ld ls :
    exposed = false →
    secretStageJournal la None → secretStageJournal lc None →
    driverJournal KDeployment ld → driverJournal KService ls →
    passJournal exposed (Some ({| Requeue := false |}, None)) (la ++ lc ++ ld ++ ls)
| EndsInIngress la lc ld ls li e :
    exposed = true →
    secretStageJournal la None → secretStageJournal lc None →
    driverJournal KDeployment ld → driverJournal KService ls → driverJournal KIngress li →
    passJournal exposed (Some ({| Requeue := false |}, e)) (la ++ lc ++ ld ++ ls ++ li).

(** The resource exposes a host. *)
Definition exposed (a : appsv1alpha1.APIcast) : bool :=
  bool_decide (is_Some (appsv1alpha1.ExposedHost (appsv1alpha1.Spec a))).

(** ** Further sample clusters *)

(** A client whose every read fails with an error other than not-found. *)
Definition unreachableClient : Client MemStore :=
  {| client_Get := λ st k key, inl (StatusError Unknown (types.Name key));
     client_Create := memCreate;
     client_Update := memUpdate |}.

(** A deployment whose pod template has no container. *)
Definition bareDeployment : appsv1.Deployment :=
  setPodSpec {| v1.ServiceAccountName := "default"; v1.Containers := []; v1.Volumes := None |}
    (plainDeployment []).

(** The start of a pass on a resource without exposed host, with [i] as the
    ingress in the store. *)
Definition hostlessWorld (i : extensions.Ingress) : @World MemStore :=
  {| store := memInsert (storeWith [] sampleCR) KIngress (objKey KIngress i) i;
     calls := []; heapNext := 1%positive; APIcastCR := sampleCR |}.

(** A pass on a resource whose replica count does not fit 32 bits. *)
Definition wideWorld : @World MemStore :=
  startWorld [] (setSpecReplicas (Some 4294967299) sampleCR).

(** A pass on a resource whose two secret references have no name. *)
Definition bothNamelessWorld : @World MemStore :=
  startWorld [] (withConfigRef "" (withAdminRef "" sampleCR)).

(** * Properties *)

(** ** The environment merge *)

Section EnvMerge.

Implicit Types (vars existing desired : list v1.EnvVar) (v d : v1.EnvVar) (n : string).

Lemma findEnvVar_Some n vars i :
  findEnvVar n vars = Some i →
  ∃ v, vars !! i = Some v ∧ v1.ev_Name v = n.
Proof.
  revert i. induction vars as [|x vars IH]; intros i; simpl; [done|].
  case_decide as Hx.
  - intros [= <-]. by exists x.
  - destruct (findEnvVar n vars) as [j|] eqn:Hj; simpl; [|done].
    intros [= <-]. destruct (IH j eq_refl) as (v & ? & ?). by exists v.
Qed.

Lemma findEnvVar_None n vars :
  findEnvVar n vars = None ↔ n ∉ map v1.ev_Name vars.
Proof.
  induction vars as [|x vars IH]; simpl.
  - split; [intros _; apply not_elem_of_nil | done].
  - case_decide as Hx.
    + split; [done|]. intros []. subst. left.
    + destruct (findEnvVar n vars) eqn:Hj; simpl.
      * split; [done|]. intros Hn. exfalso. apply Hn. right.
        destruct (decide (n ∈ map v1.ev_Name vars)) as [|Hni]; [done|].
        apply IH in Hni. done.
      * split; [|done]. intros _ Hin. apply elem_of_cons in Hin as [->|Hin]; [done|].
        by apply IH in Hin.
Qed.

Lemma lookupEnv_cons n x vars :
  lookupEnv n (x :: vars) = if decide (v1.ev_Name x = n) then Some x else lookupEnv n vars.
Proof.
  unfold lookupEnv. simpl. case_decide; [done|].
  destruct (findEnvVar n vars); done.
Qed.

Lemma lookupEnv_name n vars v : lookupEnv n vars = Some v → v1.ev_Name v = n.
Proof.
  induction vars as [|x vars IH]; [done|].
  rewrite lookupEnv_cons. case_decide; [by intros [= <-]|done].
Qed.

Lemma lookupEnv_elem n vars v : lookupEnv n vars = Some v → v ∈ vars.
Proof.
  induction vars as [|x vars IH]; [done|].
  rewrite lookupEnv_cons. case_decide; [intros [= <-]; left| intros; right; auto].
Qed.

Lemma lookupEnv_None n vars : lookupEnv n vars = None ↔ n ∉ map v1.ev_Name vars.
Proof.
  induction vars as [|x vars IH].
  - split; [intros _; apply not_elem_of_nil | done].
  - rewrite lookupEnv_cons. simpl. case_decide as Hx.
    + split; [done|]. intros []. subst. left.
    + rewrite IH. rewrite not_elem_of_cons. split; [by intros|by intros []].
Qed.

Lemma lookupEnv_app n vars d :
  lookupEnv n (vars ++ [d]) =
    match lookupEnv n vars with
    | Some v => Some v
    | None => if decide (v1.ev_Name d = n) then Some d else None
    end.
Proof.
  induction vars as [|x vars IH]; simpl.
  - rewrite lookupEnv_cons. change (lookupEnv n []) with (@None v1.EnvVar).
    by case_decide.
  - rewrite !lookupEnv_cons. destruct (decide (v1.ev_Name x = n)); [done|]. exact IH.
Qed.

(** Writing [d] over the first variable of its name. *)
Lemma lookupEnv_insert n vars d idx :
  findEnvVar (v1.ev_Name d) vars = Some idx →
  lookupEnv n (<[idx := d]> vars) =
    if decide (v1.ev_Name d = n) then Some d else lookupEnv n vars.
Proof.
  revert idx. induction vars as [|x vars IH]; intros idx; simpl; [done|].
  destruct (decide (v1.ev_Name x = v1.ev_Name d)) as [Hx|Hx].
  - intros [= <-]. simpl. rewrite !lookupEnv_cons.
    destruct (decide (v1.ev_Name d = n)) as [Hd|Hd]; [done|].
    destruct (decide (v1.ev_Name x = n)); [congruence|done].
  - destruct (findEnvVar (v1.ev_Name d) vars) as [j|] eqn:Hj; simpl; [|done].
    intros [= <-]. simpl. rewrite !lookupEnv_cons.
    destruct (decide (v1.ev_Name x = n)) as [Hxn|Hxn].
    + destruct (decide (v1.ev_Name d = n)); [congruence|done].
    + by apply IH.
Qed.

Lemma upsertEnvVar_lookup n existing d :
  lookupEnv n (upsertEnvVar existing d).1 =
    if decide (v1.ev_Name d = n) then Some d else lookupEnv n existing.
Proof.
  unfold upsertEnvVar.
  destruct (findEnvVar (v1.ev_Name d) existing) as [idx|] eqn:Hf.
  - case_decide as He; simpl.
    + case_decide as Hn; [|done]. subst n.
      unfold lookupEnv. rewrite Hf. done.
    + by apply lookupEnv_insert.
  - simpl. rewrite lookupEnv_app.
    apply findEnvVar_None, lookupEnv_None in Hf.
    case_decide as Hn.
    + subst n. by rewrite Hf.
    + by destruct (lookupEnv n existing).
Qed.

Lemma upsertEnvVar_changed existing d :
  (upsertEnvVar existing d).2 = true ↔ lookupEnv (v1.ev_Name d) existing ≠ Some d.
Proof.
  unfold upsertEnvVar, lookupEnv.
  destruct (findEnvVar (v1.ev_Name d) existing) as [idx|] eqn:Hf; simpl.
  - case_decide; simpl; naive_solver.
  - done.
Qed.

Lemma upsertEnvVar_unchanged existing d :
  (upsertEnvVar existing d).2 = false → (upsertEnvVar existing d).1 = existing.
Proof.
  unfold upsertEnvVar.
  destruct (findEnvVar (v1.ev_Name d) existing) as [idx|]; [|done].
  by case_decide.
Qed.

Lemma upsertEnvVar_keeps existing d v :
  v ∈ existing → v1.ev_Name v ≠ v1.ev_Name d → v ∈ (upsertEnvVar existing d).1.
Proof.
  intros Hin Hne. unfold upsertEnvVar.
  destruct (findEnvVar (v1.ev_Name d) existing) as [idx|] eqn:Hf.
  - case_decide; simpl; [done|].
    apply findEnvVar_Some in Hf as (x & Hx & Hxn).
    apply list_elem_of_lookup in Hin as [j Hj].
    apply list_elem_of_lookup. exists j.
    rewrite list_lookup_insert_ne; [done|]. intros ->. congruence.
  - simpl. apply elem_of_app. by left.
Qed.

Lemma ReconcileEnvVar_cons existing d rest :
  ReconcileEnvVar existing (d :: rest) =
    ((ReconcileEnvVar (upsertEnvVar existing d).1 rest).1,
     (upsertEnvVar existing d).2 || (ReconcileEnvVar (upsertEnvVar existing d).1 rest).2).
Proof.
  simpl. destruct (upsertEnvVar existing d) as [e1 u1]. simpl.
  by destruct (ReconcileEnvVar e1 rest).
Qed.

Lemma ReconcileEnvVar_keeps existing desired v :
  v ∈ existing → v1.ev_Name v ∉ map v1.ev_Name desired →
  v ∈ (ReconcileEnvVar existing desired).1.
Proof.
  revert existing. induction desired as [|d rest IH]; intros existing Hin Hn; [done|].
  rewrite ReconcileEnvVar_cons. simpl in *.
  apply not_elem_of_cons in Hn as [Hd Hrest].
  apply IH; [|done]. by apply upsertEnvVar_keeps.
Qed.

Lemma ReconcileEnvVar_lookup_other n existing desired :
  n ∉ map v1.ev_Name desired →
  lookupEnv n (ReconcileEnvVar existing desired).1 = lookupEnv n existing.
Proof.
  revert existing. induction desired as [|d rest IH]; intros existing Hn; [done|].
  rewrite ReconcileEnvVar_cons. simpl in *.
  apply not_elem_of_cons in Hn as [Hd Hrest].
  rewrite IH by done. rewrite upsertEnvVar_lookup. case_decide; congruence.
Qed.

Lemma ReconcileEnvVar_lookup_desired existing desired d :
  NoDup (map v1.ev_Name desired) → d ∈ desired →
  lookupEnv (v1.ev_Name d) (ReconcileEnvVar existing desired).1 = Some d.
Proof.
  revert existing. induction desired as [|x rest IH]; intros existing Hnd Hin;
    [by apply elem_of_nil in Hin|].
  rewrite ReconcileEnvVar_cons. simpl in *.
  apply NoDup_cons in Hnd as [Hx Hnd].
  apply elem_of_cons in Hin as [->|Hin].
  - rewrite ReconcileEnvVar_lookup_other by done.
    rewrite upsertEnvVar_lookup. by case_decide.
  - by apply IH.
Qed.

Lemma ReconcileEnvVar_changed existing desired :
  (ReconcileEnvVar existing desired).2 = true ↔ envNeedsUpsert existing desired.
Proof.
  unfold envNeedsUpsert.
  revert existing. induction desired as [|d rest IH]; intros existing.
  - simpl. split; [done|]. by intros ?%Exists_nil.
  - rewrite ReconcileEnvVar_cons, Exists_cons. simpl.
    destruct (upsertEnvVar existing d).2 eqn:Hu; simpl.
    + split; [|done]. intros _. left. by apply upsertEnvVar_changed.
    + rewrite IH. rewrite (upsertEnvVar_unchanged _ _ Hu).
      split; [by right|]. intros [Hl|Hr]; [|done].
      apply upsertEnvVar_changed in Hl. congruence.
Qed.

(** C8. Environment-variable reconciliation is a keyed additive merge: a
    variable of the existing list whose name the desired list does not use
    is still in the merged list, unchanged; every variable of a desired
    list (keyed: its names distinct) is the variable of its name in the
    merged list; existing [A=1] merged with desired [B=2] is [A=1; B=2]. *)
Theorem ReconcileEnvVar_keyed_merge existing desired :
  let merged := (ReconcileEnvVar existing desired).1 in
  (∀ a, a ∈ existing → v1.ev_Name a ∉ map v1.ev_Name desired →
        a ∈ merged ∧ lookupEnv (v1.ev_Name a) merged = lookupEnv (v1.ev_Name a) existing)
  ∧ (NoDup (map v1.ev_Name desired) →
     ∀ d, d ∈ desired → lookupEnv (v1.ev_Name d) merged = Some d)
  ∧ ReconcileEnvVar [envA1] [envB2] = ([envA1; envB2], true).
Proof.
  intros merged. split; [|split].
  - intros a Ha Hn. split.
    + by apply ReconcileEnvVar_keeps.
    + by apply ReconcileEnvVar_lookup_other.
  - intros Hnd d Hd. by apply ReconcileEnvVar_lookup_desired.
  - reflexivity.
Qed.
End EnvMerge.

(** ** The reconcile pass, against any client *)

Section Properties.
Context {St : Type} `{!Client St} `{!Libraries} `{!ApicastPkg}.
Implicit Types (w : @World St).

Ltac unfold_monad := unfold mbind, M_bind, mret, M_ret.

Lemma bind_Normal {A B} (m : M A) (f : A → M B) w a w' :
  m w = Normal a w' → (m ≫= f) w = f a w'.
Proof. unfold_monad. by intros ->. Qed.

Lemma bind_Panicked {A B} (m : M A) (f : A → M B) w p w' :
  m w = Panicked p w' → (m ≫= f) w = Panicked p w'.
Proof. unfold_monad. by intros ->. Qed.

Lemma runs_at {A} (m : M A) w w0 :
  runs m w → APIcastCR w = APIcastCR w0 →
  ∃ a w', m w = Normal a w' ∧ APIcastCR w' = APIcastCR w0.
Proof. intros (a & w' & ? & ?) ?. exists a, w'. split; [done|congruence]. Qed.

(** *** The client and the stages *)

Lemma initialize_set w n :
  appsv1alpha1.Replicas (appsv1alpha1.Spec (APIcastCR w)) = Some n →
  initialize w = Normal (false, None) w.
Proof.
  intros Hn. unfold initialize, applyInitialization, getCR. unfold_monad.
  by rewrite Hn.
Qed.

Lemma internalAPIcast_set s w n :
  appsv1alpha1.Replicas (appsv1alpha1.Spec (APIcastCR w)) = Some n →
  ∃ a, internalAPIcast s w = Normal (a, None) w ∧ apicast.Replicas a = int32 n.
Proof.
  intros Hn. unfold internalAPIcast, getCR, deref, gopanic. unfold_monad.
  rewrite Hn. eexists. split; [reflexivity|done].
Qed.

Lemma clientGet_run k key w :
  ∃ r w1, clientGet k key w = Normal r w1
          ∧ APIcastCR w1 = APIcastCR w ∧ store w1 = store w
          ∧ calls w1 = calls w ++ [CallGet k key].
Proof.
  unfold clientGet, journal, decode, alloc. unfold_monad. simpl.
  destruct (client_Get (store w) k key) as [err|o]; [by eexists _, _|].
  destruct k; simpl in *; try by eexists _, _.
  destruct (appsv1.Replicas _); by eexists _, _.
Qed.

Lemma clientUpdate_run k o w :
  clientUpdate k o w
    = Normal (client_Update (store w) k o).2
        {| store := (client_Update (store w) k o).1;
           calls := calls w ++ [CallUpdate k o];
           heapNext := heapNext w; APIcastCR := APIcastCR w |}.
Proof.
  unfold clientUpdate, journal, putStore. unfold_monad. simpl.
  by destruct (client_Update (store w) k o).
Qed.

Lemma clientCreate_run k o w :
  clientCreate k o w
    = Normal (client_Create (store w) k o).2
        {| store := (client_Create (store w) k o).1;
           calls := calls w ++ [CallCreate k o];
           heapNext := heapNext w; APIcastCR := APIcastCR w |}.
Proof.
  unfold clientCreate, journal, putStore. unfold_monad. simpl.
  by destruct (client_Create (store w) k o).
Qed.

Lemma ensureOwnerReference_run o w :
  ∃ r, ensureOwnerReference o w = Normal r w.
Proof.
  unfold ensureOwnerReference, setOwnerReference, getCR. unfold_monad.
  destruct (SetControllerReference _ _) as [m [err|]]; by eexists.
Qed.


Lemma internalAPIcast_nil s w :
  appsv1alpha1.Replicas (appsv1alpha1.Spec (APIcastCR w)) = None →
  internalAPIcast s w = Panicked NilDereference w.
Proof.
  intros Hn. unfold internalAPIcast, getCR, deref, gopanic. unfold_monad.
  by rewrite Hn.
Qed.

Ltac finish_get :=
  eexists _, _; (split; [done|]); simpl; rewrite ?drop_all, ?drop_app_length;
  repeat split; try done; try (by repeat constructor); try (by intros [=]); eauto.

Lemma getGatewayEmbeddedConfigSecret_runs w ref :
  appsv1alpha1.EmbeddedConfigurationSecretRef (appsv1alpha1.Spec (APIcastCR w)) = Some ref →
  ∃ r w', getGatewayEmbeddedConfigSecret w = Normal r w'
          ∧ APIcastCR w' = APIcastCR w ∧ store w' = store w
          ∧ Forall (λ c, isWrite c = false) (drop (length (calls w)) (calls w'))
          ∧ (r.2 = None → is_Some r.1).
Proof.
  intros Href.
  unfold getGatewayEmbeddedConfigSecret, getCR, deref, clientGet, journal, decode.
  unfold_monad. rewrite Href. simpl.
  case_decide; [finish_get|].
  destruct (client_Get _ _ _) as [err|secret]; simpl; [finish_get|].
  destruct (SecretStringDataFromData secret !! _); finish_get.
Qed.

Lemma getAdminPortalCredentialsSecret_runs w ref :
  appsv1alpha1.AdminPortalCredentialsRef (appsv1alpha1.Spec (APIcastCR w)) = Some ref →
  ∃ r w', getAdminPortalCredentialsSecret w = Normal r w'
          ∧ APIcastCR w' = APIcastCR w ∧ store w' = store w
          ∧ Forall (λ c, isWrite c = false) (drop (length (calls w)) (calls w'))
          ∧ (r.2 = None → is_Some r.1).
Proof.
  intros Href.
  unfold getAdminPortalCredentialsSecret, getCR, deref, clientGet, journal, decode.
  unfold_monad. rewrite Href. simpl.
  case_decide; [finish_get|].
  destruct (client_Get _ _ _) as [err|secret]; simpl; [finish_get|].
  destruct (SecretStringDataFromData secret !! _) as [u|]; [|finish_get].
  destruct (url_Parse u) as [err|parsed]; [finish_get|].
  case_decide; finish_get.
Qed.

(** Once the secret is got, the stage sets the owner and saves the secret
    if that changed it. *)
Lemma own_secret_runs (secret : option v1.Secret) w :
  is_Some secret →
  runs (secret ← deref secret;
        '(secret, changed, err) ← ensureOwnerReference secret;
        match err with
        | Some err => mret (None, changed, Some err)
        | None =>
            if changed : bool then
              err ← clientUpdate KSecret secret;
              match err with
              | Some err => mret (None, changed, Some err)
              | None => mret (Some secret, changed, None)
              end
            else mret (Some secret, changed, None)
        end) w.
Proof.
  intros [s ->]. unfold runs.
  rewrite (bind_Normal (deref (Some s)) _ w s w eq_refl).
  destruct (ensureOwnerReference_run s w) as ([[s' changed] err] & He).
  rewrite (bind_Normal _ _ _ _ _ He).
  destruct err as [err|]; [by eexists _, _|].
  destruct changed; [|by eexists _, _].
  rewrite (bind_Normal _ _ _ _ _ (clientUpdate_run KSecret s' w)).
  destruct (client_Update _ _ _).2; by eexists _, _.
Qed.

Lemma reconcileAdminPortalCredentials_runs w : runs reconcileAdminPortalCredentials w.
Proof.
  unfold reconcileAdminPortalCredentials.
  unfold runs. rewrite (bind_Normal getCR _ w _ w eq_refl).
  destruct (appsv1alpha1.AdminPortalCredentialsRef _) as [ref|] eqn:Href;
    [|by eexists _, _].
  destruct (getAdminPortalCredentialsSecret_runs w ref Href)
    as ([secret err] & w1 & Hg & Hcr & _ & _ & Hsome).
  rewrite (bind_Normal _ _ _ _ _ Hg).
  destruct err as [err|]; [by eexists _, _|].
  apply (runs_at _ w1 w); [|done]. apply own_secret_runs. by apply Hsome.
Qed.

Lemma reconcileGatewayEmbbededConfig_runs w : runs reconcileGatewayEmbbededConfig w.
Proof.
  unfold reconcileGatewayEmbbededConfig.
  unfold runs. rewrite (bind_Normal getCR _ w _ w eq_refl).
  destruct (appsv1alpha1.EmbeddedConfigurationSecretRef _) as [ref|] eqn:Href;
    [|by eexists _, _].
  destruct (getGatewayEmbeddedConfigSecret_runs w ref Href)
    as ([secret err] & w1 & Hg & Hcr & _ & _ & Hsome).
  rewrite (bind_Normal _ _ _ _ _ Hg).
  destruct err as [err|]; [by eexists _, _|].
  apply (runs_at _ w1 w); [|done]. apply own_secret_runs. by apply Hsome.
Qed.

Lemma reconcileService_runs desired w : runs (reconcileService desired) w.
Proof.
  unfold runs, reconcileService.
  destruct (clientGet_run KService (namespacedName KService desired) w)
    as (r & w1 & Hg & Hcr & _).
  rewrite (bind_Normal _ _ _ _ _ Hg).
  destruct r as [err|existing]; [|by eexists _, _].
  destruct (IsNotFound err); [|by eexists _, _].
  rewrite clientCreate_run. by eexists _, _.
Qed.
(** *** The service driver *)

Lemma newCalls_app {A} (m : M A) w l :
  calls (worldOf (m w)) = calls w ++ l → newCalls m w = l.
Proof. unfold newCalls. intros ->. apply drop_app_length. Qed.

(** C9. For a service that exists under the derived name the service driver
    answers without error, leaves the store as it was and makes no call but
    the get; the only write the driver ever makes is the creation of the
    desired service, and only when the get reported not-found. *)
Theorem reconcileService_leaves_existing (desiredService : v1.Service) w :
  (∀ existingService,
      client_Get (store w) KService (namespacedName KService desiredService)
        = inr existingService →
      answerOf (reconcileService desiredService w) = Some None
      ∧ store (worldOf (reconcileService desiredService w)) = store w
      ∧ newCalls (reconcileService desiredService) w
        = [CallGet KService (namespacedName KService desiredService)])
  ∧ (∀ c, c ∈ newCalls (reconcileService desiredService) w → isWrite c = true →
      c = CallCreate KService desiredService
      ∧ ∃ err, client_Get (store w) KService (namespacedName KService desiredService)
               = inl err ∧ IsNotFound err = true).
Proof.
  unfold newCalls, reconcileService, clientGet, clientCreate, journal, putStore.
  unfold_monad. simpl.
  destruct (client_Get (store w) KService _) as [err|existing] eqn:Hget; simpl.
  - split; [done|].
    destruct (IsNotFound err) eqn:Hnf; simpl.
    + destruct (client_Create _ _ _) as [st e]; simpl.
      rewrite <- app_assoc, drop_app_length. simpl.
      intros c Hc Hw. apply elem_of_cons in Hc as [->|Hc]; [done|].
      apply list_elem_of_singleton in Hc as ->. split; [done|]. by exists err.
    + rewrite drop_app_length. intros c Hc Hw.
      apply list_elem_of_singleton in Hc as ->. done.
  - split.
    + intros ? [= <-]. by rewrite drop_app_length.
    + rewrite drop_app_length. intros c Hc Hw.
      apply list_elem_of_singleton in Hc as ->. done.
Qed.

(** *** The stages of a pass *)

(** C5. On a resource whose replica count is not set, the only client call
    of the pass is one update of the resource with the replica count set to
    1 (no secret is got, no deployment, service or ingress is looked at);
    when the store takes the update the pass asks for a re-queue, when it
    refuses it the pass returns that error. *)
Theorem Reconcile_default_fill w :
  appsv1alpha1.Replicas (appsv1alpha1.Spec (APIcastCR w)) = None →
  let filled := setSpecReplicas (Some 1) (APIcastCR w) in
  newCalls Reconcile w = [CallUpdate KAPIcast filled]
  ∧ store (worldOf (Reconcile w)) = (client_Update (store w) KAPIcast filled).1
  ∧ ((client_Update (store w) KAPIcast filled).2 = None →
       answerOf (Reconcile w) = Some ({| Requeue := true |}, None))
  ∧ (∀ err, (client_Update (store w) KAPIcast filled).2 = Some err →
       answerOf (Reconcile w) = Some ({| Requeue := false |}, Some err)).
Proof.
  intros Hnil filled.
  unfold newCalls, Reconcile, initialize, applyInitialization, getCR, setCR,
    clientUpdate, journal, putStore.
  unfold_monad. rewrite Hnil. simpl. fold filled.
  destruct (client_Update (store w) KAPIcast filled) as [st [err|]]; simpl;
    rewrite drop_app_length; repeat split; try done.
  by intros ? [= <-].
Qed.

(** C6. When the initialization, or the owner-reference stage of either
    user secret, reports a change without error, the pass ends there: it
    answers a re-queue without error in the very world that stage left, so
    no later stage has run. *)
Theorem Reconcile_requeues_after_write w :
  (∀ w1, initialize w = Normal (true, None) w1 →
     Reconcile w = Normal ({| Requeue := true |}, None) w1)
  ∧ (∀ w1 secret w2,
       initialize w = Normal (false, None) w1 →
       reconcileAdminPortalCredentials w1 = Normal (secret, true, None) w2 →
       Reconcile w = Normal ({| Requeue := true |}, None) w2)
  ∧ (∀ w1 secret1 w2 secret2 w3,
       initialize w = Normal (false, None) w1 →
       reconcileAdminPortalCredentials w1 = Normal (secret1, false, None) w2 →
       reconcileGatewayEmbbededConfig w2 = Normal (secret2, true, None) w3 →
       Reconcile w = Normal ({| Requeue := true |}, None) w3).
Proof.
  repeat split.
  - intros w1 Hi. unfold Reconcile. by rewrite (bind_Normal _ _ _ _ _ Hi).
  - intros w1 secret w2 Hi Ha. unfold Reconcile.
    rewrite (bind_Normal _ _ _ _ _ Hi). simpl.
    by rewrite (bind_Normal _ _ _ _ _ Ha).
  - intros w1 s1 w2 s2 w3 Hi Ha Hg. unfold Reconcile.
    rewrite (bind_Normal _ _ _ _ _ Hi). simpl.
    rewrite (bind_Normal _ _ _ _ _ Ha). simpl.
    by rewrite (bind_Normal _ _ _ _ _ Hg).
Qed.

Lemma getAdminPortalCredentialsSecret_no_name w ref :
  appsv1alpha1.AdminPortalCredentialsRef (appsv1alpha1.Spec (APIcastCR w)) = Some ref →
  v1.lor_Name ref = "" →
  getAdminPortalCredentialsSecret w
    = Normal (None, Some (ReferenceIncomplete "AdminPortalCredentialsRef")) w.
Proof.
  intros Href Hname. unfold getAdminPortalCredentialsSecret, getCR, deref.
  unfold_monad. rewrite Href. simpl. rewrite Hname. done.
Qed.

(** The resolver's contract for a named admin-portal reference: the client's
    error when the get fails (NotFound among them), KeyMissing when the
    payload lacks the URL, the parser's error, CredentialMissing when the URL
    carries no user name, and the secret otherwise. *)
Lemma getAdminPortalCredentialsSecret_contract w ref :
  appsv1alpha1.AdminPortalCredentialsRef (appsv1alpha1.Spec (APIcastCR w)) = Some ref →
  v1.lor_Name ref ≠ "" →
  let key := {| types.Name := v1.lor_Name ref;
                types.Namespace := appsv1alpha1.Namespace (APIcastCR w) |} in
  answerOf (getAdminPortalCredentialsSecret w)
  = Some
      match client_Get (store w) KSecret key with
      | inl err => (None, Some err)
      | inr secret =>
          match v1.Data secret !! AdminPortalURLAttributeName with
          | None =>
              (None, Some (KeyMissing AdminPortalURLAttributeName
                             (metav1.om_Name (v1.sec_Meta secret))))
          | Some adminPortalURL =>
              match url_Parse adminPortalURL with
              | inl err => (None, Some err)
              | inr parsedURL =>
                  if decide (Username (User parsedURL) = "")
                  then (None, Some (CredentialMissing AdminPortalURLAttributeName))
                  else (Some secret, None)
              end
          end
      end.
Proof.
  intros Href Hname key.
  unfold getAdminPortalCredentialsSecret, getCR, deref, clientGet, journal, decode.
  unfold_monad. rewrite Href. simpl. rewrite decide_False by done. simpl. fold key.
  destruct (client_Get (store w) KSecret key) as [err|secret]; [done|]. simpl.
  unfold SecretStringDataFromData.
  destruct (v1.Data secret !! AdminPortalURLAttributeName) as [u|]; [|done].
  destruct (url_Parse u) as [err|parsed]; [done|].
  by case_decide.
Qed.

(** C4. When the admin-portal reference is present with an empty name,
    getting the secret fails with ReferenceIncomplete without a client call;
    the pass ends in the world the initialization stage left (no write
    after it), and with the replica count set it returns that error in the
    world it started from. *)
Theorem Reconcile_rejects_nameless_admin_ref w ref :
  appsv1alpha1.AdminPortalCredentialsRef (appsv1alpha1.Spec (APIcastCR w)) = Some ref →
  v1.lor_Name ref = "" →
  getAdminPortalCredentialsSecret w
    = Normal (None, Some (ReferenceIncomplete "AdminPortalCredentialsRef")) w
  ∧ worldOf (Reconcile w) = worldOf (initialize w)
  ∧ (∀ n, appsv1alpha1.Replicas (appsv1alpha1.Spec (APIcastCR w)) = Some n →
       Reconcile w
         = Normal ({| Requeue := false |},
                   Some (ReferenceIncomplete "AdminPortalCredentialsRef")) w).
Proof.
  intros Href Hname.
  pose proof (getAdminPortalCredentialsSecret_no_name w ref Href Hname) as Hget.
  assert (Hrec : reconcileAdminPortalCredentials w
                 = Normal (None, false, Some (ReferenceIncomplete "AdminPortalCredentialsRef")) w).
  { unfold reconcileAdminPortalCredentials.
    rewrite (bind_Normal getCR _ w _ w eq_refl), Href.
    by rewrite (bind_Normal _ _ _ _ _ Hget). }
  split; [done|].
  destruct (appsv1alpha1.Replicas (appsv1alpha1.Spec (APIcastCR w))) as [n|] eqn:Hn.
  - pose proof (initialize_set w n Hn) as Hi. 
    assert (Reconcile w = Normal ({| Requeue := false |},
                   Some (ReferenceIncomplete "AdminPortalCredentialsRef")) w) as HR.
    { unfold Reconcile. rewrite (bind_Normal _ _ _ _ _ Hi). simpl.
      by rewrite (bind_Normal _ _ _ _ _ Hrec). }
    rewrite HR, Hi. split; [done|]. by intros.
  - split; [|done].
    unfold Reconcile, initialize, applyInitialization, getCR, setCR,
      clientUpdate, journal, putStore.
    unfold_monad. rewrite Hn. simpl.
    by destruct (client_Update _ _ _) as [st [err|]].
Qed.

(** *** The deployment driver *)

Lemma reconcileDeployment_found desired existing w w1 e0 erest d0 drest :
  clientGet KDeployment (namespacedName KDeployment desired) w = Normal (inr existing) w1 →
  v1.Containers (podSpec existing) = e0 :: erest →
  v1.Containers (podSpec desired) = d0 :: drest →
  (deploymentDiffers existing desired e0 d0 →
     reconcileDeployment desired w
       = clientUpdate KDeployment (mergedDeployment existing desired e0 d0 erest) w1)
  ∧ (¬ deploymentDiffers existing desired e0 d0 →
       reconcileDeployment desired w = Normal None w1).
Proof.
  intros Hget He Hd. unfold reconcileDeployment.
  rewrite (bind_Normal _ _ _ _ _ Hget).
  unfold deploymentDiffers, mergedDeployment.
  pose proof (ReconcileEnvVar_changed (v1.Env e0) (v1.Env d0)) as Henv.
  destruct existing as [emeta [erepl [eann elabels [esa econt evols]]]].
  destruct desired as [dmeta [drepl [dann dlabels [dsa dcont dvols]]]].
  unfold podSpec in *. simpl in *. subst econt dcont.
  destruct e0 as [ename eimage eenv emounts], d0 as [dname dimage denv dmounts].
  simpl in *.
  destruct (ReconcileEnvVar eenv denv) as [env updatedTmp] eqn:Hrec. simpl in *.
  unfold_monad. unfold index0, setContainer0, setImage, setEnv, setVolumeMounts,
    setServiceAccountName, setVolumes, setAnnotations, setReplicas, setPodSpec,
    setTemplate, podSpec.
  destruct (ptr_ne erepl drepl) eqn:Hptr; simpl;
  destruct (decide (eimage ≠ dimage)) as [Hi|Hi]; simpl;
  destruct (decide (esa ≠ dsa)) as [Hs|Hs]; simpl;
  rewrite ?Hrec; simpl;
  destruct (decide (eann ≠ dann)) as [Ha|Ha]; simpl;
  destruct (decide (evols ≠ dvols)) as [Hv|Hv]; simpl;
  destruct (decide (emounts ≠ dmounts)) as [Hm|Hm]; simpl;
  destruct updatedTmp; simpl;
  try apply dec_stable in Hi; try apply dec_stable in Hs; try apply dec_stable in Ha;
  try apply dec_stable in Hv; try apply dec_stable in Hm; subst;
  (split; [intros Hdiff; try reflexivity | intros Hdiff; try reflexivity]);
  try (exfalso; tauto);
  try (exfalso; destruct Hdiff as [?|[?|[?|[Hx|[?|[?|?]]]]]]; try done;
       apply Henv in Hx; done).
Qed.
(** C2, amended. Given the deployment the get returned and the desired one,
    each with a first container: when the comparison of the replica
    pointers, the image, the service account name, the pod-template
    annotations, the volumes or the volume mounts finds a difference, or a
    desired environment variable is missing from the existing environment or
    differs from the existing variable of its name, the driver makes one
    update call, with the merged deployment; otherwise it makes no call
    after the get and leaves the store. *)
Theorem reconcileDeployment_updates_iff_differs desired existing w w1 e0 erest d0 drest :
  clientGet KDeployment (namespacedName KDeployment desired) w = Normal (inr existing) w1 →
  v1.Containers (podSpec existing) = e0 :: erest →
  v1.Containers (podSpec desired) = d0 :: drest →
  let get := CallGet KDeployment (namespacedName KDeployment desired) in
  let run := reconcileDeployment desired in
  (deploymentDiffers existing desired e0 d0 →
     newCalls run w
       = [get; CallUpdate KDeployment (mergedDeployment existing desired e0 d0 erest)])
  ∧ (¬ deploymentDiffers existing desired e0 d0 →
       newCalls run w = [get] ∧ store (worldOf (run w)) = store w).
Proof.
  intros Hget He Hd get run.
  destruct (reconcileDeployment_found desired existing w w1 e0 erest d0 drest Hget He Hd)
    as [Hyes Hno].
  destruct (clientGet_run KDeployment (namespacedName KDeployment desired) w)
    as (r & w1' & Hg & _ & Hst & Hcalls).
  rewrite Hget in Hg. injection Hg as <- <-.
  split.
  - intros Hdiff. apply newCalls_app. unfold run.
    rewrite (Hyes Hdiff), clientUpdate_run. simpl. by rewrite Hcalls, <- app_assoc.
  - intros Hsame. unfold newCalls, run. rewrite (Hno Hsame). simpl.
    by rewrite Hcalls, drop_app_length.
Qed.

(** The replica pointer of a deployment read from the store is newly
    allocated, so it never equals the pointer of the desired deployment:
    whatever the values, a deployment stored with a replica count is
    written again. *)
Lemma reconcileDeployment_rewrites_stored desired stored w p e0 erest d0 drest :
  client_Get (store w) KDeployment (namespacedName KDeployment desired) = inr stored →
  appsv1.Replicas (appsv1.dep_Spec stored) = Some p →
  (∀ q, appsv1.Replicas (appsv1.dep_Spec desired) = Some q → (addr q < heapNext w)%positive) →
  v1.Containers (podSpec stored) = e0 :: erest →
  v1.Containers (podSpec desired) = d0 :: drest →
  ∃ o, newCalls (reconcileDeployment desired) w
       = [CallGet KDeployment (namespacedName KDeployment desired);
          CallUpdate KDeployment o].
Proof.
  intros Hget Hp Hq He Hd.
  set (existing := setReplicas (Some {| addr := heapNext w; pointee := pointee p |}) stored).
  assert (∃ w1, clientGet KDeployment (namespacedName KDeployment desired) w
                = Normal (inr existing) w1) as [w1 Hcg].
  { unfold clientGet, journal, decode, alloc. unfold_monad. simpl.
    rewrite Hget, Hp. by eexists. }
  assert (He' : v1.Containers (podSpec existing) = e0 :: erest) by done.
  assert (Hdiff : deploymentDiffers existing desired e0 d0).
  { left. simpl.
    destruct (appsv1.Replicas (appsv1.dep_Spec desired)) as [q|] eqn:Hdq; [|done].
    simpl. specialize (Hq q eq_refl).
    apply negb_true_iff, Pos.eqb_neq. lia. }
  destruct (reconcileDeployment_found desired existing w w1 e0 erest d0 drest Hcg He' Hd)
    as [Hyes _].
  destruct (clientGet_run KDeployment (namespacedName KDeployment desired) w)
    as (r & w1' & Hg & _ & _ & Hcalls).
  rewrite Hcg in Hg. injection Hg as <- <-.
  eexists. apply newCalls_app.
  rewrite (Hyes Hdiff), clientUpdate_run. simpl. by rewrite Hcalls, <- app_assoc.
Qed.

(** *** The ingress driver *)

Lemma rangeRules_run w h rules idx acc :
  appsv1alpha1.ExposedHost (appsv1alpha1.Spec (APIcastCR w)) = Some h →
  0 ≤ idx →
  ∃ z, rangeRules rules idx acc w = Normal z w
       ∧ (z = -1 ↔ acc = -1
                   ∧ Forall (λ r, extensions.Host r ≠ appsv1alpha1.Host h) rules).
Proof.
  intros Hh. revert idx acc.
  induction rules as [|rule rest IH]; intros idx acc Hidx; simpl.
  - exists acc. split; [done|]. split; [by intros ->|by intros [-> _]].
  - rewrite (bind_Normal getCR _ w _ w eq_refl), Hh.
    rewrite (bind_Normal (deref (Some h)) _ w h w eq_refl).
    destruct (IH (idx + 1) (if decide (extensions.Host rule = appsv1alpha1.Host h)
                            then idx else acc) ltac:(lia)) as (z & Hz & Hiff).
    exists z. split; [done|]. rewrite Hiff. rewrite Forall_cons.
    case_decide; [|tauto].
    split; [lia|]. intros (_ & ? & _). done.
Qed.

Lemma hasRuleFor_Forall host i :
  Forall (λ r, extensions.Host r ≠ host) (extensions.Rules (extensions.ing_Spec i))
  ↔ ¬ hasRuleFor host i.
Proof.
  unfold hasRuleFor. split.
  - apply Forall_not_Exists.
  - apply (not_Exists_Forall _).
Qed.

(** C3, amended. Given the ingress the get returned and the host the
    resource exposes: when no existing rule is for that host the driver
    updates the ingress with the desired rules in place of all existing
    ones (and the desired TLS entries); when some existing rule is for that
    host, every existing rule is left as it is, and the driver updates the
    ingress only when the TLS entries differ, to set them. *)
Theorem reconcileIngress_rules (desiredIngress existingIngress : extensions.Ingress) w h :
  client_Get (store w) KIngress (namespacedName KIngress desiredIngress)
    = inr existingIngress →
  appsv1alpha1.ExposedHost (appsv1alpha1.Spec (APIcastCR w)) = Some h →
  let get := CallGet KIngress (namespacedName KIngress desiredIngress) in
  let run := reconcileIngress desiredIngress in
  (¬ hasRuleFor (appsv1alpha1.Host h) existingIngress →
     newCalls run w
       = [get; CallUpdate KIngress
                 (setTLS (extensions.TLS (extensions.ing_Spec desiredIngress))
                    (setRules (extensions.Rules (extensions.ing_Spec desiredIngress))
                       existingIngress))])
  ∧ (hasRuleFor (appsv1alpha1.Host h) existingIngress →
       (extensions.TLS (extensions.ing_Spec existingIngress)
          = extensions.TLS (extensions.ing_Spec desiredIngress) →
        newCalls run w = [get] ∧ store (worldOf (run w)) = store w)
       ∧ (extensions.TLS (extensions.ing_Spec existingIngress)
            ≠ extensions.TLS (extensions.ing_Spec desiredIngress) →
          newCalls run w
            = [get; CallUpdate KIngress
                      (setTLS (extensions.TLS (extensions.ing_Spec desiredIngress))
                         existingIngress)])).
Proof.
  intros Hget Hh get run.
  set (w1 := {| store := store w; calls := calls w ++ [get]; heapNext := heapNext w;
                APIcastCR := APIcastCR w |}).
  assert (Hcg : clientGet KIngress (namespacedName KIngress desiredIngress) w
                = Normal (inr existingIngress) w1).
  { unfold clientGet, journal. unfold_monad. simpl. by rewrite Hget. }
  destruct (rangeRules_run w1 h (extensions.Rules (extensions.ing_Spec existingIngress))
              0 (-1) Hh ltac:(lia)) as (z & Hz & Hiff).
  rewrite hasRuleFor_Forall in Hiff.
  unfold newCalls, run, reconcileIngress.
  rewrite (bind_Normal _ _ _ _ _ Hcg). rewrite (bind_Normal _ _ _ _ _ Hz).
  split.
  - intros Hno. rewrite decide_True by (apply Hiff; done).
    unfold clientUpdate, journal, putStore. unfold_monad. simpl.
    case_decide as Ht; simpl.
    + destruct (client_Update _ _ _) as [st [e|]]; simpl;
        by rewrite <- app_assoc, drop_app_length.
    + replace (setTLS (extensions.TLS (extensions.ing_Spec desiredIngress))
                 (setRules (extensions.Rules (extensions.ing_Spec desiredIngress))
                    existingIngress))
        with (setRules (extensions.Rules (extensions.ing_Spec desiredIngress))
                existingIngress)
        by (unfold setTLS, setRules; simpl; by rewrite Ht).
      destruct (client_Update _ _ _) as [st [e|]]; simpl;
        by rewrite <- app_assoc, drop_app_length.
  - intros Hyes. rewrite decide_False by (intros Hz1; apply Hiff in Hz1 as [_ ?]; done).
    split.
    + intros Ht. rewrite decide_False by (intros ?; done).
      unfold_monad. simpl. by rewrite drop_app_length.
    + intros Ht. rewrite decide_True by done.
      unfold clientUpdate, journal, putStore. unfold_monad. simpl.
      destruct (client_Update _ _ _) as [st [e|]]; simpl;
        by rewrite <- app_assoc, drop_app_length.
Qed.

(** *** Panics *)

Lemma deploymentDiffers_em existing desired e0 d0 :
  deploymentDiffers existing desired e0 d0 ∨ ¬ deploymentDiffers existing desired e0 d0.
Proof.
  unfold deploymentDiffers.
  pose proof (ReconcileEnvVar_changed (v1.Env e0) (v1.Env d0)) as Henv.
  destruct (ptr_ne _ _); [by left; left|].
  destruct (decide (v1.Image e0 = v1.Image d0)); [|left; tauto].
  destruct (decide (v1.ServiceAccountName (podSpec existing)
                    = v1.ServiceAccountName (podSpec desired))); [|left; tauto].
  destruct (ReconcileEnvVar (v1.Env e0) (v1.Env d0)).2; [left; tauto|].
  destruct (decide (v1.Annotations (appsv1.Template (appsv1.dep_Spec existing))
                    = v1.Annotations (appsv1.Template (appsv1.dep_Spec desired))));
    [|left; tauto].
  destruct (decide (v1.Volumes (podSpec existing) = v1.Volumes (podSpec desired)));
    [|left; tauto].
  destruct (decide (v1.VolumeMounts e0 = v1.VolumeMounts d0)); [|left; tauto].
  right. intros [?|[?|[?|[Hx|[?|[?|?]]]]]]; try done. apply Henv in Hx. done.
Qed.

Lemma reconcileDeployment_runs desired w :
  runs (reconcileDeployment desired) w
  ∨ ∃ w', reconcileDeployment desired w = Panicked IndexOutOfRange w'.
Proof.
  destruct (clientGet_run KDeployment (namespacedName KDeployment desired) w)
    as (r & w1 & Hg & Hcr & _).
  destruct r as [err|existing].
  - left. unfold runs, reconcileDeployment. rewrite (bind_Normal _ _ _ _ _ Hg).
    destruct (IsNotFound err); [|by eexists _, _].
    rewrite clientCreate_run. by eexists _, _.
  - destruct (v1.Containers (podSpec existing)) as [|e0 erest] eqn:He.
    { right. exists w1. unfold reconcileDeployment. rewrite (bind_Normal _ _ _ _ _ Hg).
      destruct existing as [emeta [erepl [eann elabels [esa econt evols]]]].
      unfold podSpec in He. simpl in He. subst econt.
      unfold setReplicas, podSpec. simpl. by destruct (ptr_ne _ _). }
    destruct (v1.Containers (podSpec desired)) as [|d0 drest] eqn:Hd.
    { right. exists w1. unfold reconcileDeployment. rewrite (bind_Normal _ _ _ _ _ Hg).
      destruct existing as [emeta [erepl [eann elabels [esa econt evols]]]].
      unfold podSpec in He. simpl in He. subst econt.
      unfold setReplicas, podSpec in *. simpl. rewrite Hd. by destruct (ptr_ne _ _). }
    left. unfold runs.
    destruct (reconcileDeployment_found desired existing w w1 e0 erest d0 drest Hg He Hd)
      as [Hyes Hno].
    destruct (deploymentDiffers_em existing desired e0 d0) as [Hdiff|Hdiff].
    + rewrite (Hyes Hdiff), clientUpdate_run. by eexists _, _.
    + rewrite (Hno Hdiff). by eexists _, _.
Qed.

Lemma reconcileIngress_runs desired w h :
  appsv1alpha1.ExposedHost (appsv1alpha1.Spec (APIcastCR w)) = Some h →
  runs (reconcileIngress desired) w.
Proof.
  intros Hh. unfold runs, reconcileIngress.
  destruct (clientGet_run KIngress (namespacedName KIngress desired) w)
    as (r & w1 & Hg & Hcr & _).
  rewrite (bind_Normal _ _ _ _ _ Hg).
  destruct r as [err|existing].
  - destruct (IsNotFound err); [|by eexists _, _].
    rewrite clientCreate_run. by eexists _, _.
  - rewrite <- Hcr in Hh.
    destruct (rangeRules_run w1 h (extensions.Rules (extensions.ing_Spec existing))
                0 (-1) Hh ltac:(lia)) as (z & Hz & _).
    rewrite (bind_Normal _ _ _ _ _ Hz).
    destruct (decide (z = -1)); simpl; case_decide; simpl;
      try (rewrite (bind_Normal _ _ _ _ _ (clientUpdate_run _ _ _));
           destruct (client_Update _ _ _).2);
      by eexists _, _.
Qed.

(** The only panic a pass can end in is an index out of range, on a
    deployment without containers. *)
Lemma Reconcile_panics_only_out_of_range w p w' :
  Reconcile w = Panicked p w' → p = IndexOutOfRange.
Proof.
  unfold Reconcile.
  destruct (appsv1alpha1.Replicas (appsv1alpha1.Spec (APIcastCR w))) as [n|] eqn:Hn.
  - rewrite (bind_Normal _ _ _ _ _ (initialize_set w n Hn)). simpl.
    destruct (reconcileAdminPortalCredentials_runs w) as ([[a changed] err] & w1 & Ha & Hcr1).
    rewrite (bind_Normal _ _ _ _ _ Ha).
    destruct err; [done|]. destruct changed; [done|].
    destruct (reconcileGatewayEmbbededConfig_runs w1) as ([[g changed] err] & w2 & Hg & Hcr2).
    rewrite (bind_Normal _ _ _ _ _ Hg).
    destruct err; [done|]. destruct changed; [done|].
    assert (Hn2 : appsv1alpha1.Replicas (appsv1alpha1.Spec (APIcastCR w2)) = Some n)
      by congruence.
    destruct (internalAPIcast_set
                {| adminPortalCredentialsSecret := a; gatewayEmbeddedConfigSecret := g |}
                w2 n Hn2) as (desired & Hi & _).
    rewrite (bind_Normal _ _ _ _ _ Hi).
    rewrite (bind_Normal alloc _ w2 _ _ eq_refl).
    match goal with |- context [reconcileDeployment ?d ≫= _] => set (dep := d) end.
    match goal with |- (_ ≫= _) ?w = _ → _ => set (w3 := w) end.
    destruct (reconcileDeployment_runs dep w3) as [(r & w4 & Hd & Hcr4)|[w4 Hd]].
    2:{ rewrite (bind_Panicked _ _ _ _ _ Hd). by intros [= <- _]. }
    rewrite (bind_Normal _ _ _ _ _ Hd). destruct r; [done|].
    destruct (reconcileService_runs (Service desired) w4) as (r & w5 & Hs & Hcr5).
    rewrite (bind_Normal _ _ _ _ _ Hs). destruct r; [done|].
    rewrite (bind_Normal getCR _ w5 _ w5 eq_refl).
    destruct (appsv1alpha1.ExposedHost _) as [h|] eqn:Hh; [|done].
    destruct (reconcileIngress_runs (Ingress desired) w5 h Hh) as (r & w6 & Hin & _).
    rewrite (bind_Normal _ _ _ _ _ Hin). by destruct r.
  - unfold initialize, applyInitialization, getCR, setCR, clientUpdate, journal, putStore.
    unfold_monad. rewrite Hn. simpl.
    by destruct (client_Update _ _ _) as [st [err|]].
Qed.

(** C10, amended. With the replica count nil, [internalAPIcast] panics on the
    dereference whatever the secrets; [APIcastFromCRContents], which fills
    in no default, either returns the error of a secret it could not get or
    reaches that dereference and panics, and it does panic when the resource
    references no secret; with the replica count set, [internalAPIcast]
    answers; and a pass never ends in a nil dereference. *)
Theorem nil_replicas_dereference w :
  (appsv1alpha1.Replicas (appsv1alpha1.Spec (APIcastCR w)) = None →
     (∀ s, internalAPIcast s w = Panicked NilDereference w)
     ∧ ((∃ err w', APIcastFromCRContents w = Normal (None, Some err) w')
        ∨ (∃ w', APIcastFromCRContents w = Panicked NilDereference w'))
     ∧ (appsv1alpha1.EmbeddedConfigurationSecretRef (appsv1alpha1.Spec (APIcastCR w)) = None →
        appsv1alpha1.AdminPortalCredentialsRef (appsv1alpha1.Spec (APIcastCR w)) = None →
        APIcastFromCRContents w = Panicked NilDereference w))
  ∧ (∀ n s, appsv1alpha1.Replicas (appsv1alpha1.Spec (APIcastCR w)) = Some n →
       ∃ a, internalAPIcast s w = Normal (a, None) w)
  ∧ (∀ w', Reconcile w ≠ Panicked NilDereference w').
Proof.
  split; [|split].
  - intros Hn. split; [intros s; by apply internalAPIcast_nil|]. split.
    + unfold APIcastFromCRContents.
      rewrite (bind_Normal getCR _ w _ w eq_refl).
      assert (∃ r w1, (match appsv1alpha1.EmbeddedConfigurationSecretRef
                               (appsv1alpha1.Spec (APIcastCR w)) with
                       | Some _ => getGatewayEmbeddedConfigSecret
                       | None => mret (None, None)
                       end) w = Normal r w1 ∧ APIcastCR w1 = APIcastCR w)
        as (r1 & w1 & Hg & Hcr1).
      { destruct (appsv1alpha1.EmbeddedConfigurationSecretRef _) as [ref|] eqn:Href.
        - destruct (getGatewayEmbeddedConfigSecret_runs w ref Href) as (r & w' & ? & ? & _).
          by exists r, w'.
        - by exists (None, None), w. }
      rewrite (bind_Normal _ _ _ _ _ Hg). destruct r1 as [g [err|]]; [left; by eexists _, _|].
      assert (∃ r w2, (match appsv1alpha1.AdminPortalCredentialsRef
                               (appsv1alpha1.Spec (APIcastCR w)) with
                       | Some _ => getAdminPortalCredentialsSecret
                       | None => mret (None, None)
                       end) w1 = Normal r w2 ∧ APIcastCR w2 = APIcastCR w)
        as (r2 & w2 & Ha & Hcr2).
      { destruct (appsv1alpha1.AdminPortalCredentialsRef _) as [ref|] eqn:Href.
        - rewrite <- Hcr1 in Href.
          destruct (getAdminPortalCredentialsSecret_runs w1 ref Href) as (r & w' & ? & ? & _).
          exists r, w'. split; [done|congruence].
        - by exists (None, None), w1. }
      rewrite (bind_Normal _ _ _ _ _ Ha). destruct r2 as [a [err|]]; [left; by eexists _, _|].
      right. exists w2.
      rewrite <- Hcr2 in Hn.
      by rewrite (bind_Panicked _ _ _ _ _ (internalAPIcast_nil _ w2 Hn)).
    + intros Hg Ha. unfold APIcastFromCRContents.
      rewrite (bind_Normal getCR _ w _ w eq_refl), Hg, Ha.
      rewrite (bind_Normal (mret _) _ w _ w eq_refl).
      rewrite (bind_Normal (mret _) _ w _ w eq_refl).
      by rewrite (bind_Panicked _ _ _ _ _ (internalAPIcast_nil _ w Hn)).
  - intros n s Hn. destruct (internalAPIcast_set s w n Hn) as (a & ? & _). by exists a.
  - intros w' Hp. by apply Reconcile_panics_only_out_of_range in Hp.
Qed.
End Properties.

(** C7. The desired-state builder is deterministic: on the same custom
    resource and the same resolved secrets it answers the same, field for
    field (or panics the same), whatever the store, the journal and the
    allocator of the worlds it runs in, and it leaves its world as it was. *)
Theorem internalAPIcast_deterministic {St1 St2 : Type} `{!ApicastPkg}
    (w1 : @World St1) (w2 : @World St2) (s1 s2 : apicastUserProvidedSecrets) :
  APIcastCR w1 = APIcastCR w2 → s1 = s2 →
  outcomeOf (internalAPIcast s1 w1) = outcomeOf (internalAPIcast s2 w2)
  ∧ worldOf (internalAPIcast s1 w1) = w1
  ∧ worldOf (internalAPIcast s2 w2) = w2.
Proof.
  intros Hcr ->.
  unfold internalAPIcast, getCR, deref, gopanic. unfold mbind, M_bind, mret, M_ret.
  rewrite Hcr.
  by destruct (appsv1alpha1.Replicas (appsv1alpha1.Spec (APIcastCR w2))).
Qed.

(** ** The drivers, case by case *)

Section Drivers.
Context {St : Type} `{!Client St} `{!Libraries} `{!ApicastPkg}.
Implicit Types (w : @World St).

Ltac unfold_monad := unfold mbind, M_bind, mret, M_ret.

#[local] Arguments ptr_ne : simpl never.

Lemma CallUpdate_inj k (o o' : obj k) : CallUpdate k o = CallUpdate k o' → o = o'.
Proof.
  intros Heq. injection Heq as Heq.
  by apply (inj_pair2_eq_dec _ Kind_eq_dec) in Heq.
Qed.

(** X1. When the get of the desired object answers not-found, each of the
    three drivers (deployment, service, ingress) makes exactly one further
    call, the creation of the desired object as it was built, returns what
    that creation returned (its error, or nil), and leaves the store as the
    creation left it. *)
Theorem drivers_create_when_not_found w err :
  IsNotFound err = true →
  (∀ d, client_Get (store w) KDeployment (namespacedName KDeployment d) = inl err →
     newCalls (reconcileDeployment d) w
       = [CallGet KDeployment (namespacedName KDeployment d); CallCreate KDeployment d]
     ∧ answerOf (reconcileDeployment d w) = Some (client_Create (store w) KDeployment d).2
     ∧ store (worldOf (reconcileDeployment d w)) = (client_Create (store w) KDeployment d).1)
  ∧ (∀ s, client_Get (store w) KService (namespacedName KService s) = inl err →
     newCalls (reconcileService s) w
       = [CallGet KService (namespacedName KService s); CallCreate KService s]
     ∧ answerOf (reconcileService s w) = Some (client_Create (store w) KService s).2
     ∧ store (worldOf (reconcileService s w)) = (client_Create (store w) KService s).1)
  ∧ (∀ i, client_Get (store w) KIngress (namespacedName KIngress i) = inl err →
     newCalls (reconcileIngress i) w
       = [CallGet KIngress (namespacedName KIngress i); CallCreate KIngress i]
     ∧ answerOf (reconcileIngress i w) = Some (client_Create (store w) KIngress i).2
     ∧ store (worldOf (reconcileIngress i w)) = (client_Create (store w) KIngress i).1).
Proof.
  intros Hnf.
  split; [|split]; intros x Hget;
    unfold newCalls, reconcileDeployment, reconcileService, reconcileIngress,
      clientGet, clientCreate, journal, putStore;
    unfold_monad; simpl; rewrite Hget, Hnf; simpl;
    destruct (client_Create _ _ _) as [st e]; simpl;
    by rewrite <- ?app_assoc, ?drop_app_length.
Qed.

(** X2. When the get fails with an error other than not-found, each of the
    three drivers returns that very error after the get alone: nothing is
    created or updated and the store is as it was. *)
Theorem drivers_return_get_error w err :
  IsNotFound err = false →
  (∀ d, client_Get (store w) KDeployment (namespacedName KDeployment d) = inl err →
     newCalls (reconcileDeployment d) w = [CallGet KDeployment (namespacedName KDeployment d)]
     ∧ answerOf (reconcileDeployment d w) = Some (Some err)
     ∧ store (worldOf (reconcileDeployment d w)) = store w)
  ∧ (∀ s, client_Get (store w) KService (namespacedName KService s) = inl err →
     newCalls (reconcileService s) w = [CallGet KService (namespacedName KService s)]
     ∧ answerOf (reconcileService s w) = Some (Some err)
     ∧ store (worldOf (reconcileService s w)) = store w)
  ∧ (∀ i, client_Get (store w) KIngress (namespacedName KIngress i) = inl err →
     newCalls (reconcileIngress i) w = [CallGet KIngress (namespacedName KIngress i)]
     ∧ answerOf (reconcileIngress i w) = Some (Some err)
     ∧ store (worldOf (reconcileIngress i w)) = store w).
Proof.
  intros Hnf.
  split; [|split]; intros x Hget;
    unfold newCalls, reconcileDeployment, reconcileService, reconcileIngress,
      clientGet, journal;
    unfold_monad; simpl; rewrite Hget, Hnf; simpl;
    by rewrite drop_app_length.
Qed.

(** X3. What an update of the deployment carries: the object that was got,
    with only the managed fields replaced.  Its metadata, its pod-template
    labels, the name of its first container and all its further containers
    are those of the existing deployment; image, volume mounts, service
    account name, annotations and volumes are the desired ones; and every
    existing environment variable whose name the desired environment does not
    mention is still there. *)
Theorem reconcileDeployment_keeps_unmanaged_fields desired existing w w1 e0 erest d0 drest o :
  clientGet KDeployment (namespacedName KDeployment desired) w = Normal (inr existing) w1 →
  v1.Containers (podSpec existing) = e0 :: erest →
  v1.Containers (podSpec desired) = d0 :: drest →
  CallUpdate KDeployment o ∈ newCalls (reconcileDeployment desired) w →
  appsv1.dep_Meta o = appsv1.dep_Meta existing
  ∧ v1.tmpl_Labels (appsv1.Template (appsv1.dep_Spec o))
    = v1.tmpl_Labels (appsv1.Template (appsv1.dep_Spec existing))
  ∧ (∃ c0, v1.Containers (podSpec o) = c0 :: erest
           ∧ v1.c_Name c0 = v1.c_Name e0
           ∧ v1.Image c0 = v1.Image d0
           ∧ v1.VolumeMounts c0 = v1.VolumeMounts d0
           ∧ (∀ v, v ∈ v1.Env e0 → v1.ev_Name v ∉ map v1.ev_Name (v1.Env d0) → v ∈ v1.Env c0))
  ∧ v1.ServiceAccountName (podSpec o) = v1.ServiceAccountName (podSpec desired)
  ∧ v1.Annotations (appsv1.Template (appsv1.dep_Spec o))
    = v1.Annotations (appsv1.Template (appsv1.dep_Spec desired))
  ∧ v1.Volumes (podSpec o) = v1.Volumes (podSpec desired).
Proof.
  intros Hget He Hd Hin.
  destruct (reconcileDeployment_found desired existing w w1 e0 erest d0 drest Hget He Hd)
    as [Hyes Hno].
  destruct (clientGet_run KDeployment (namespacedName KDeployment desired) w)
    as (r & w1' & Hg & _ & _ & Hcalls).
  rewrite Hget in Hg. injection Hg as <- <-.
  destruct (deploymentDiffers_em existing desired e0 d0) as [Hdiff|Hsame].
  - unfold newCalls in Hin. rewrite (Hyes Hdiff), clientUpdate_run in Hin. simpl in Hin.
    rewrite Hcalls, <- app_assoc, drop_app_length in Hin.
    apply elem_of_cons in Hin as [Hin|Hin]; [done|].
    apply list_elem_of_singleton, CallUpdate_inj in Hin. subst o.
    repeat split. eexists. repeat split.
    intros v Hv Hn. simpl. by apply ReconcileEnvVar_keeps.
  - unfold newCalls in Hin. rewrite (Hno Hsame) in Hin. simpl in Hin.
    rewrite Hcalls, drop_app_length in Hin.
    by apply list_elem_of_singleton in Hin.
Qed.

(** X4. A deployment without containers, stored or desired, makes the
    driver panic with an index out of range (on [Containers[0]]) after the
    get and before any write: the journal holds the get alone and the store
    is as it was. *)
Theorem reconcileDeployment_without_containers_panics desired stored w :
  client_Get (store w) KDeployment (namespacedName KDeployment desired) = inr stored →
  v1.Containers (podSpec stored) = [] ∨ v1.Containers (podSpec desired) = [] →
  outcomeOf (reconcileDeployment desired w) = inr IndexOutOfRange
  ∧ newCalls (reconcileDeployment desired) w
    = [CallGet KDeployment (namespacedName KDeployment desired)]
  ∧ store (worldOf (reconcileDeployment desired w)) = store w.
Proof.
  intros Hget Hempty.
  unfold newCalls, reconcileDeployment, clientGet, journal, decode, alloc.
  unfold_monad. simpl. rewrite Hget.
  destruct stored as [emeta [erepl [eann elabels [esa econt evols]]]].
  unfold podSpec, setReplicas in *. simpl in *.
  destruct erepl as [p|]; simpl;
    destruct (ptr_ne _ _); simpl;
    destruct econt as [|e0 erest]; simpl; try (by rewrite drop_app_length);
    destruct Hempty as [?|Hd]; try done; rewrite Hd; simpl; by rewrite drop_app_length.
Qed.

Lemma rangeRules_last w h rules idx acc :
  appsv1alpha1.ExposedHost (appsv1alpha1.Spec (APIcastCR w)) = Some h →
  ∃ z, rangeRules rules idx acc w = Normal z w
       ∧ ((z = acc ∧ Forall (λ r, extensions.Host r ≠ appsv1alpha1.Host h) rules)
          ∨ ∃ (i : nat) r, z = idx + Z.of_nat i
                           ∧ rules !! i = Some r
                           ∧ extensions.Host r = appsv1alpha1.Host h
                           ∧ Forall (λ r, extensions.Host r ≠ appsv1alpha1.Host h)
                               (drop (S i) rules)).
Proof.
  intros Hh. revert idx acc.
  induction rules as [|rule rest IH]; intros idx acc; simpl.
  - exists acc. split; [done|]. by left.
  - rewrite (bind_Normal getCR _ w _ w eq_refl), Hh.
    rewrite (bind_Normal (deref (Some h)) _ w h w eq_refl).
    destruct (IH (idx + 1) (if decide (extensions.Host rule = appsv1alpha1.Host h)
                            then idx else acc)) as (z & Hz & Hcase).
    exists z. split; [done|].
    destruct Hcase as [[-> Hall]|(i & r & -> & Hi & Hr & Hlater)].
    + case_decide as Hrule.
      * right. exists 0%nat, rule. simpl. repeat split; [lia|done|done].
      * left. split; [done|]. by constructor.
    + right. exists (S i), r. simpl. repeat split; [lia|done..].
Qed.

(** X5. The loop of the ingress driver over the existing rules changes
    nothing and ends with -1 when no rule is for the exposed host, otherwise
    with the index of the last rule whose host is the exposed host. *)
Theorem rangeRules_finds_last_rule w h rules :
  appsv1alpha1.ExposedHost (appsv1alpha1.Spec (APIcastCR w)) = Some h →
  ∃ z, rangeRules rules 0 (-1) w = Normal z w
       ∧ ((z = -1 ∧ Forall (λ r, extensions.Host r ≠ appsv1alpha1.Host h) rules)
          ∨ ∃ (i : nat) r, z = Z.of_nat i
                           ∧ rules !! i = Some r
                           ∧ extensions.Host r = appsv1alpha1.Host h
                           ∧ Forall (λ r, extensions.Host r ≠ appsv1alpha1.Host h)
                               (drop (S i) rules)).
Proof.
  intros Hh. destruct (rangeRules_last w h rules 0 (-1) Hh) as (z & Hz & Hcase).
  exists z. split; [done|].
  destruct Hcase as [?|(i & r & -> & ?)]; [by left|right].
  exists i, r. split; [lia|done].
Qed.

(** X6. On a resource without exposed host (where [Reconcile] does not call
    it) the ingress driver dereferences the nil [ExposedHost] inside its loop:
    when the ingress it got has a rule it panics with a nil dereference after
    the get and before any write; when that ingress has no rule the loop body
    never runs, and the driver updates the ingress with the desired rules and
    TLS entries. *)
Theorem reconcileIngress_without_exposed_host desired existing w :
  appsv1alpha1.ExposedHost (appsv1alpha1.Spec (APIcastCR w)) = None →
  client_Get (store w) KIngress (namespacedName KIngress desired) = inr existing →
  let get := CallGet KIngress (namespacedName KIngress desired) in
  (extensions.Rules (extensions.ing_Spec existing) ≠ [] →
     outcomeOf (reconcileIngress desired w) = inr NilDereference
     ∧ newCalls (reconcileIngress desired) w = [get]
     ∧ store (worldOf (reconcileIngress desired w)) = store w)
  ∧ (extensions.Rules (extensions.ing_Spec existing) = [] →
     newCalls (reconcileIngress desired) w
       = [get; CallUpdate KIngress
                 (setTLS (extensions.TLS (extensions.ing_Spec desired))
                    (setRules (extensions.Rules (extensions.ing_Spec desired)) existing))]).
Proof.
  intros Hh Hget get.
  unfold newCalls, reconcileIngress, clientGet, clientUpdate, journal, putStore, decode.
  unfold_monad. simpl. rewrite Hget. simpl.
  destruct existing as [meta [tls rules]]. simpl.
  split.
  - intros Hne. destruct rules as [|rule rest]; [done|]. simpl.
    unfold getCR, deref, gopanic. unfold_monad. simpl. rewrite Hh. simpl.
    by rewrite drop_app_length.
  - intros ->. simpl. unfold setTLS, setRules. simpl.
    case_decide as Ht; simpl.
    + destruct (client_Update _ _ _) as [st [e|]]; simpl;
        by rewrite <- app_assoc, drop_app_length.
    + subst tls. destruct (client_Update _ _ _) as [st [e|]]; simpl;
        by rewrite <- app_assoc, drop_app_length.
Qed.
End Drivers.

(** ** The user secrets *)

Section Secrets.
Context {St : Type} `{!Client St} `{!Libraries} `{!ApicastPkg}.
Implicit Types (w : @World St).

Ltac unfold_monad := unfold mbind, M_bind, mret, M_ret.

Ltac solve_getter :=
  eexists _, _; (split; [reflexivity|]); simpl;
  repeat split; try done; try (by left); try (by right); try (by intros [=]).

Lemma getAdminPortalCredentialsSecret_reads w ref :
  appsv1alpha1.AdminPortalCredentialsRef (appsv1alpha1.Spec (APIcastCR w)) = Some ref →
  readsReference getAdminPortalCredentialsSecret ref w.
Proof.
  intros Href.
  unfold readsReference, getAdminPortalCredentialsSecret, getCR, deref, clientGet, journal,
    decode.
  unfold_monad. rewrite Href. simpl.
  case_decide; [solve_getter|].
  destruct (client_Get _ _ _) as [err|secret]; simpl; [solve_getter|].
  destruct (SecretStringDataFromData secret !! _) as [u|]; [|solve_getter].
  destruct (url_Parse u) as [err|parsed]; [solve_getter|].
  case_decide; solve_getter.
Qed.

Lemma getGatewayEmbeddedConfigSecret_reads w ref :
  appsv1alpha1.EmbeddedConfigurationSecretRef (appsv1alpha1.Spec (APIcastCR w)) = Some ref →
  readsReference getGatewayEmbeddedConfigSecret ref w.
Proof.
  intros Href.
  unfold readsReference, getGatewayEmbeddedConfigSecret, getCR, deref, clientGet, journal,
    decode.
  unfold_monad. rewrite Href. simpl.
  case_decide; [solve_getter|].
  destruct (client_Get _ _ _) as [err|secret]; simpl; [solve_getter|].
  destruct (SecretStringDataFromData secret !! _); solve_getter.
Qed.

(** X7. Given a reference, each of the two secret getters answers without
    panic, leaves the store, the resource and the allocator as they were,
    makes at most one call, the get of the secret the reference names in the
    namespace of the resource, and answers a secret or an error, never both
    and never neither, a secret only after that get.  On a nil reference
    (their callers test it first) they panic with a nil dereference. *)
Theorem secret_getters_only_read w :
  (∀ ref,
     appsv1alpha1.AdminPortalCredentialsRef (appsv1alpha1.Spec (APIcastCR w)) = Some ref →
     readsReference getAdminPortalCredentialsSecret ref w)
  ∧ (∀ ref,
     appsv1alpha1.EmbeddedConfigurationSecretRef (appsv1alpha1.Spec (APIcastCR w)) = Some ref →
     readsReference getGatewayEmbeddedConfigSecret ref w)
  ∧ (appsv1alpha1.AdminPortalCredentialsRef (appsv1alpha1.Spec (APIcastCR w)) = None →
     getAdminPortalCredentialsSecret w = Panicked NilDereference w)
  ∧ (appsv1alpha1.EmbeddedConfigurationSecretRef (appsv1alpha1.Spec (APIcastCR w)) = None →
     getGatewayEmbeddedConfigSecret w = Panicked NilDereference w).
Proof.
  split; [|split; [|split]].
  - intros ref Href. by apply getAdminPortalCredentialsSecret_reads.
  - intros ref Href. by apply getGatewayEmbeddedConfigSecret_reads.
  - intros Href. unfold getAdminPortalCredentialsSecret, getCR, deref, gopanic.
    unfold_monad. by rewrite Href.
  - intros Href. unfold getGatewayEmbeddedConfigSecret, getCR, deref, gopanic.
    unfold_monad. by rewrite Href.
Qed.

(** X8. The admin-portal getter answers the secret [secret] exactly when
    the reference has a name, the get of that name in the namespace of the
    resource returns [secret], its payload has the admin-portal URL key, that
    URL parses, and the parsed URL carries a non-empty user name (the access
    token). *)
Theorem getAdminPortalCredentialsSecret_succeeds_iff w ref secret :
  appsv1alpha1.AdminPortalCredentialsRef (appsv1alpha1.Spec (APIcastCR w)) = Some ref →
  answerOf (getAdminPortalCredentialsSecret w) = Some (Some secret, None)
  ↔ v1.lor_Name ref ≠ ""
    ∧ client_Get (store w) KSecret
        {| types.Name := v1.lor_Name ref;
           types.Namespace := appsv1alpha1.Namespace (APIcastCR w) |} = inr secret
    ∧ ∃ adminPortalURL parsedURL,
        v1.Data secret !! AdminPortalURLAttributeName = Some adminPortalURL
        ∧ url_Parse adminPortalURL = inr parsedURL
        ∧ Username (User parsedURL) ≠ "".
Proof.
  intros Href.
  destruct (decide (v1.lor_Name ref = "")) as [Hname|Hname].
  - rewrite (getAdminPortalCredentialsSecret_no_name w ref Href Hname). simpl.
    split; [done|]. by intros [? _].
  - rewrite (getAdminPortalCredentialsSecret_contract w ref Href Hname).
    destruct (client_Get _ _ _) as [err|s]; [split; [done|by intros (_ & ? & _)]|].
    destruct (v1.Data s !! AdminPortalURLAttributeName) as [u|] eqn:Hu.
    2:{ split; [done|]. intros (_ & [= <-] & u & p & Hu' & _). congruence. }
    destruct (url_Parse u) as [err|parsed] eqn:Hp.
    { split; [done|]. intros (_ & [= <-] & u' & p & Hu' & Hp' & _). congruence. }
    case_decide as Htok.
    + split; [done|]. intros (_ & [= <-] & u' & p & Hu' & Hp' & Hne).
      rewrite Hu in Hu'. injection Hu' as <-. rewrite Hp in Hp'. injection Hp' as <-. done.
    + split.
      * intros [= <-]. repeat split; [done|]. by exists u, parsed.
      * intros (_ & [= <-] & _). done.
Qed.

(** X9. The embedded-configuration getter answers the secret [secret]
    exactly when the reference has a name, the get of that name in the
    namespace of the resource returns [secret], and its payload has the
    embedded-configuration key (whatever its value). *)
Theorem getGatewayEmbeddedConfigSecret_succeeds_iff w ref secret :
  appsv1alpha1.EmbeddedConfigurationSecretRef (appsv1alpha1.Spec (APIcastCR w)) = Some ref →
  answerOf (getGatewayEmbeddedConfigSecret w) = Some (Some secret, None)
  ↔ v1.lor_Name ref ≠ ""
    ∧ client_Get (store w) KSecret
        {| types.Name := v1.lor_Name ref;
           types.Namespace := appsv1alpha1.Namespace (APIcastCR w) |} = inr secret
    ∧ is_Some (v1.Data secret !! EmbeddedConfigurationSecretKey).
Proof.
  intros Href.
  unfold getGatewayEmbeddedConfigSecret, getCR, deref, clientGet, journal, decode.
  unfold_monad. rewrite Href. simpl.
  case_decide as Hname; simpl; [split; [done|by intros [? _]]|].
  destruct (client_Get _ _ _) as [err|s]; simpl; [split; [done|by intros (_ & ? & _)]|].
  unfold SecretStringDataFromData.
  destruct (v1.Data s !! EmbeddedConfigurationSecretKey) as [c|] eqn:Hc; simpl.
  - split.
    + intros [= <-]. repeat split; [done|]. by rewrite Hc.
    + intros (_ & [= <-] & _). done.
  - split; [done|]. intros (_ & [= <-] & Hsome). rewrite Hc in Hsome. by destruct Hsome.
Qed.

(** What the owner-reference part of a secret stage does with the secret it got. *)
Lemma own_secret_effect (secret : v1.Secret) w :
  let owned := SetControllerReference (APIcastCR w) (v1.sec_Meta secret) in
  let secret' := setSecretMeta owned.1 secret in
  let sameCount := length (metav1.OwnerReferences owned.1)
                   = length (metav1.OwnerReferences (v1.sec_Meta secret)) in
  let stage : M (option v1.Secret * bool * option error) :=
    secret ← deref (Some secret);
    '(secret, changed, err) ← ensureOwnerReference secret;
    match err with
    | Some err => mret (None, changed, Some err)
    | None =>
        if changed : bool then
          err ← clientUpdate KSecret secret;
          match err with
          | Some err => mret (None, changed, Some err)
          | None => mret (Some secret, changed, None)
          end
        else mret (Some secret, changed, None)
    end in
  (∀ e, owned.2 = Some e → stage w = Normal (None, false, Some e) w)
  ∧ (owned.2 = None → sameCount → stage w = Normal (Some secret', false, None) w)
  ∧ (owned.2 = None → ¬ sameCount →
     stage w
     = Normal (match (client_Update (store w) KSecret secret').2 with
               | Some e => (None, true, Some e)
               | None => (Some secret', true, None)
               end)
         {| store := (client_Update (store w) KSecret secret').1;
            calls := calls w ++ [CallUpdate KSecret secret'];
            heapNext := heapNext w; APIcastCR := APIcastCR w |}).
Proof.
  intros owned secret' sameCount stage. unfold stage, secret', sameCount, owned.
  unfold ensureOwnerReference, setOwnerReference, getCR, deref, clientUpdate, journal, putStore.
  unfold_monad.
  destruct (SetControllerReference (APIcastCR w) (v1.sec_Meta secret)) as [m [e|]]; simpl.
  - repeat split; [by intros ? [= <-]|done..].
  - repeat split; [done| |].
    + intros _ Hsame. by rewrite decide_False by (by intros ?; congruence).
    + intros _ Hdiff. rewrite decide_True by (by intros ?; congruence).
      by destruct (client_Update _ _ _) as [st [e|]].
Qed.


(** X15. [APIcastFromCRContents] only reads: whatever it answers (a gateway,
    an error or a panic) the store, the resource and the allocator are as
    they were, and its calls are at most two, each the get of a secret. *)
Theorem APIcastFromCRContents_only_reads w :
  let after := worldOf (APIcastFromCRContents w) in
  store after = store w
  ∧ APIcastCR after = APIcastCR w
  ∧ heapNext after = heapNext w
  ∧ Forall (λ c, ∃ key, c = CallGet KSecret key) (newCalls APIcastFromCRContents w)
  ∧ (length (newCalls APIcastFromCRContents w) ≤ 2)%nat.
Proof.
  assert (Hstep : ∀ (get : M (option v1.Secret * option error))
                    (oref : option v1.LocalObjectReference) w0,
            (∀ ref, oref = Some ref → readsReference get ref w0) →
            ∃ r w', (match oref with Some _ => get | None => mret (None, None) end) w0
                    = Normal r w'
                    ∧ store w' = store w0 ∧ APIcastCR w' = APIcastCR w0
                    ∧ heapNext w' = heapNext w0
                    ∧ ∃ l, calls w' = calls w0 ++ l
                           ∧ Forall (λ c, ∃ key, c = CallGet KSecret key) l
                           ∧ (length l ≤ 1)%nat).
  { intros get [ref|] w0 Hreads.
    - destruct (Hreads ref eq_refl) as (r & w' & Hrun & ? & ? & ? & [Hc|Hc] & _ & _);
        exists r, w'; repeat split; try done.
      + exists []. rewrite app_nil_r. repeat split; [done|constructor|simpl; lia].
      + eexists. split; [exact Hc|]. split; [|simpl; lia].
        constructor; [by eexists|constructor].
    - exists (None, None), w0. repeat split. exists []. rewrite app_nil_r.
      repeat split; [constructor|simpl; lia]. }
  intros after. unfold after, newCalls, APIcastFromCRContents.
  rewrite (bind_Normal getCR _ w _ w eq_refl).
  destruct (Hstep getGatewayEmbeddedConfigSecret
              (appsv1alpha1.EmbeddedConfigurationSecretRef (appsv1alpha1.Spec (APIcastCR w))) w
              (getGatewayEmbeddedConfigSecret_reads w))
    as ([g gerr] & w1 & Hg & Hst1 & Hcr1 & Hh1 & l1 & Hl1 & Hall1 & Hlen1).
  rewrite (bind_Normal _ _ _ _ _ Hg).
  destruct gerr as [e|].
  { simpl. rewrite Hl1, drop_app_length. repeat split; try done. lia. }
  destruct (Hstep getAdminPortalCredentialsSecret
              (appsv1alpha1.AdminPortalCredentialsRef (appsv1alpha1.Spec (APIcastCR w))) w1)
    as ([a aerr] & w2 & Ha & Hst2 & Hcr2 & Hh2 & l2 & Hl2 & Hall2 & Hlen2).
  { intros ref Href. apply getAdminPortalCredentialsSecret_reads. by rewrite Hcr1. }
  rewrite (bind_Normal _ _ _ _ _ Ha).
  assert (Hcalls : calls w2 = calls w ++ (l1 ++ l2)) by (by rewrite Hl2, Hl1, app_assoc).
  assert (Hfin : store w2 = store w ∧ APIcastCR w2 = APIcastCR w ∧ heapNext w2 = heapNext w
                 ∧ Forall (λ c, ∃ key, c = CallGet KSecret key)
                     (drop (length (calls w)) (calls w2))
                 ∧ (length (drop (length (calls w)) (calls w2)) ≤ 2)%nat).
  { rewrite Hcalls, drop_app_length, length_app. repeat split; try congruence.
    - by apply Forall_app.
    - lia. }
  destruct aerr as [e|]; [exact Hfin|].
  unfold internalAPIcast, getCR, deref, gopanic. unfold_monad.
  by destruct (appsv1alpha1.Replicas (appsv1alpha1.Spec (APIcastCR w2))).
Qed.

(** X16. The two paths resolve the user secrets in opposite order.  On a
    resource with the replica count set and two secret references without
    name, [Reconcile] returns the error of the admin-portal reference and
    [APIcastFromCRContents] the error of the embedded-configuration
    reference, each without any call. *)
Theorem resolution_order_differs w admin config n :
  appsv1alpha1.Replicas (appsv1alpha1.Spec (APIcastCR w)) = Some n →
  appsv1alpha1.AdminPortalCredentialsRef (appsv1alpha1.Spec (APIcastCR w)) = Some admin →
  appsv1alpha1.EmbeddedConfigurationSecretRef (appsv1alpha1.Spec (APIcastCR w)) = Some config →
  v1.lor_Name admin = "" → v1.lor_Name config = "" →
  Reconcile w
    = Normal ({| Requeue := false |}, Some (ReferenceIncomplete "AdminPortalCredentialsRef")) w
  ∧ APIcastFromCRContents w
    = Normal (None, Some (ReferenceIncomplete "EmbeddedConfigurationSecretRef")) w.
Proof.
  intros Hn Ha Hc Hna Hnc. split.
  - assert (Hrec : reconcileAdminPortalCredentials w
                   = Normal (None, false,
                             Some (ReferenceIncomplete "AdminPortalCredentialsRef")) w).
    { unfold reconcileAdminPortalCredentials.
      rewrite (bind_Normal getCR _ w _ w eq_refl), Ha.
      by rewrite (bind_Normal _ _ _ _ _
                    (getAdminPortalCredentialsSecret_no_name w admin Ha Hna)). }
    unfold Reconcile. rewrite (bind_Normal _ _ _ _ _ (initialize_set w n Hn)). simpl.
    by rewrite (bind_Normal _ _ _ _ _ Hrec).
  - unfold APIcastFromCRContents, getGatewayEmbeddedConfigSecret, getCR, deref.
    unfold_monad. rewrite Hc. simpl. rewrite Hc. simpl. by rewrite Hnc.
Qed.
End Secrets.

(** ** Initialization and the desired state *)

Section Building.
Context {St : Type} `{!Client St} `{!Libraries} `{!ApicastPkg}.
Implicit Types (w : @World St).

Ltac unfold_monad := unfold mbind, M_bind, mret, M_ret.

Lemma annotation_keys_differ :
  AdmPortalSecretResverAnnotation ≠ GatewayConfigurationSecretResverAnnotation.
Proof. by compute. Qed.

Lemma annotations_lookup (s : apicastUserProvidedSecrets) :
  UserProvidedSecretResourceVersionAnnotations s !! AdmPortalSecretResverAnnotation
    = resourceVersionOf (adminPortalCredentialsSecret s)
  ∧ UserProvidedSecretResourceVersionAnnotations s !! GatewayConfigurationSecretResverAnnotation
    = resourceVersionOf (gatewayEmbeddedConfigSecret s)
  ∧ ∀ k, k ≠ AdmPortalSecretResverAnnotation → k ≠ GatewayConfigurationSecretResverAnnotation →
         UserProvidedSecretResourceVersionAnnotations s !! k = None.
Proof.
  pose proof annotation_keys_differ as Hne.
  unfold UserProvidedSecretResourceVersionAnnotations, resourceVersionOf.
  destruct (adminPortalCredentialsSecret s) as [a|],
           (gatewayEmbeddedConfigSecret s) as [g|]; simpl;
    repeat split; intros; by simplify_map_eq.
Qed.

(** X11. The annotations computed from two sets of resolved secrets are equal
    exactly when the two sets agree, secret for secret, on whether the secret
    is there and on its resource version: a new version of either secret, its
    arrival or its removal changes the annotations of the pod template. *)
Theorem annotations_track_resource_versions (s1 s2 : apicastUserProvidedSecrets) :
  UserProvidedSecretResourceVersionAnnotations s1
    = UserProvidedSecretResourceVersionAnnotations s2
  ↔ resourceVersionOf (adminPortalCredentialsSecret s1)
      = resourceVersionOf (adminPortalCredentialsSecret s2)
    ∧ resourceVersionOf (gatewayEmbeddedConfigSecret s1)
      = resourceVersionOf (gatewayEmbeddedConfigSecret s2).
Proof.
  destruct (annotations_lookup s1) as (Ha1 & Hg1 & Ho1).
  destruct (annotations_lookup s2) as (Ha2 & Hg2 & Ho2).
  split.
  - intros Heq. rewrite <- Ha1, <- Ha2, <- Hg1, <- Hg2. by rewrite Heq.
  - intros [Ha Hg]. apply map_eq. intros k.
    destruct (decide (k = AdmPortalSecretResverAnnotation)) as [->|Hk1]; [congruence|].
    destruct (decide (k = GatewayConfigurationSecretResverAnnotation)) as [->|Hk2];
      [congruence|].
    by rewrite Ho1, Ho2.
Qed.

Lemma int32_range x : -2 ^ 31 ≤ int32 x < 2 ^ 31.
Proof. unfold int32. pose proof (Z.mod_pos_bound (x + 2 ^ 31) (2 ^ 32)). lia. Qed.

Lemma int32_congruent x : (int32 x - x) `mod` 2 ^ 32 = 0.
Proof.
  unfold int32. rewrite (Z.mod_eq (x + 2 ^ 31)) by lia.
  replace (x + 2 ^ 31 - 2 ^ 32 * ((x + 2 ^ 31) `div` 2 ^ 32) - 2 ^ 31 - x)
    with (- ((x + 2 ^ 31) `div` 2 ^ 32) * 2 ^ 32) by lia.
  apply Z.mod_mul. lia.
Qed.

Lemma int32_id x : -2 ^ 31 ≤ x < 2 ^ 31 → int32 x = x.
Proof. intros Hx. unfold int32. rewrite Z.mod_small by lia. lia. Qed.

(** X12. With the replica count set to [n] (an [int64]) the desired-state
    builder answers without error in the world it started from, and the
    replica count it gives is [int32(n)]: within 32 bits, congruent to [n]
    modulo 2^32, and equal to [n] exactly when [n] fits 32 bits. *)
Theorem internalAPIcast_replicas_wrap s w n :
  appsv1alpha1.Replicas (appsv1alpha1.Spec (APIcastCR w)) = Some n →
  ∃ a, internalAPIcast s w = Normal (a, None) w
       ∧ -2 ^ 31 ≤ apicast.Replicas a < 2 ^ 31
       ∧ (apicast.Replicas a - n) `mod` 2 ^ 32 = 0
       ∧ (apicast.Replicas a = n ↔ -2 ^ 31 ≤ n < 2 ^ 31).
Proof.
  intros Hn. destruct (internalAPIcast_set s w n Hn) as (a & Ha & Hr).
  exists a. rewrite Hr. split; [done|]. split; [apply int32_range|].
  split; [apply int32_congruent|]. split.
  - intros <-. apply int32_range.
  - apply int32_id.
Qed.

Lemma append_inj_l (p s1 s2 : string) : p +:+ s1 = p +:+ s2 → s1 = s2.
Proof. induction p as [|c p IH]; simpl; [done|]. intros [= Heq]. by apply IH. Qed.

(** X13. The names the desired-state builder gives: the service is named as
    the deployment, in the namespace of the resource; two resources get the
    same deployment name exactly when they have the same name; and the owner
    reference is a controller reference with the name and UID of the
    resource. *)
Theorem internalAPIcast_names (w1 w2 w1' w2' : @World St) s1 s2 a1 a2 :
  internalAPIcast s1 w1 = Normal (a1, None) w1' →
  internalAPIcast s2 w2 = Normal (a2, None) w2' →
  apicast.ServiceName a1 = apicast.DeploymentName a1
  ∧ apicast.Namespace a1 = appsv1alpha1.Namespace (APIcastCR w1)
  ∧ (apicast.DeploymentName a1 = apicast.DeploymentName a2
     ↔ appsv1alpha1.Name (APIcastCR w1) = appsv1alpha1.Name (APIcastCR w2))
  ∧ ∃ owner, apicast.OwnerReference a1 = Some owner
             ∧ metav1.Controller owner = Some true
             ∧ metav1.Name owner = appsv1alpha1.Name (APIcastCR w1)
             ∧ metav1.UID owner = appsv1alpha1.UID (APIcastCR w1).
Proof.
  unfold internalAPIcast, getCR, deref, gopanic. unfold_monad.
  destruct (appsv1alpha1.Replicas (appsv1alpha1.Spec (APIcastCR w1))); [|done].
  destruct (appsv1alpha1.Replicas (appsv1alpha1.Spec (APIcastCR w2))); [|done].
  intros [= <- _] [= <- _]. simpl. repeat split.
  - apply append_inj_l.
  - by intros ->.
  - eexists. by repeat split.
Qed.

(** X14. [applyInitialization] answers true exactly when the replica count
    was not set; afterwards the count is what it was, or 1 when it was not
    set; nothing else of the resource has changed; no call is made and the
    store is as it was; applied again it answers false and changes nothing,
    and [initialize] then makes no update. *)
Theorem applyInitialization_fills_only_unset_replicas w :
  let before := APIcastCR w in
  let after := worldOf (applyInitialization w) in
  answerOf (applyInitialization w)
    = Some (bool_decide (appsv1alpha1.Replicas (appsv1alpha1.Spec before) = None))
  ∧ appsv1alpha1.Replicas (appsv1alpha1.Spec (APIcastCR after))
    = Some (default 1 (appsv1alpha1.Replicas (appsv1alpha1.Spec before)))
  ∧ setSpecReplicas (appsv1alpha1.Replicas (appsv1alpha1.Spec before)) (APIcastCR after)
    = before
  ∧ store after = store w ∧ calls after = calls w
  ∧ applyInitialization after = Normal false after
  ∧ initialize after = Normal (false, None) after.
Proof.
  unfold initialize, applyInitialization, getCR, setCR. unfold_monad.
  destruct (APIcastCR w) as [meta spec] eqn:Hcr. destruct spec. simpl.
  destruct Replicas as [n|]; simpl.
  - rewrite Hcr. simpl. repeat split.
  - repeat split.
Qed.
End Building.

(** ** The journal of a pass *)

Section Pass.
Context {St : Type} `{!Client St} `{!Libraries} `{!ApicastPkg}.
Implicit Types (w : @World St).

Ltac unfold_monad := unfold mbind, M_bind, mret, M_ret.

(** The journal of a secret stage, from the getter's footprint. *)
Lemma secret_stage_journal (get : M (option v1.Secret * option error))
    (oref : option v1.LocalObjectReference) w :
  (∀ ref, oref = Some ref → readsReference get ref w) →
  let stage : M (option v1.Secret * bool * option error) :=
    match oref with
    | None => mret (None, false, None)
    | Some _ =>
        '(got, err) ← get;
        match err with
        | Some err => mret (None, false, Some err)
        | None =>
            secret ← deref got;
            '(secret, changed, err) ← ensureOwnerReference secret;
            match err with
            | Some err => mret (None, changed, Some err)
            | None =>
                if changed : bool then
                  err ← clientUpdate KSecret secret;
                  match err with
                  | Some err => mret (None, changed, Some err)
                  | None => mret (Some secret, changed, None)
                  end
                else mret (Some secret, changed, None)
            end
        end
    end in
  ∃ s changed err w1 l,
    stage w = Normal (s, changed, err) w1
    ∧ APIcastCR w1 = APIcastCR w
    ∧ calls w1 = calls w ++ l
    ∧ secretStageJournal l (stageStop changed err).
Proof.
  intros Hreads stage. unfold stage. destruct oref as [ref|].
  2:{ exists None, false, None, w, []. rewrite app_nil_r. repeat split.
      left. split; by left. }
  destruct (Hreads ref eq_refl) as ([got gerr] & w0 & Hget & Hst & Hcr & Hheap & Hcalls & Hnil & Hok).
  rewrite (bind_Normal _ _ _ _ _ Hget).
  destruct gerr as [e|].
  { exists None, false, (Some e), w0.
    destruct Hcalls as [Hc|Hc].
    - exists []. rewrite app_nil_r. repeat split; [done..|].
      left. split; [by left|right; by eexists].
    - eexists. repeat split; [done..|].
      left. split; [right; by eexists|right; by eexists]. }
  simpl in Hnil, Hok. specialize (Hok eq_refl).
  destruct got as [secret|]. 2:{ destruct Hnil as [Hnil _]. by specialize (Hnil eq_refl). }
  pose proof (own_secret_effect secret w0) as Heff. simpl in Heff.
  destruct Heff as (Herr & Hsame & Hdiff).
  destruct (SetControllerReference (APIcastCR w0) (v1.sec_Meta secret)) as [m oerr] eqn:Hscr.
  simpl in *.
  destruct oerr as [e|].
  - rewrite (Herr e eq_refl). eexists _, _, _, _, _. repeat split; [done|exact Hok|].
    left. split; [right; by eexists|right; by eexists].
  - destruct (decide (length (metav1.OwnerReferences m)
                      = length (metav1.OwnerReferences (v1.sec_Meta secret)))) as [Hlen|Hlen].
    + rewrite (Hsame eq_refl Hlen). eexists _, _, _, _, _. repeat split; [done|exact Hok|].
      left. split; [right; by eexists|by left].
    + rewrite (Hdiff eq_refl Hlen).
      destruct (client_Update _ _ _) as [st [e|]]; simpl;
        eexists _, _, _, _, _; (split; [done|]); simpl;
        (split; [done|]); (split; [by rewrite Hok, <- app_assoc|]);
        right; eexists _, _; (split; [done|]); [right; by eexists|by left].
Qed.

Lemma reconcileAdminPortalCredentials_journal w :
  ∃ s changed err w1 l,
    reconcileAdminPortalCredentials w = Normal (s, changed, err) w1
    ∧ APIcastCR w1 = APIcastCR w
    ∧ calls w1 = calls w ++ l
    ∧ secretStageJournal l (stageStop changed err).
Proof.
  pose proof (secret_stage_journal getAdminPortalCredentialsSecret
                (appsv1alpha1.AdminPortalCredentialsRef (appsv1alpha1.Spec (APIcastCR w))) w
                (getAdminPortalCredentialsSecret_reads w)) as Hstage.
  unfold reconcileAdminPortalCredentials.
  by rewrite (bind_Normal getCR _ w _ w eq_refl).
Qed.

Lemma reconcileGatewayEmbbededConfig_journal w :
  ∃ s changed err w1 l,
    reconcileGatewayEmbbededConfig w = Normal (s, changed, err) w1
    ∧ APIcastCR w1 = APIcastCR w
    ∧ calls w1 = calls w ++ l
    ∧ secretStageJournal l (stageStop changed err).
Proof.
  pose proof (secret_stage_journal getGatewayEmbeddedConfigSecret
                (appsv1alpha1.EmbeddedConfigurationSecretRef (appsv1alpha1.Spec (APIcastCR w))) w
                (getGatewayEmbeddedConfigSecret_reads w)) as Hstage.
  unfold reconcileGatewayEmbbededConfig.
  by rewrite (bind_Normal getCR _ w _ w eq_refl).
Qed.

Lemma reconcileDeployment_journal desired w :
  ∃ l, calls (worldOf (reconcileDeployment desired w)) = calls w ++ l
       ∧ driverJournal KDeployment l
       ∧ APIcastCR (worldOf (reconcileDeployment desired w)) = APIcastCR w
       ∧ ((∃ err w', reconcileDeployment desired w = Normal err w')
          ∨ ∃ w', reconcileDeployment desired w = Panicked IndexOutOfRange w').
Proof.
  destruct (clientGet_run KDeployment (namespacedName KDeployment desired) w)
    as (r & w1 & Hg & Hcr & _ & Hcalls).
  destruct r as [err|existing].
  - unfold reconcileDeployment. rewrite (bind_Normal _ _ _ _ _ Hg).
    destruct (IsNotFound err).
    + rewrite clientCreate_run. simpl. eexists. rewrite Hcalls, <- app_assoc.
      repeat split; [|done|left; by eexists _, _].
      eexists. right. left. by eexists.
    + simpl. eexists. repeat split; [done| |done|left; by eexists _, _].
      eexists. by left.
  - assert (Hget_only : driverJournal KDeployment
                          [CallGet KDeployment (namespacedName KDeployment desired)])
      by (eexists; by left).
    destruct (v1.Containers (podSpec existing)) as [|e0 erest] eqn:He.
    { exists [CallGet KDeployment (namespacedName KDeployment desired)].
      unfold reconcileDeployment. rewrite (bind_Normal _ _ _ _ _ Hg).
      destruct existing as [emeta [erepl [eann elabels [esa econt evols]]]].
      unfold podSpec in He. simpl in He. subst econt.
      unfold setReplicas, podSpec. simpl.
      destruct (ptr_ne _ _); simpl; repeat split; try done; right; by eexists. }
    destruct (v1.Containers (podSpec desired)) as [|d0 drest] eqn:Hd.
    { exists [CallGet KDeployment (namespacedName KDeployment desired)].
      unfold reconcileDeployment. rewrite (bind_Normal _ _ _ _ _ Hg).
      destruct existing as [emeta [erepl [eann elabels [esa econt evols]]]].
      unfold podSpec in He. simpl in He. subst econt.
      unfold setReplicas, podSpec in *. simpl. rewrite Hd.
      destruct (ptr_ne _ _); simpl; repeat split; try done; right; by eexists. }
    destruct (reconcileDeployment_found desired existing w w1 e0 erest d0 drest Hg He Hd)
      as [Hyes Hno].
    destruct (deploymentDiffers_em existing desired e0 d0) as [Hdiff|Hdiff].
    + rewrite (Hyes Hdiff), clientUpdate_run. simpl. eexists. rewrite Hcalls, <- app_assoc.
      repeat split; [|done|left; by eexists _, _].
      eexists. right. right. split; [done|]. by eexists.
    + rewrite (Hno Hdiff). simpl. eexists. repeat split; [done..|left; by eexists _, _].
Qed.

Lemma reconcileService_journal desired w :
  ∃ err w' l, reconcileService desired w = Normal err w'
              ∧ calls w' = calls w ++ l
              ∧ driverJournal KService l
              ∧ APIcastCR w' = APIcastCR w.
Proof.
  unfold reconcileService.
  destruct (clientGet_run KService (namespacedName KService desired) w)
    as (r & w1 & Hg & Hcr & _ & Hcalls).
  rewrite (bind_Normal _ _ _ _ _ Hg).
  destruct r as [err|existing].
  - destruct (IsNotFound err).
    + rewrite clientCreate_run. eexists _, _, _. split; [done|]. simpl.
      rewrite Hcalls, <- app_assoc. repeat split; [|done].
      eexists. right. left. by eexists.
    + eexists _, _, _. split; [done|]. repeat split; [done| |done]. eexists. by left.
  - eexists _, _, _. split; [done|]. repeat split; [done| |done]. eexists. by left.
Qed.

Lemma reconcileIngress_journal desired w h :
  appsv1alpha1.ExposedHost (appsv1alpha1.Spec (APIcastCR w)) = Some h →
  ∃ err w' l, reconcileIngress desired w = Normal err w'
              ∧ calls w' = calls w ++ l
              ∧ driverJournal KIngress l
              ∧ APIcastCR w' = APIcastCR w.
Proof.
  intros Hh. unfold reconcileIngress.
  destruct (clientGet_run KIngress (namespacedName KIngress desired) w)
    as (r & w1 & Hg & Hcr & _ & Hcalls).
  rewrite (bind_Normal _ _ _ _ _ Hg).
  destruct r as [err|existing].
  - destruct (IsNotFound err).
    + rewrite clientCreate_run. eexists _, _, _. split; [done|]. simpl.
      rewrite Hcalls, <- app_assoc. repeat split; [|done].
      eexists. right. left. by eexists.
    + eexists _, _, _. split; [done|]. repeat split; [done| |done]. eexists. by left.
  - rewrite <- Hcr in Hh.
    destruct (rangeRules_run w1 h (extensions.Rules (extensions.ing_Spec existing))
                0 (-1) Hh ltac:(lia)) as (z & Hz & _).
    rewrite (bind_Normal _ _ _ _ _ Hz).
    assert (Hupd : ∀ o, ∃ err w' l,
               (err ← clientUpdate KIngress o;
                match err with Some err => mret (Some err) | None => mret None end) w1
               = Normal err w'
               ∧ calls w' = calls w ++ l ∧ driverJournal KIngress l
               ∧ APIcastCR w' = APIcastCR w).
    { intros o. rewrite (bind_Normal _ _ _ _ _ (clientUpdate_run _ _ _)).
      destruct (client_Update _ _ _).2; eexists _, _, _; (split; [done|]); simpl;
        rewrite Hcalls, <- app_assoc; (repeat split; [|done]);
        eexists; right; right; (split; [done|]); by eexists. }
    destruct (decide (z = -1)); simpl; case_decide; simpl; try apply Hupd.
    eexists _, _, _. split; [done|]. repeat split; [done| |done]. eexists. by left.
Qed.

(** The journal of a pass and its answer, by the stage the pass ends in. *)
Lemma Reconcile_journal w :
  passJournal (exposed (APIcastCR w)) (answerOf (Reconcile w)) (newCalls Reconcile w).
Proof.
  unfold newCalls, Reconcile.
  destruct (appsv1alpha1.Replicas (appsv1alpha1.Spec (APIcastCR w))) as [n|] eqn:Hn.
  2:{ unfold initialize, applyInitialization, getCR, setCR, clientUpdate, journal, putStore.
      unfold_monad. rewrite Hn. simpl.
      destruct (client_Update _ _ _) as [st [err|]]; simpl; rewrite drop_app_length;
        constructor; [right; by eexists|by left]. }
  rewrite (bind_Normal _ _ _ _ _ (initialize_set w n Hn)). simpl.
  destruct (reconcileAdminPortalCredentials_journal w)
    as (a & achanged & aerr & w1 & la & Ha & Hcr1 & Hc1 & Hja).
  rewrite (bind_Normal _ _ _ _ _ Ha).
  destruct aerr as [e|].
  { simpl. rewrite Hc1, drop_app_length. by apply EndsInAdminSecret. }
  destruct achanged.
  { simpl. rewrite Hc1, drop_app_length. by apply EndsInAdminSecret. }
  destruct (reconcileGatewayEmbbededConfig_journal w1)
    as (g & gchanged & gerr & w2 & lc & Hg & Hcr2 & Hc2 & Hjc).
  rewrite (bind_Normal _ _ _ _ _ Hg).
  destruct gerr as [e|].
  { simpl. rewrite Hc2, Hc1, <- app_assoc, drop_app_length. by apply EndsInConfigSecret. }
  destruct gchanged.
  { simpl. rewrite Hc2, Hc1, <- app_assoc, drop_app_length. by apply EndsInConfigSecret. }
  assert (Hn2 : appsv1alpha1.Replicas (appsv1alpha1.Spec (APIcastCR w2)) = Some n)
    by congruence.
  destruct (internalAPIcast_set
              {| adminPortalCredentialsSecret := a; gatewayEmbeddedConfigSecret := g |}
              w2 n Hn2) as (desired & Hi & _).
  rewrite (bind_Normal _ _ _ _ _ Hi).
  rewrite (bind_Normal alloc _ w2 _ _ eq_refl).
  match goal with |- context [reconcileDeployment ?d ≫= _] => set (dep := d) end.
  match goal with |- context [(_ ≫= _) ?x] => set (w3 := x) end.
  assert (Hc3 : calls w3 = calls w ++ (la ++ lc)) by (simpl; by rewrite Hc2, Hc1, app_assoc).
  assert (Hcr3 : APIcastCR w3 = APIcastCR w) by (simpl; congruence).
  clearbody w3.
  destruct (reconcileDeployment_journal dep w3) as (ld & Hcd & Hjd & Hcrd & Hres).
  destruct Hres as [(derr & w4 & Hd)|(w4 & Hd)].
  2:{ rewrite (bind_Panicked _ _ _ _ _ Hd). rewrite Hd in Hcd. simpl in *.
      rewrite Hcd, Hc3, <- !app_assoc, drop_app_length.
      apply EndsInDeployment; [done..|by left]. }
  rewrite (bind_Normal _ _ _ _ _ Hd). rewrite Hd in Hcd, Hcrd. simpl in Hcd, Hcrd.
  destruct derr as [e|].
  { simpl. rewrite Hcd, Hc3, <- !app_assoc, drop_app_length.
    apply EndsInDeployment; [done..|right; by eexists]. }
  destruct (reconcileService_journal (Service desired) w4) as (serr & w5 & ls & Hs & Hcs & Hjs & Hcrs).
  rewrite (bind_Normal _ _ _ _ _ Hs).
  destruct serr as [e|].
  { simpl. rewrite Hcs, Hcd, Hc3, <- !app_assoc, drop_app_length.
    by apply EndsInService. }
  rewrite (bind_Normal getCR _ w5 _ w5 eq_refl).
  assert (Hcr5 : APIcastCR w5 = APIcastCR w) by congruence.
  rewrite Hcr5.
  destruct (appsv1alpha1.ExposedHost (appsv1alpha1.Spec (APIcastCR w))) as [h|] eqn:Hh.
  - rewrite <- Hcr5 in Hh.
    destruct (reconcileIngress_journal (Ingress desired) w5 h Hh)
      as (ierr & w6 & li & Hin & Hci & Hji & _).
    rewrite (bind_Normal _ _ _ _ _ Hin).
    assert (Hall : calls w6 = calls w ++ (la ++ lc ++ ld ++ ls ++ li))
      by (by rewrite Hci, Hcs, Hcd, Hc3, <- !app_assoc).
    assert (Hexp : exposed (APIcastCR w) = true).
    { unfold exposed. rewrite <- Hcr5, Hh. by apply bool_decide_eq_true. }
    destruct ierr as [e|]; simpl; rewrite Hall, drop_app_length; by apply EndsInIngress.
  - simpl. rewrite Hcs, Hcd, Hc3, <- !app_assoc, drop_app_length.
    apply EndsWithoutIngress; try done.
    unfold exposed. rewrite Hh. apply bool_decide_eq_false. by intros [? ?].
Qed.
End Pass.

(** ** What a pass calls, and when it ends *)

Section PassProperties.
Context {St : Type} `{!Client St} `{!Libraries} `{!ApicastPkg}.
Implicit Types (w : @World St).

Ltac break_journals :=
  repeat match goal with
  | H : secretStageJournal _ _ |- _ =>
      destruct H as [[[->|[? ->]] [?|[? ?]]]|(? & ? & -> & [?|[? ?]])]
  | H : driverJournal _ _ |- _ =>
      destruct H as (? & [->|[[? ->]|[? [? ->]]]])
  | H : driverFailed _ |- _ => destruct H as [->|[? ->]]
  | H : _ ∨ _ |- _ => destruct H
  | H : ∃ _, _ |- _ => destruct H
  end; simplify_eq/=.

(** X17. Every call of a pass is one the reconciler has code for: it never
    gets the resource itself, never creates a secret or the resource, and
    never updates a service. *)
Theorem Reconcile_calls_allowed w :
  Forall (λ c, allowedCall c = true) (newCalls Reconcile w).
Proof.
  destruct (Reconcile_journal w); break_journals; by repeat constructor.
Qed.

(** X18. On a resource without exposed host no call of a pass is about an
    ingress: the ingress is neither got nor written. *)
Theorem Reconcile_ingress_only_when_exposed w :
  appsv1alpha1.ExposedHost (appsv1alpha1.Spec (APIcastCR w)) = None →
  Forall (λ c, kindOf c ≠ KIngress) (newCalls Reconcile w).
Proof.
  intros Hh.
  assert (Hexp : exposed (APIcastCR w) = false).
  { unfold exposed. rewrite Hh. apply bool_decide_eq_false. by intros [? ?]. }
  destruct (Reconcile_journal w); try congruence; break_journals; by repeat constructor.
Qed.

(** X19. A pass that answers a re-queue has no error, and its last call, the
    only write of the pass, is an update of the resource or of a secret.
    Conversely a pass that updates the resource or a secret ends with that
    call, makes no other write, and does not answer "done" (it answers the
    re-queue or the error of that update). *)
Theorem Reconcile_owner_write_ends_pass w :
  (∀ err, answerOf (Reconcile w) = Some ({| Requeue := true |}, err) →
     err = None
     ∧ ∃ c, ownerWrite c = true ∧ last (newCalls Reconcile w) = Some c
            ∧ writesOf (newCalls Reconcile w) = [c])
  ∧ (∀ c, c ∈ newCalls Reconcile w → ownerWrite c = true →
       last (newCalls Reconcile w) = Some c
       ∧ writesOf (newCalls Reconcile w) = [c]
       ∧ answerOf (Reconcile w) ≠ Some ({| Requeue := false |}, None)).
Proof.
  destruct (Reconcile_journal w);
    (split;
     [intros err Hans; break_journals; (split; [done|eexists; by repeat split])
     |intros c Hc Hw; break_journals; set_unfold; destruct_or?; by simplify_eq/=]).
Qed.

(** X20. The calls of a pass come in the order of its stages (the resource,
    the secrets, the deployment, the service, the ingress); no two writes of
    a pass are on the same kind of object; and a pass makes at most eight
    calls. *)
Theorem Reconcile_calls_staged w :
  Sorted le (stageRank ∘ kindOf <$> newCalls Reconcile w)
  ∧ NoDup (kindOf <$> writesOf (newCalls Reconcile w))
  ∧ (length (newCalls Reconcile w) ≤ 8)%nat.
Proof.
  destruct (Reconcile_journal w); break_journals;
    (split; [|split]);
    [repeat constructor..| |]; try (simpl; lia).
  all: try (apply (bool_decide_unpack _); vm_compute; exact I).
Qed.

(** X21. A pass answers "done" (no re-queue, no error) only after it has got
    the deployment, then the service, then, exactly when the resource has an
    exposed host, the ingress, each once; before them it has read at most
    two secrets, and it has read nothing else. *)
Theorem Reconcile_done_after_all_drivers w :
  answerOf (Reconcile w) = Some ({| Requeue := false |}, None) →
  ∃ secrets,
    kindsRead (newCalls Reconcile w)
    = secrets ++ KDeployment :: KService
              :: (if exposed (APIcastCR w) then [KIngress] else [])
    ∧ (secrets = [] ∨ secrets = [KSecret] ∨ secrets = [KSecret; KSecret]).
Proof.
  destruct (Reconcile_journal w); intros Hans; break_journals;
    match goal with H : exposed _ = _ |- _ => rewrite H end.
  all: try by (exists []; split; [|by left]).
  all: try by (exists [KSecret]; split; [|right; by left]).
  all: try by (exists [KSecret; KSecret]; split; [|right; by right]).
Qed.

End PassProperties.

(** ** The resource across a pass *)

Section Frame.
Context {St : Type} `{!Client St} `{!Libraries} `{!ApicastPkg}.
Implicit Types (w : @World St).

End Frame.

(** ** Runs on the in-memory cluster *)

#[local] Existing Instance memClient.
#[local] Existing Instance memLibraries.
#[local] Existing Instance memApicastPkg.

(** Closes a decidable proposition about concrete data by evaluation. *)
Ltac by_evaluation := apply (bool_decide_unpack _); vm_compute; exact I.

(** C8, at existing [A=1] and desired [B=2]. *)
Lemma ReconcileEnvVar_keyed_merge_witness :
  envA1 ∈ (ReconcileEnvVar [envA1] [envB2]).1
  ∧ lookupEnv "B" (ReconcileEnvVar [envA1] [envB2]).1 = Some envB2.
Proof.
  destruct (ReconcileEnvVar_keyed_merge [envA1] [envB2]) as (Hkeep & Hset & _).
  split.
  - apply (Hkeep envA1); by_evaluation.
  - apply (Hset ltac:(by_evaluation) envB2). by_evaluation.
Defined.

(** C9, on a cluster whose service differs from the desired one. *)
Lemma reconcileService_leaves_existing_witness :
  client_Get (store serviceWorld) KService (namespacedName KService sampleService)
    = inr otherService
  ∧ answerOf (reconcileService sampleService serviceWorld) = Some None
  ∧ store (worldOf (reconcileService sampleService serviceWorld)) = store serviceWorld
  ∧ newCalls (reconcileService sampleService) serviceWorld
    = [CallGet KService (namespacedName KService sampleService)].
Proof.
  split; [vm_compute; reflexivity|].
  apply (proj1 (reconcileService_leaves_existing sampleService serviceWorld) otherService).
  vm_compute; reflexivity.
Defined.

(** C5, on a cluster that takes the update. *)
Lemma Reconcile_default_fill_witness :
  appsv1alpha1.Replicas (appsv1alpha1.Spec (APIcastCR (startWorld [] unsetCR))) = None
  ∧ newCalls Reconcile (startWorld [] unsetCR) = [CallUpdate KAPIcast sampleCR]
  ∧ answerOf (Reconcile (startWorld [] unsetCR)) = Some ({| Requeue := true |}, None).
Proof.
  split; [reflexivity|].
  destruct (Reconcile_default_fill (startWorld [] unsetCR) eq_refl)
    as (Hcalls & _ & Hok & _).
  split; [exact Hcalls|]. apply Hok. vm_compute; reflexivity.
Defined.

(** On a store that refuses the update the same pass makes the same single
    call and returns the conflict, without a re-queue. *)
Lemma Reconcile_default_fill_refused :
  let run := @Reconcile MemStore conflictClient memLibraries memApicastPkg in
  newCalls run (startWorld [] unsetCR) = [CallUpdate KAPIcast sampleCR]
  ∧ answerOf (run (startWorld [] unsetCR))
    = Some ({| Requeue := false |}, Some (StatusError Conflict "gw")).
Proof. split; vm_compute; reflexivity. Qed.

(** C6, once for each of the three writing stages. *)
Lemma Reconcile_requeues_after_write_witness :
  Reconcile (startWorld [] unsetCR)
    = Normal ({| Requeue := true |}, None) (worldOf (initialize (startWorld [] unsetCR)))
  ∧ Reconcile portalWorld
    = Normal ({| Requeue := true |}, None) (worldOf (reconcileAdminPortalCredentials portalWorld))
  ∧ Reconcile configWorld
    = Normal ({| Requeue := true |}, None) (worldOf (reconcileGatewayEmbbededConfig configWorld)).
Proof.
  split; [|split].
  - apply (proj1 (Reconcile_requeues_after_write (startWorld [] unsetCR))).
    vm_compute; reflexivity.
  - apply (proj1 (proj2 (Reconcile_requeues_after_write portalWorld))
             portalWorld
             (Some (setSecretMeta (memSetControllerReference (APIcastCR portalWorld)
                                     (v1.sec_Meta portalSecret)).1 portalSecret)));
      vm_compute; reflexivity.
  - apply (proj2 (proj2 (Reconcile_requeues_after_write configWorld))
             configWorld None configWorld
             (Some (setSecretMeta (memSetControllerReference (APIcastCR configWorld)
                                     (v1.sec_Meta configSecret)).1 configSecret)));
      vm_compute; reflexivity.
Defined.

(** C4, on a resource with the replica count set: the pass makes no call. *)
Lemma Reconcile_rejects_nameless_admin_ref_witness :
  getAdminPortalCredentialsSecret namelessWorld
    = Normal (None, Some (ReferenceIncomplete "AdminPortalCredentialsRef")) namelessWorld
  ∧ Reconcile namelessWorld
    = Normal ({| Requeue := false |}, Some (ReferenceIncomplete "AdminPortalCredentialsRef"))
        namelessWorld
  ∧ newCalls Reconcile namelessWorld = [].
Proof.
  destruct (Reconcile_rejects_nameless_admin_ref namelessWorld {| v1.lor_Name := "" |}
              eq_refl eq_refl) as (Hget & _ & Hrun).
  split; [exact Hget|]. split; [exact (Hrun 1 eq_refl)|].
  unfold newCalls. rewrite (Hrun 1 eq_refl). reflexivity.
Defined.

(** C7, in the worlds before and after a first pass. *)
Lemma internalAPIcast_deterministic_witness :
  let s := {| adminPortalCredentialsSecret := Some portalSecret;
              gatewayEmbeddedConfigSecret := None |} in
  outcomeOf (internalAPIcast s freshWorld)
    = outcomeOf (internalAPIcast s (nextPass (worldOf (Reconcile freshWorld)))).
Proof.
  intros s.
  apply (internalAPIcast_deterministic freshWorld (nextPass (worldOf (Reconcile freshWorld))) s s);
    vm_compute; reflexivity.
Defined.

(** C10, counterexample. The replica count is nil and the admin-portal
    reference has no name: [APIcastFromCRContents] returns
    ReferenceIncomplete in the world it started from, and never comes to the
    dereference. *)
Lemma APIcastFromCRContents_stops_before_dereference :
  appsv1alpha1.Replicas (appsv1alpha1.Spec (APIcastCR namelessUnsetWorld)) = None
  ∧ APIcastFromCRContents namelessUnsetWorld
    = Normal (None, Some (ReferenceIncomplete "AdminPortalCredentialsRef")) namelessUnsetWorld
  ∧ outcomeOf (APIcastFromCRContents namelessUnsetWorld) ≠ inr NilDereference.
Proof. repeat split; try (vm_compute; reflexivity). vm_compute. discriminate. Qed.

(** C10, amended, on a resource that references no secret. *)
Lemma nil_replicas_dereference_witness :
  APIcastFromCRContents (startWorld [] unsetCR)
    = Panicked NilDereference (startWorld [] unsetCR).
Proof.
  destruct (proj1 (nil_replicas_dereference (startWorld [] unsetCR)) eq_refl)
    as (_ & _ & Hpanic).
  apply Hpanic; reflexivity.
Defined.

(** C1. After a first pass on an empty cluster the store holds the desired
    deployment (value for value), service and ingress; the second pass, with
    nothing changed in between, still updates the deployment, writing the
    values that are already there, and so does the third. *)
Theorem Reconcile_second_pass_rewrites_deployment :
  answerOf (Reconcile freshWorld) = Some ({| Requeue := false |}, None)
  ∧ ∃ desired stored written written',
      outcomeOf (internalAPIcast noSecrets secondPass) = inl (desired, None)
      ∧ deployments (store secondPass) !! gwKey = Some stored
      ∧ valuesOf stored = valuesOf (Deployment (heapNext secondPass) desired)
      ∧ services (store secondPass) !! gwKey = Some (Service desired)
      ∧ ingresses (store secondPass) !! gwKey = Some (Ingress desired)
      ∧ newCalls Reconcile secondPass
        = [getGw KDeployment; CallUpdate KDeployment written; getGw KService; getGw KIngress]
      ∧ valuesOf written = valuesOf stored
      ∧ newCalls Reconcile thirdPass
        = [getGw KDeployment; CallUpdate KDeployment written'; getGw KService; getGw KIngress]
      ∧ valuesOf written' = valuesOf stored.
Proof.
  split; [vm_compute; reflexivity|].
  do 4 eexists. repeat split; lazy; reflexivity.
Qed.

(** C3, counterexample. The existing ingress has a rule for old.example.com,
    the desired one a rule for the exposed host new.example.com: the driver
    writes an ingress with the new rule only. *)
Lemma reconcileIngress_replaces_other_hosts :
  let desired := ingressWith [ruleFor "new.example.com"] in
  let after := worldOf (reconcileIngress desired oldHostWorld) in
  ingresses (store oldHostWorld) !! gwKey = Some (ingressWith [ruleFor "old.example.com"])
  ∧ newCalls (reconcileIngress desired) oldHostWorld
    = [getGw KIngress; CallUpdate KIngress (ingressWith [ruleFor "new.example.com"])]
  ∧ ingresses (store after) !! gwKey = Some (ingressWith [ruleFor "new.example.com"])
  ∧ ¬ hasRuleFor "old.example.com" (ingressWith [ruleFor "new.example.com"]).
Proof.
  repeat split; try (vm_compute; reflexivity). by_evaluation.
Qed.

(** C3, amended, once without and once with a rule for the exposed host. *)
Lemma reconcileIngress_rules_witness :
  newCalls (reconcileIngress (ingressWith [ruleFor "new.example.com"])) oldHostWorld
  = [getGw KIngress; CallUpdate KIngress (ingressWith [ruleFor "new.example.com"])]
  ∧ newCalls (reconcileIngress (ingressWith [ruleFor "old.example.com"]))
      (ingressWorld "old.example.com"
         (ingressWith [ruleFor "old.example.com"; ruleFor "other.example.com"]))
    = [getGw KIngress].
Proof.
  split.
  - pose proof (reconcileIngress_rules (ingressWith [ruleFor "new.example.com"])
                  (ingressWith [ruleFor "old.example.com"]) oldHostWorld
                  {| appsv1alpha1.Host := "new.example.com"; appsv1alpha1.TLS := None |})
      as Hrules.
    destruct Hrules as [Habsent _]; [vm_compute; reflexivity..|].
    apply Habsent. by_evaluation.
  - pose proof (reconcileIngress_rules (ingressWith [ruleFor "old.example.com"])
                  (ingressWith [ruleFor "old.example.com"; ruleFor "other.example.com"])
                  (ingressWorld "old.example.com"
                     (ingressWith [ruleFor "old.example.com"; ruleFor "other.example.com"]))
                  {| appsv1alpha1.Host := "old.example.com"; appsv1alpha1.TLS := None |})
      as Hrules.
    destruct Hrules as [_ Hpresent]; [vm_compute; reflexivity..|].
    apply Hpresent; [by_evaluation | vm_compute; reflexivity].
Defined.

(** C2, counterexample. The existing environment [A=1; B=2] differs from
    the desired [B=2], everything else is equal, and the driver makes no
    update call. *)
Lemma reconcileDeployment_ignores_extra_variable :
  let existing := plainDeployment [envA1; envB2] in
  let desired := plainDeployment [envB2] in
  deployments (store (deploymentWorld existing)) !! gwKey = Some existing
  ∧ (v1.Env <$> head (v1.Containers (podSpec existing)))
    ≠ (v1.Env <$> head (v1.Containers (podSpec desired)))
  ∧ newCalls (reconcileDeployment desired) (deploymentWorld existing) = [getGw KDeployment].
Proof.
  repeat split; try (vm_compute; reflexivity). by_evaluation.
Qed.

(** C2, amended, on an existing [A=1] and a desired [B=2]: the update carries both. *)
Lemma reconcileDeployment_updates_iff_differs_witness :
  let existing := plainDeployment [envA1] in
  let desired := plainDeployment [envB2] in
  newCalls (reconcileDeployment desired) (deploymentWorld existing)
  = [getGw KDeployment; CallUpdate KDeployment (plainDeployment [envA1; envB2])].
Proof.
  intros existing desired.
  pose (c := λ env, {| v1.c_Name := "apicast-gw"; v1.Image := "quay.io/3scale/apicast:nightly";
                       v1.Env := env; v1.VolumeMounts := None |}).
  pose proof (reconcileDeployment_updates_iff_differs desired existing
                (deploymentWorld existing)
                (worldOf (clientGet KDeployment (namespacedName KDeployment desired)
                            (deploymentWorld existing)))
                (c [envA1]) [] (c [envB2]) []) as Hiff.
  destruct Hiff as [Hdiffers _]; [vm_compute; reflexivity..|].
  apply Hdiffers. by_evaluation.
Defined.

(** ** Further runs on the in-memory cluster *)

(** X1, on an empty cluster: the service is created. *)
Lemma drivers_create_when_not_found_witness :
  newCalls (reconcileService sampleService) (startWorld [] sampleCR)
  = [getGw KService; CallCreate KService sampleService]
  ∧ answerOf (reconcileService sampleService (startWorld [] sampleCR)) = Some None.
Proof.
  destruct (drivers_create_when_not_found (startWorld [] sampleCR)
              (StatusError NotFound "apicast-gw") eq_refl) as (_ & Hservice & _).
  destruct (Hservice sampleService eq_refl) as (Hcalls & Hanswer & _).
  split; [exact Hcalls|exact Hanswer].
Defined.

(** X2, on a cluster whose reads fail: the ingress driver returns the failure. *)
Lemma drivers_return_get_error_witness :
  let run := @reconcileIngress MemStore unreachableClient
               (ingressWith [ruleFor "gw.example.com"]) in
  newCalls run freshWorld = [getGw KIngress]
  ∧ answerOf (run freshWorld) = Some (Some (StatusError Unknown "apicast-gw")).
Proof.
  intros run.
  destruct (@drivers_return_get_error MemStore unreachableClient freshWorld
              (StatusError Unknown "apicast-gw") eq_refl) as (_ & _ & Hingress).
  destruct (Hingress (ingressWith [ruleFor "gw.example.com"]) eq_refl)
    as (Hcalls & Hanswer & _).
  split; [exact Hcalls|exact Hanswer].
Defined.

(** X3, on an existing [A=1] and a desired [B=2]: [A=1] is kept. *)
Lemma reconcileDeployment_keeps_unmanaged_fields_witness :
  let existing := plainDeployment [envA1] in
  let desired := plainDeployment [envB2] in
  let sent := plainDeployment [envA1; envB2] in
  appsv1.dep_Meta sent = appsv1.dep_Meta existing
  ∧ ∃ c0, v1.Containers (podSpec sent) = [c0] ∧ envA1 ∈ v1.Env c0.
Proof.
  intros existing desired sent.
  pose (c := λ env, {| v1.c_Name := "apicast-gw"; v1.Image := "quay.io/3scale/apicast:nightly";
                       v1.Env := env; v1.VolumeMounts := None |}).
  pose proof (reconcileDeployment_keeps_unmanaged_fields desired existing
                (deploymentWorld existing)
                (worldOf (clientGet KDeployment (namespacedName KDeployment desired)
                            (deploymentWorld existing)))
                (c [envA1]) [] (c [envB2]) [] sent) as Hkept.
  destruct Hkept as (Hmeta & _ & (c0 & Hc0 & _ & _ & _ & Henv) & _);
    [vm_compute; reflexivity..|vm_compute; repeat constructor|].
  split; [exact Hmeta|]. exists c0. split; [exact Hc0|].
  apply Henv; [vm_compute; constructor|by_evaluation].
Defined.

(** X4, on a stored deployment without containers. *)
Lemma reconcileDeployment_without_containers_panics_witness :
  outcomeOf (reconcileDeployment (plainDeployment []) (deploymentWorld bareDeployment))
  = inr IndexOutOfRange
  ∧ newCalls (reconcileDeployment (plainDeployment [])) (deploymentWorld bareDeployment)
    = [getGw KDeployment].
Proof.
  destruct (reconcileDeployment_without_containers_panics (plainDeployment []) bareDeployment
              (deploymentWorld bareDeployment)) as (Hout & Hcalls & _);
    [vm_compute; reflexivity|left; vm_compute; reflexivity|].
  split; [exact Hout|exact Hcalls].
Defined.

(** X5, on three rules, the first and the last for the exposed host. *)
Lemma rangeRules_finds_last_rule_witness :
  let rules := [ruleFor "gw.example.com"; ruleFor "old.example.com"; ruleFor "gw.example.com"] in
  let h := {| appsv1alpha1.Host := "gw.example.com"; appsv1alpha1.TLS := None |} in
  ∃ z, rangeRules rules 0 (-1) freshWorld = Normal z freshWorld
       ∧ ((z = -1 ∧ Forall (λ r, extensions.Host r ≠ appsv1alpha1.Host h) rules)
          ∨ ∃ (i : nat) r, z = Z.of_nat i
                           ∧ rules !! i = Some r
                           ∧ extensions.Host r = appsv1alpha1.Host h
                           ∧ Forall (λ r, extensions.Host r ≠ appsv1alpha1.Host h)
                               (drop (S i) rules)).
Proof.
  intros rules h. apply (rangeRules_finds_last_rule freshWorld h rules).
  vm_compute; reflexivity.
Defined.

(** X6, on a stored ingress with one rule. *)
Lemma reconcileIngress_without_exposed_host_witness :
  let stored := ingressWith [ruleFor "old.example.com"] in
  outcomeOf (reconcileIngress (ingressWith []) (hostlessWorld stored)) = inr NilDereference
  ∧ newCalls (reconcileIngress (ingressWith [])) (hostlessWorld stored) = [getGw KIngress].
Proof.
  intros stored.
  pose proof (reconcileIngress_without_exposed_host (ingressWith []) stored
                (hostlessWorld stored)) as Hnil.
  destruct Hnil as [Hpanics _]; [vm_compute; reflexivity..|].
  destruct Hpanics as (Hout & Hcalls & _); [by_evaluation|].
  split; [exact Hout|exact Hcalls].
Defined.

(** X8, on a cluster that holds the admin-portal secret. *)
Lemma getAdminPortalCredentialsSecret_succeeds_iff_witness :
  answerOf (getAdminPortalCredentialsSecret portalWorld) = Some (Some portalSecret, None).
Proof.
  apply (getAdminPortalCredentialsSecret_succeeds_iff portalWorld
           {| v1.lor_Name := "portal" |} portalSecret); [vm_compute; reflexivity|].
  split; [by_evaluation|]. split; [vm_compute; reflexivity|].
  exists "https://token@admin.example.com",
         {| User := Some {| username := "token"; password := None |} |}.
  split; [vm_compute; reflexivity|]. split; [vm_compute; reflexivity|by_evaluation].
Defined.

(** X9, on a cluster that holds the configuration secret. *)
Lemma getGatewayEmbeddedConfigSecret_succeeds_iff_witness :
  answerOf (getGatewayEmbeddedConfigSecret configWorld) = Some (Some configSecret, None).
Proof.
  apply (getGatewayEmbeddedConfigSecret_succeeds_iff configWorld
           {| v1.lor_Name := "config" |} configSecret); [vm_compute; reflexivity|].
  split; [by_evaluation|]. split; [vm_compute; reflexivity|].
  exists "{}". vm_compute; reflexivity.
Defined.

(** X12, on a replica count of 2^32 + 3. *)
Lemma internalAPIcast_replicas_wrap_witness :
  ∃ a, internalAPIcast noSecrets wideWorld = Normal (a, None) wideWorld
       ∧ apicast.Replicas a ≠ 4294967299.
Proof.
  destruct (internalAPIcast_replicas_wrap noSecrets wideWorld 4294967299 eq_refl)
    as (a & Hrun & _ & _ & Hfits).
  exists a. split; [exact Hrun|]. intros Heq. apply Hfits in Heq. lia.
Defined.

(** X13, on the sample gateway. *)
Lemma internalAPIcast_names_witness :
  ∃ a, internalAPIcast noSecrets freshWorld = Normal (a, None) freshWorld
       ∧ apicast.ServiceName a = apicast.DeploymentName a
       ∧ apicast.Namespace a = "prod".
Proof.
  let r := eval vm_compute in (internalAPIcast noSecrets freshWorld) in
  match r with Normal (?a, _) _ => pose (built := a) end.
  let r := eval vm_compute in (internalAPIcast noSecrets portalWorld) in
  match r with Normal (?a, _) _ => pose (other := a) end.
  assert (Hrun : internalAPIcast noSecrets freshWorld = Normal (built, None) freshWorld)
    by (vm_compute; reflexivity).
  assert (Hother : internalAPIcast noSecrets portalWorld = Normal (other, None) portalWorld)
    by (vm_compute; reflexivity).
  destruct (internalAPIcast_names freshWorld portalWorld freshWorld portalWorld
              noSecrets noSecrets built other Hrun Hother) as (Hsvc & Hns & _).
  exists built. split; [exact Hrun|]. split; [exact Hsvc|exact Hns].
Defined.

(** X16, on a resource whose two references have no name. *)
Lemma resolution_order_differs_witness :
  Reconcile bothNamelessWorld
    = Normal ({| Requeue := false |}, Some (ReferenceIncomplete "AdminPortalCredentialsRef"))
        bothNamelessWorld
  ∧ APIcastFromCRContents bothNamelessWorld
    = Normal (None, Some (ReferenceIncomplete "EmbeddedConfigurationSecretRef"))
        bothNamelessWorld.
Proof.
  apply (resolution_order_differs bothNamelessWorld {| v1.lor_Name := "" |}
           {| v1.lor_Name := "" |} 1); vm_compute; reflexivity.
Defined.

(** X18, on a first pass for a gateway without exposed host. *)
Lemma Reconcile_ingress_only_when_exposed_witness :
  Forall (λ c, kindOf c ≠ KIngress) (newCalls Reconcile (startWorld [] sampleCR)).
Proof.
  apply Reconcile_ingress_only_when_exposed. vm_compute; reflexivity.
Defined.

(** X21, on a first pass for an exposed gateway on an empty cluster. *)
Lemma Reconcile_done_after_all_drivers_witness :
  ∃ secrets,
    kindsRead (newCalls Reconcile freshWorld)
    = secrets ++ KDeployment :: KService
              :: (if exposed (APIcastCR freshWorld) then [KIngress] else [])
    ∧ (secrets = [] ∨ secrets = [KSecret] ∨ secrets = [KSecret; KSecret]).
Proof.
  apply Reconcile_done_after_all_drivers. vm_compute; reflexivity.
Defined.

